(** * Customer churn prediction: feature store, risk scoring, retention actions

    A shallow embedding of the Python sources

      - [ml/model_loader.py]            ([ModelLoader.predict])
      - [database/models.py]            (the tables)
      - [features/feature_store.py]     ([FeatureStore])
      - [action_engine/action_recommender.py] ([ActionRecommender])
      - [ingestion/stream_processor.py] ([StreamProcessor])
      - [ingestion/kafka_consumer.py]   ([EventConsumer.consume])
      - [api/main.py]                   ([predict_churn], [predict_batch])

    followed by the properties proved of them.

    Conventions of the embedding.

      - Python [float]s are exact rationals ([Q]); [int]s are [Z].  NaN and
        rounding are outside the model.
      - A [datetime] is a number of microseconds ([Z]); a [date] is a number
        of days.  [timedelta.days] is the floor quotient by one day.
      - Python dicts with string keys are [gmap string _].
      - [None]-able attributes are [option]s; Python truthiness ([x or d],
        [if x]) is written out per type.
      - Code that reads the clock, the database session, the Redis client or
        the logger runs in a state-and-exception monad over [World]. *)

From Stdlib Require Import ZArith QArith Qminmax Ascii String List Sorted Lia Lqa.
From stdpp Require Import gmap strings pretty.

Open Scope string_scope.
Open Scope list_scope.
Open Scope Z_scope.

(** ** Feature dictionaries *)

(** The values the dictionaries of the program hold: [str], [int], [float]
    and [bool]. *)
Inductive value : Type :=
| VStr (s : string)
| VInt (n : Z)
| VFloat (x : Q)
| VBool (b : bool).

Abbreviation Features := (gmap string value).

(** ** Risk scoring ([ml/model_loader.py]) *)

(** [CONFIG['retention_actions']['risk_thresholds']]: the configuration file
    is not part of the sources, so the three thresholds are a parameter. *)
Record RiskThresholds : Type := {
  t_critical : Q;
  t_high : Q;
  t_medium : Q
}.

(** The scoring function is opaque.  [predict_proba] stands for the
    data-frame preparation followed by [model.predict_proba(df)[0, 1]], and
    [model_predict] for [model.predict(df)[0]]; [None] is a raised exception. *)
Record Model : Type := {
  predict_proba : Features -> option Q;
  model_predict : Features -> option Z
}.

Record Prediction : Type := {
  churn_probability : Q;
  churn_prediction : Z;
  risk_level : string
}.

(** Python's [a >= b] on floats. *)
Definition Qge_bool (a b : Q) : bool := Qle_bool b a.

(** [ModelLoader.predict]. *)
Definition predict (thresholds : RiskThresholds) (model : Model)
    (features : Features) : option Prediction :=
  match predict_proba model features with
  | None => None
  | Some proba =>
    match model_predict model features with
    | None => None
    | Some prediction =>
      let risk_level :=
        if Qge_bool proba (t_critical thresholds) then "critical"
        else if Qge_bool proba (t_high thresholds) then "high"
        else if Qge_bool proba (t_medium thresholds) then "medium"
        else "low" in
      Some {| churn_probability := proba;
              churn_prediction := prediction;
              risk_level := risk_level |}
    end
  end.

(** The order low < medium < high < critical on risk levels. *)
Definition risk_rank (level : string) : nat :=
  if String.eqb level "critical" then 3
  else if String.eqb level "high" then 2
  else if String.eqb level "medium" then 1
  else 0.

(** A scorer that returns the same probability for every input. *)
Definition const_model (p : Q) : Model :=
  {| predict_proba := fun _ => Some p;
     model_predict := fun _ => Some (if Qge_bool p (1 # 2) then 1 else 0) |}.

Definition example_thresholds : RiskThresholds :=
  {| t_critical := 8 # 10; t_high := 6 # 10; t_medium := 3 # 10 |}.

(** ** Time *)

(** A [datetime] counts microseconds, a [date] counts days. *)
Definition datetime : Type := Z.
Definition date : Type := Z.

Definition usec_per_day : Z := 86400000000.

(** [timedelta(days=n)]. *)
Definition timedelta (days : Z) : Z := days * usec_per_day.

(** [delta.days]: Python normalises a [timedelta] so that [days] is the floor
    of the quotient. *)
Definition timedelta_days (delta : Z) : Z := delta / usec_per_day.

(** [dt.date()]. *)
Definition datetime_date (dt : datetime) : date := dt / usec_per_day.

(** ** Database rows ([database/models.py]) *)

(** Row of [customers]; the primary key [customer_id] is the key of the
    table.  Only the columns the modelled code reads are kept. *)
Record Customer : Type := {
  account_created_date : option date;
  customer_segment : string;
  age_range : option string;
  household_size : option Z;
  estimated_income : option string;
  monthly_recurring_revenue : option Q;
  contract_end_date : option date;
  auto_renew : option bool;
  lifetime_value : option Q
}.

Record CustomerServiceInteraction : Type := {
  csi_interaction_id : option string;
  csi_customer_id : string;
  csi_timestamp : datetime;
  csi_channel : string;
  csi_duration_seconds : option Z;
  csi_reason_category : option string;
  csi_resolution_status : option string;
  csi_agent_id : option string;
  csi_sentiment_score : option Q;
  csi_transcript_text : option string;
  csi_transfer_count : option Z
}.

Record STBTelemetry : Type := {
  stb_device_id : string;
  stb_customer_id : string;
  stb_timestamp : datetime;
  stb_event_type : string;
  stb_channel_id : option string;
  stb_content_id : option string;
  stb_viewing_duration_seconds : option Z;
  stb_error_code : option string;
  stb_buffer_events : option Z;
  stb_network_quality : option Q
}.

(** [customer_id] is nullable in [web_analytics_events]. *)
Record WebAnalyticsEvent : Type := {
  web_customer_id : option string;
  web_session_id : string;
  web_timestamp : datetime;
  web_event_name : string;
  web_page_url : option string;
  web_device_category : option string;
  web_app_version : option string;
  web_engagement_time_msec : option Z;
  web_user_agent : option string
}.

Record BillingEvent : Type := {
  bill_event_type : string;
  bill_customer_id : string;
  bill_timestamp : datetime;
  bill_transaction_id : string;
  bill_amount : option Q;
  bill_payment_method : option string;
  bill_billing_cycle_day : option Z;
  bill_account_balance : option Q;
  bill_days_overdue : option Z
}.

(** Row of [retention_actions]; the primary key [action_id] is the key of
    the table. *)
Record RetentionAction : Type := {
  ra_customer_id : string;
  ra_action_type : string;
  ra_executed_at : option datetime;
  ra_status : string;
  ra_predicted_impact : option Q
}.

(** The relational store.  Tables with a primary key the code looks rows up
    by are maps from that key; event tables are lists in storage order. *)
Record DB : Type := {
  customers : gmap string Customer;
  customer_service_interactions : list CustomerServiceInteraction;
  stb_telemetry : list STBTelemetry;
  web_analytics_events : list WebAnalyticsEvent;
  billing_events : list BillingEvent;
  retention_actions : gmap string RetentionAction
}.

Definition empty_db : DB :=
  {| customers := ∅; customer_service_interactions := [];
     stb_telemetry := []; web_analytics_events := [];
     billing_events := []; retention_actions := ∅ |}.

(** ** The world: store, cache, clock and log *)

Inductive exn : Type :=
| KeyError (key : string)
| AttributeError
| ValueError
| TypeError
| IntegrityError
| DataError
| ModelError
| ResponseValidationError
| HTTPException (status_code : Z).

Inductive LogLevel : Type := DEBUG | INFO | WARNING | ERROR.

(** A log record: the level, the text of the message (without interpolated
    JSON values), and the interpolated exception when there is one. *)
Record LogRecord : Type := {
  log_level : LogLevel;
  log_message : string;
  log_exc : option exn
}.

(** [clock n] is what the [n]-th call of [datetime.utcnow()] returns;
    [ticks] counts the calls made so far.  A Redis entry carries the time at
    which it expires. *)
Record World : Type := {
  db : DB;
  redis : gmap string (Features * datetime);
  clock : nat -> datetime;
  ticks : nat;
  log : list LogRecord
}.

Definition set_db (d : DB) (w : World) : World :=
  {| db := d; redis := redis w; clock := clock w; ticks := ticks w;
     log := log w |}.

Definition set_redis (r : gmap string (Features * datetime)) (w : World)
    : World :=
  {| db := db w; redis := r; clock := clock w; ticks := ticks w;
     log := log w |}.

(** ** The state-and-exception monad *)

Inductive result (A : Type) : Type :=
| Ok (a : A)
| Raise (e : exn).
Arguments Ok {A} a.
Arguments Raise {A} e.

Definition M (A : Type) : Type := World -> result A * World.

Definition ret {A} (a : A) : M A := fun w => (Ok a, w).

Definition bind {A B} (m : M A) (k : A -> M B) : M B :=
  fun w =>
    match m w with
    | (Ok a, w') => k a w'
    | (Raise e, w') => (Raise e, w')
    end.

Definition raise {A} (e : exn) : M A := fun w => (Raise e, w).

(** [try: m  except Exception as e: handler e]. *)
Definition try_except {A} (m : M A) (handler : exn -> M A) : M A :=
  fun w =>
    match m w with
    | (Ok a, w') => (Ok a, w')
    | (Raise e, w') => handler e w'
    end.

Declare Scope m_scope.
Delimit Scope m_scope with M.
Notation "x <- m ;; k" := (bind m (fun x => k))
  (at level 100, m at next level, right associativity) : m_scope.
Notation "m ;;; k" := (bind m (fun _ => k))
  (at level 100, right associativity) : m_scope.
Open Scope m_scope.

(** One more reading of the clock has been made. *)
Definition tick (w : World) : World :=
  {| db := db w; redis := redis w; clock := clock w; ticks := S (ticks w);
     log := log w |}.

(** One more record has been logged. *)
Definition add_log (r : LogRecord) (w : World) : World :=
  {| db := db w; redis := redis w; clock := clock w; ticks := ticks w;
     log := log w ++ [r] |}.

(** [datetime.utcnow()]. *)
Definition utcnow : M datetime :=
  fun w => (Ok (clock w (ticks w)), tick w).

(** [logger.<level>(message)]. *)
Definition logger (level : LogLevel) (message : string) (exc : option exn)
    : M unit :=
  fun w =>
    (Ok tt,
     add_log {| log_level := level; log_message := message;
                log_exc := exc |} w).

(** [self.db.query(...)]: a read of the store. *)
Definition query {A} (q : DB -> A) : M A := fun w => (Ok (q (db w)), w).

(** The Redis server's notion of the current time: the next clock reading,
    without consuming it. *)
Definition redis_now (w : World) : datetime := clock w (ticks w).

(** [redis_client.get(key)]: an expired entry is absent. *)
Definition redis_get (key : string) : M (option Features) :=
  fun w =>
    (Ok match redis w !! key with
        | Some (v, expires_at) =>
          if redis_now w <? expires_at then Some v else None
        | None => None
        end, w).

(** [redis_client.setex(key, ttl_seconds, value)]. *)
Definition redis_setex (key : string) (ttl_seconds : Z) (v : Features)
    : M unit :=
  fun w =>
    (Ok tt,
     set_redis (<[key := (v, redis_now w + ttl_seconds * 1000000)]> (redis w))
               w).

(** [clock_is t w]: every reading of the clock in [w] gives [t], so [t] is
    the as-of time of whatever runs in [w]. *)
Definition clock_is (t : datetime) (w : World) : Prop :=
  forall n, clock w n = t.

(** [snapshot_fn t m]: run at as-of time [t], the computation [m] leaves the
    store and the clock as they are, and its outcome depends on the world
    only through the store. *)
Definition snapshot_fn (t : datetime) {A} (m : M A) : Prop :=
  forall w, clock_is t w ->
    (db (snd (m w)) = db w /\ clock (snd (m w)) = clock w) /\
    forall w', clock_is t w' -> db w' = db w -> fst (m w') = fst (m w).

(** [fails m]: [m] raises, whatever the world, and leaves the world as it
    is.  [pure_with P m]: [m] leaves the world as it is, and a value it
    returns satisfies [P]. *)
Definition fails {A} (m : M A) : Prop :=
  forall w, exists e, m w = (Raise e, w).

Definition pure_with {A} (P : A -> Prop) (m : M A) : Prop :=
  forall w, (exists e, m w = (Raise e, w))
            \/ (exists a, P a /\ m w = (Ok a, w)).

(** ** Python helpers *)

(** [x or d] for an optional [int], [float] and [str]. *)
Definition or_int (x : option Z) (d : Z) : Z :=
  match x with
  | Some v => if v =? 0 then d else v
  | None => d
  end.

Definition or_float (x : option Q) (d : Q) : Q :=
  match x with
  | Some v => if Qeq_bool v 0 then d else v
  | None => d
  end.

Definition or_str (x : option string) (d : string) : string :=
  match x with
  | Some v => if String.eqb v EmptyString then d else v
  | None => d
  end.

(** [sum(xs)]. *)
Definition sum_int (xs : list Z) : Z := fold_left Z.add xs 0.
Definition sum_float (xs : list Q) : Q := fold_left Qplus xs 0%Q.

(** [len(xs)]. *)
Definition len {A} (xs : list A) : Z := Z.of_nat (length xs).

(** [max(x, *xs)]. *)
Definition max_int (x : Z) (xs : list Z) : Z := fold_left Z.max xs x.

(** [min(a, b)]: [b] when [b < a], otherwise [a]. *)
Definition py_min (a b : Q) : Q :=
  if negb (Qle_bool a b) then b else a.

(** [list.sort(key=key, reverse=True)] and [ORDER BY key DESC]: a stable
    sort, rows with equal keys keep their order. *)
Section Sort.
Context {A K : Type} (ltb : K -> K -> bool) (key : A -> K).

Fixpoint insert_desc (x : A) (l : list A) : list A :=
  match l with
  | [] => [x]
  | y :: l' =>
    if ltb (key x) (key y) then y :: insert_desc x l' else x :: l
  end.

Definition sort_desc (l : list A) : list A := fold_right insert_desc [] l.
End Sort.

(** A dict literal and [d.update(other)]. *)
Definition dict (items : list (string * value)) : Features :=
  list_to_map items.

Definition update (d other : Features) : Features := other ∪ d.

(** [d.get(key, 0)] used as a number; a [bool] is an [int], a [str] in
    arithmetic is a [TypeError]. *)
Definition get_number (d : Features) (key : string) : M Q :=
  match d !! key with
  | None => ret 0%Q
  | Some (VInt n) => ret (inject_Z n)
  | Some (VFloat x) => ret x
  | Some (VBool b) => ret (if b then 1 else 0)%Q
  | Some (VStr _) => raise TypeError
  end.

(** ** The feature store ([features/feature_store.py]) *)

Section FeatureStore.
(** [CONFIG['feature_store']['online_store']['ttl_seconds']]. *)
Variable ttl_seconds : Z.

Definition _compute_demographic_features (customer : Customer)
    : M Features :=
  tenure_days <-
    match account_created_date customer with
    | Some created => now <- utcnow ;; ret (datetime_date now - created)
    | None => ret 0
    end ;;
  days_until_contract_end <-
    match contract_end_date customer with
    | Some contract_end =>
      now <- utcnow ;; ret (contract_end - datetime_date now)
    | None => ret 999
    end ;;
  ret (dict [
    ("customer_segment", VStr (customer_segment customer));
    ("age_range", VStr (or_str (age_range customer) "unknown"));
    ("household_size", VInt (or_int (household_size customer) 0));
    ("estimated_income",
       VStr (or_str (estimated_income customer) "unknown"));
    ("tenure_days", VInt tenure_days);
    ("monthly_recurring_revenue",
       VFloat (or_float (monthly_recurring_revenue customer) 0));
    ("lifetime_value", VFloat (or_float (lifetime_value customer) 0));
    ("auto_renew",
       VInt (match auto_renew customer with Some true => 1 | _ => 0 end));
    ("days_until_contract_end", VInt days_until_contract_end)]).

Definition _compute_service_features (customer_id : string)
    (now : datetime) : M Features :=
  let thirty_days_ago := now - timedelta 30 in
  interactions <- query (fun d =>
    filter (fun i => csi_customer_id i = customer_id
                     /\ thirty_days_ago <= csi_timestamp i)
           (customer_service_interactions d)) ;;
  match interactions with
  | [] =>
    ret (dict [
      ("service_calls_30d", VInt 0);
      ("avg_sentiment_30d", VFloat 0);
      ("unresolved_calls_30d", VInt 0);
      ("avg_call_duration_30d", VFloat 0);
      ("days_since_last_call", VInt 999)])
  | i0 :: rest =>
    let sentiments := omap csi_sentiment_score interactions in
    let durations := omap csi_duration_seconds interactions in
    let unresolved :=
      filter (fun i => csi_resolution_status i = Some "unresolved")
             interactions in
    let last_call := max_int (csi_timestamp i0) (map csi_timestamp rest) in
    ret (dict [
      ("service_calls_30d", VInt (len interactions));
      ("avg_sentiment_30d",
         VFloat (match sentiments with
                 | [] => 0
                 | _ => sum_float sentiments / inject_Z (len sentiments)
                 end)%Q);
      ("unresolved_calls_30d", VInt (len unresolved));
      ("avg_call_duration_30d",
         VFloat (match durations with
                 | [] => 0
                 | _ => inject_Z (sum_int durations)
                        / inject_Z (len durations)
                 end)%Q);
      ("days_since_last_call", VInt (timedelta_days (now - last_call)))])
  end.

(** [sum(e.buffer_events for e in events)]: adding [None] to an [int] is
    a [TypeError]. *)
Fixpoint sum_buffer_events (acc : Z) (events : list STBTelemetry) : M Z :=
  match events with
  | [] => ret acc
  | e :: events' =>
    match stb_buffer_events e with
    | Some n => sum_buffer_events (acc + n) events'
    | None => raise TypeError
    end
  end.

Definition _compute_stb_features (customer_id : string) (now : datetime)
    : M Features :=
  let thirty_days_ago := now - timedelta 30 in
  events <- query (fun d =>
    filter (fun e => stb_customer_id e = customer_id
                     /\ thirty_days_ago <= stb_timestamp e)
           (stb_telemetry d)) ;;
  match events with
  | [] =>
    ret (dict [
      ("stb_errors_30d", VInt 0);
      ("avg_network_quality_30d", VFloat 100);
      ("total_buffer_events_30d", VInt 0);
      ("total_viewing_hours_30d", VFloat 0)])
  | _ :: _ =>
    let errors := filter (fun e => stb_event_type e = "error") events in
    let network_qualities := omap stb_network_quality events in
    buffer_events <- sum_buffer_events 0 events ;;
    let viewing_seconds :=
      sum_int (map (fun e => or_int (stb_viewing_duration_seconds e) 0)
                   events) in
    ret (dict [
      ("stb_errors_30d", VInt (len errors));
      ("avg_network_quality_30d",
         VFloat (match network_qualities with
                 | [] => 100
                 | _ => sum_float network_qualities
                        / inject_Z (len network_qualities)
                 end)%Q);
      ("total_buffer_events_30d", VInt buffer_events);
      ("total_viewing_hours_30d",
         VFloat (inject_Z viewing_seconds / 3600)%Q)])
  end.

Definition _compute_web_features (customer_id : string) (now : datetime)
    : M Features :=
  let thirty_days_ago := now - timedelta 30 in
  events <- query (fun d =>
    filter (fun e => web_customer_id e = Some customer_id
                     /\ thirty_days_ago <= web_timestamp e)
           (web_analytics_events d)) ;;
  match events with
  | [] =>
    ret (dict [
      ("web_sessions_30d", VInt 0);
      ("total_engagement_minutes_30d", VFloat 0);
      ("days_since_last_web_activity", VInt 999)])
  | e0 :: rest =>
    let sessions : gset string := list_to_set (map web_session_id events) in
    let engagement_ms :=
      sum_int (map (fun e => or_int (web_engagement_time_msec e) 0)
                   events) in
    let last_activity :=
      max_int (web_timestamp e0) (map web_timestamp rest) in
    ret (dict [
      ("web_sessions_30d", VInt (Z.of_nat (size sessions)));
      ("total_engagement_minutes_30d",
         VFloat (inject_Z engagement_ms / 60000)%Q);
      ("days_since_last_web_activity",
         VInt (timedelta_days (now - last_activity)))])
  end.

(** Rows with equal timestamps come back in storage order. *)
Definition _compute_billing_features (customer_id : string)
    (now : datetime) : M Features :=
  let ninety_days_ago := now - timedelta 90 in
  events <- query (fun d =>
    sort_desc Z.ltb bill_timestamp
      (filter (fun e => bill_customer_id e = customer_id
                        /\ ninety_days_ago <= bill_timestamp e)
              (billing_events d))) ;;
  match events with
  | [] =>
    ret (dict [
      ("payment_failures_90d", VInt 0);
      ("disputes_90d", VInt 0);
      ("days_overdue", VInt 0);
      ("account_balance", VFloat 0)])
  | latest_event :: _ =>
    let failures :=
      filter (fun e => bill_event_type e = "payment_failed") events in
    let disputes :=
      filter (fun e => bill_event_type e = "dispute_opened") events in
    ret (dict [
      ("payment_failures_90d", VInt (len failures));
      ("disputes_90d", VInt (len disputes));
      ("days_overdue", VInt (or_int (bill_days_overdue latest_event) 0));
      ("account_balance",
         VFloat (or_float (bill_account_balance latest_event) 0))])
  end.

Definition _compute_behavioral_features (customer_id : string)
    (customer : Customer) (now : datetime) : M Features :=
  stb_features <- _compute_stb_features customer_id now ;;
  web_features <- _compute_web_features customer_id now ;;
  viewing_hours <- get_number stb_features "total_viewing_hours_30d" ;;
  web_sessions <- get_number web_features "web_sessions_30d" ;;
  let engagement_score :=
    (py_min (viewing_hours / 100) 1 * (1 # 2)
     + py_min (web_sessions / 30) 1 * (1 # 2))%Q in
  service_features <- _compute_service_features customer_id now ;;
  billing_features <- _compute_billing_features customer_id now ;;
  unresolved_calls <- get_number service_features "unresolved_calls_30d" ;;
  payment_failures <- get_number billing_features "payment_failures_90d" ;;
  days_overdue <- get_number billing_features "days_overdue" ;;
  let risk_score :=
    (py_min (unresolved_calls / 5) 1 * (3 # 10)
     + py_min (payment_failures / 3) 1 * (4 # 10)
     + py_min (days_overdue / 30) 1 * (3 # 10))%Q in
  ret (dict [("engagement_score", VFloat engagement_score);
             ("risk_score", VFloat risk_score)]).

Definition _compute_features (customer_id : string) : M Features :=
  now <- utcnow ;;
  customer <- query (fun d => customers d !! customer_id) ;;
  match customer with
  | None =>
    logger WARNING ("Customer not found: " +:+ customer_id) None ;;;
    ret ∅
  | Some customer =>
    let features : Features := ∅ in
    f <- _compute_demographic_features customer ;;
    let features := update features f in
    f <- _compute_service_features customer_id now ;;
    let features := update features f in
    f <- _compute_stb_features customer_id now ;;
    let features := update features f in
    f <- _compute_web_features customer_id now ;;
    let features := update features f in
    f <- _compute_billing_features customer_id now ;;
    let features := update features f in
    f <- _compute_behavioral_features customer_id customer now ;;
    let features := update features f in
    ret features
  end.

(** The cached value is the JSON text of the dictionary; [json.loads]
    gives back the dictionary that [json.dumps] was given.  An empty
    dictionary is cached as the non-empty text of two braces, which is
    truthy. *)
Definition get_customer_features (customer_id : string)
    (use_cache : bool) : M Features :=
  cached <- (if use_cache
             then redis_get ("features:" +:+ customer_id)
             else ret None) ;;
  match cached with
  | Some features => ret features
  | None =>
    features <- _compute_features customer_id ;;
    (if use_cache
     then redis_setex ("features:" +:+ customer_id) ttl_seconds features
     else ret tt) ;;;
    ret features
  end.

Definition update_customer_features (customer_id : string) : M unit :=
  features <- _compute_features customer_id ;;
  redis_setex ("features:" +:+ customer_id) ttl_seconds features.

(** [{cid: self.get_customer_features(cid) for cid in customer_ids}]. *)
Fixpoint get_batch_features_from (acc : gmap string Features)
    (customer_ids : list string) : M (gmap string Features) :=
  match customer_ids with
  | [] => ret acc
  | cid :: customer_ids' =>
    features <- get_customer_features cid true ;;
    get_batch_features_from (<[cid := features]> acc) customer_ids'
  end.

Definition get_batch_features (customer_ids : list string)
    : M (gmap string Features) :=
  get_batch_features_from ∅ customer_ids.
End FeatureStore.

(** The dictionaries the windowed aggregators return, by their values. *)
Abbreviation service_dict a b c d e :=
  (dict [("service_calls_30d", VInt a); ("avg_sentiment_30d", VFloat b);
         ("unresolved_calls_30d", VInt c);
         ("avg_call_duration_30d", VFloat d);
         ("days_since_last_call", VInt e)]).

Abbreviation stb_dict a b c d :=
  (dict [("stb_errors_30d", VInt a); ("avg_network_quality_30d", VFloat b);
         ("total_buffer_events_30d", VInt c);
         ("total_viewing_hours_30d", VFloat d)]).

Abbreviation web_dict a b c :=
  (dict [("web_sessions_30d", VInt a);
         ("total_engagement_minutes_30d", VFloat b);
         ("days_since_last_web_activity", VInt c)]).

Abbreviation billing_dict a b c d :=
  (dict [("payment_failures_90d", VInt a); ("disputes_90d", VInt b);
         ("days_overdue", VInt c); ("account_balance", VFloat d)]).

Abbreviation behavioral_dict e r :=
  (dict [("engagement_score", VFloat e); ("risk_score", VFloat r)]).

(** ** The action recommender ([action_engine/action_recommender.py]) *)

(** [f'{x:.0f}']: the nearest integer, ties to the even one, and a minus
    sign kept on a negative number that rounds to zero. *)
Definition round_half_even (x : Q) : Z :=
  let n := Qnum x in
  let d := Z.pos (Qden x) in
  let q := n / d in
  let r2 := 2 * (n mod d) in
  if r2 <? d then q
  else if d <? r2 then q + 1
  else if Z.even q then q else q + 1.

Definition format_0f (x : Q) : string :=
  let r := round_half_even x in
  if (r =? 0) && (Qnum x <? 0) then "-0" else pretty r.

(** A recommended action: the dictionaries the recommender builds all have
    these six keys. *)
Record Action : Type := {
  action_type : string;
  priority : string;
  description : string;
  predicted_impact : Q;
  estimated_cost : Q;
  offer_details : gmap string value
}.

(** Truthiness of an optional [float] column. *)
Definition truthy_float (x : option Q) : option Q :=
  match x with
  | Some v => if Qeq_bool v 0 then None else Some v
  | None => None
  end.

Definition Qlt_bool (a b : Q) : bool := negb (Qle_bool b a).

Definition _get_critical_actions (customer : Customer) (churn_prob : Q)
    : list Action :=
  let actions := [] in
  let actions := actions ++ [
    {| action_type := "service_call";
       priority := "high";
       description := "Immediate proactive service call to address concerns";
       predicted_impact := 25 # 100;
       estimated_cost := 50;
       offer_details :=
         dict [("reason", VStr "Critical churn risk detected");
               ("escalation", VBool true)] |}] in
  let actions :=
    match truthy_float (monthly_recurring_revenue customer) with
    | Some mrr =>
      let discount_pct := py_min 25 (churn_prob * 30) in
      actions ++ [
        {| action_type := "discount";
           priority := "high";
           description := format_0f discount_pct +:+ "% discount for 6 months";
           predicted_impact := 30 # 100;
           estimated_cost := (mrr * discount_pct / 100 * 6)%Q;
           offer_details :=
             dict [("discount_percent", VFloat discount_pct);
                   ("duration_months", VInt 6);
                   ("auto_apply", VBool true)] |}]
    | None => actions
    end in
  let actions :=
    match truthy_float (lifetime_value customer) with
    | Some ltv =>
      if Qlt_bool 1000 ltv then
        actions ++ [
          {| action_type := "loyalty_reward";
             priority := "medium";
             description :=
               "Exclusive loyalty reward for long-term customers";
             predicted_impact := 15 # 100;
             estimated_cost := 100;
             offer_details :=
               dict [("reward_type", VStr "gift_card");
                     ("amount", VInt 100)] |}]
      else actions
    | None => actions
    end in
  actions.

Definition _get_high_risk_actions (customer : Customer) (churn_prob : Q)
    : list Action :=
  let actions := [] in
  let actions := actions ++ [
    {| action_type := "service_call";
       priority := "medium";
       description := "Proactive service check-in";
       predicted_impact := 20 # 100;
       estimated_cost := 30;
       offer_details :=
         dict [("reason", VStr "High churn risk");
               ("escalation", VBool false)] |}] in
  let actions :=
    match truthy_float (monthly_recurring_revenue customer) with
    | Some mrr =>
      let discount_pct := py_min 15 (churn_prob * 20) in
      actions ++ [
        {| action_type := "discount";
           priority := "high";
           description := format_0f discount_pct +:+ "% discount for 3 months";
           predicted_impact := 25 # 100;
           estimated_cost := (mrr * discount_pct / 100 * 3)%Q;
           offer_details :=
             dict [("discount_percent", VFloat discount_pct);
                   ("duration_months", VInt 3)] |}]
    | None => actions
    end in
  let actions :=
    if bool_decide (customer_segment customer
                    ∈ ["residential"; "small_business"]) then
      actions ++ [
        {| action_type := "upgrade";
           priority := "medium";
           description := "Upgrade to premium plan with special pricing";
           predicted_impact := 18 # 100;
           estimated_cost := 0;
           offer_details :=
             dict [("upgrade_type", VStr "premium");
                   ("special_pricing", VBool true)] |}]
    else actions in
  actions.

Definition _get_medium_risk_actions (customer : Customer) (churn_prob : Q)
    : list Action :=
  let actions := [] in
  let actions :=
    match truthy_float (monthly_recurring_revenue customer) with
    | Some mrr =>
      let discount_pct := py_min 10 (churn_prob * 15) in
      actions ++ [
        {| action_type := "discount";
           priority := "medium";
           description := format_0f discount_pct +:+ "% discount for 2 months";
           predicted_impact := 15 # 100;
           estimated_cost := (mrr * discount_pct / 100 * 2)%Q;
           offer_details :=
             dict [("discount_percent", VFloat discount_pct);
                   ("duration_months", VInt 2)] |}]
    | None => actions
    end in
  let actions := actions ++ [
    {| action_type := "custom_offer";
       priority := "low";
       description := "Personalized retention email with special offer";
       predicted_impact := 10 # 100;
       estimated_cost := 5;
       offer_details :=
         dict [("channel", VStr "email"); ("personalized", VBool true)] |}] in
  actions.

Definition _get_low_risk_actions (customer : Customer) : list Action :=
  [ {| action_type := "custom_offer";
       priority := "low";
       description := "Engagement email with tips and benefits";
       predicted_impact := 5 # 100;
       estimated_cost := 2;
       offer_details :=
         dict [("channel", VStr "email"); ("type", VStr "engagement")] |} ].

(** [actions[:n]]. *)
Definition slice_to {A} (n : nat) (l : list A) : list A := take n l.

Definition recommend_actions (customer_id : string) (churn_probability : Q)
    (risk_level : string) : M (list Action) :=
  customer <- query (fun d => customers d !! customer_id) ;;
  match customer with
  | None => ret []
  | Some customer =>
    let actions := [] in
    let actions :=
      if String.eqb risk_level "critical" then
        actions ++ _get_critical_actions customer churn_probability
      else if String.eqb risk_level "high" then
        actions ++ _get_high_risk_actions customer churn_probability
      else if String.eqb risk_level "medium" then
        actions ++ _get_medium_risk_actions customer churn_probability
      else
        actions ++ _get_low_risk_actions customer in
    let actions := sort_desc Qlt_bool predicted_impact actions in
    ret (slice_to 3 actions)
  end.

(** The row of an action once it is executed at [now]. *)
Definition executed (action : RetentionAction) (now : datetime)
    : RetentionAction :=
  {| ra_customer_id := ra_customer_id action;
     ra_action_type := ra_action_type action;
     ra_executed_at := Some now;
     ra_status := "executed";
     ra_predicted_impact := ra_predicted_impact action |}.

Definition set_retention_actions (actions : gmap string RetentionAction)
    (d : DB) : DB :=
  {| customers := customers d;
     customer_service_interactions := customer_service_interactions d;
     stb_telemetry := stb_telemetry d;
     web_analytics_events := web_analytics_events d;
     billing_events := billing_events d;
     retention_actions := actions |}.

(** [action.status = 'executed'; action.executed_at = now; db.commit()]. *)
Definition mark_executed (action_id : string) (action : RetentionAction)
    (now : datetime) : M unit :=
  fun w =>
    (Ok tt,
     set_db (set_retention_actions
               (<[action_id := executed action now]>
                  (retention_actions (db w)))
               (db w)) w).

Section ActionRecommender.
(** The store's reading of a text as a UUID, in canonical form; [None]
    when the text is not one. *)
Variable to_uuid : string -> option string.

(** [ActionRecommender.execute_action].  [action_id] is a [UUID] column,
    the key of [retention_actions] in canonical form: the query compares it
    with the caller's text, and raises when that text is not a UUID. *)
Definition execute_action (action_id : string) (customer_id : string)
    : M bool :=
  match to_uuid action_id with
  | None => raise DataError
  | Some uuid =>
    action <- query (fun d =>
      match retention_actions d !! uuid with
      | Some a =>
        if String.eqb (ra_customer_id a) customer_id then Some a else None
      | None => None
      end) ;;
    match action with
    | None =>
      logger ERROR ("Action not found: " +:+ action_id) None ;;;
      ret false
    | Some action =>
      if negb (String.eqb (ra_status action) "pending") then
        logger WARNING ("Action already executed: " +:+ action_id) None ;;;
        ret false
      else
        executed_at <- utcnow ;;
        mark_executed uuid action executed_at ;;;
        logger INFO ("Executed action " +:+ action_id +:+ " for customer "
                     +:+ customer_id) None ;;;
        ret true
    end
  end.
End ActionRecommender.

(** The records [execute_action] logs. *)
Definition not_found_record (action_id : string) : LogRecord :=
  {| log_level := ERROR;
     log_message := "Action not found: " +:+ action_id;
     log_exc := None |}.

Definition already_executed_record (action_id : string) : LogRecord :=
  {| log_level := WARNING;
     log_message := "Action already executed: " +:+ action_id;
     log_exc := None |}.

Definition executed_record (action_id customer_id : string) : LogRecord :=
  {| log_level := INFO;
     log_message := "Executed action " +:+ action_id +:+ " for customer "
                    +:+ customer_id;
     log_exc := None |}.

(** ** Event ingestion ([ingestion/stream_processor.py]) *)

(** A decoded JSON value.  Arrays and objects are opaque apart from their
    truthiness. *)
Inductive jval : Type :=
| JNull
| JBool (b : bool)
| JInt (n : Z)
| JFloat (x : Q)
| JStr (s : string)
| JCompound (nonempty : bool).

Abbreviation Message := (gmap string jval).

(** [event[key]]. *)
Definition subscript (event : Message) (key : string) : M jval :=
  match event !! key with
  | Some v => ret v
  | None => raise (KeyError key)
  end.

(** [event.get(key)] and [event.get(key, default)]. *)
Definition get (event : Message) (key : string) : jval :=
  default JNull (event !! key).

Definition get_default (event : Message) (key : string) (d : jval) : jval :=
  default d (event !! key).

(** Python truthiness of a JSON value. *)
Definition truthy (v : jval) : bool :=
  match v with
  | JNull => false
  | JBool b => b
  | JInt n => negb (n =? 0)
  | JFloat x => negb (Qeq_bool x 0)
  | JStr s => negb (String.eqb s EmptyString)
  | JCompound nonempty => nonempty
  end.

(** [s.replace(c, by)] for a one-character pattern. *)
Fixpoint replace_char (c : ascii) (by_ : string) (s : string) : string :=
  match s with
  | EmptyString => EmptyString
  | String a s' =>
    if Ascii.eqb a c then by_ +:+ replace_char c by_ s'
    else String a (replace_char c by_ s')
  end.

(** [needle in hay] on strings. *)
Definition contains (needle hay : string) : bool :=
  match String.index 0 needle hay with
  | Some _ => true
  | None => false
  end.

(** What the store accepts for a column of each type.  A value of another
    JSON type is taken to be rejected when the row is flushed.  A
    [String(n)] column refuses a text of more than [n] characters, a [Text]
    column takes any text, an [Integer] column refuses a number outside the
    32-bit range, and a [Float] column refuses an integer too large for a
    double (a JSON float already is one); floats are read as rationals, so
    the value is kept as it is. *)
Definition bind_string (n : nat) (v : jval) : M (option string) :=
  match v with
  | JNull => ret None
  | JStr s =>
    if (String.length s <=? n)%nat then ret (Some s) else raise DataError
  | _ => raise DataError
  end.

Definition bind_text (v : jval) : M (option string) :=
  match v with
  | JNull => ret None
  | JStr s => ret (Some s)
  | _ => raise DataError
  end.

Definition int32 (n : Z) : bool :=
  (-2147483648 <=? n) && (n <=? 2147483647).

Definition bind_integer (v : jval) : M (option Z) :=
  match v with
  | JNull => ret None
  | JInt n => if int32 n then ret (Some n) else raise DataError
  | _ => raise DataError
  end.

(** The integers that round to a finite double are those of absolute
    value below [2^1024 - 2^970]. *)
Definition double_range (n : Z) : bool :=
  Z.abs n <? 2 ^ 1024 - 2 ^ 970.

Definition bind_float (v : jval) : M (option Q) :=
  match v with
  | JNull => ret None
  | JInt n =>
    if double_range n then ret (Some (inject_Z n)) else raise DataError
  | JFloat x => ret (Some x)
  | _ => raise DataError
  end.

(** A [UUID] column.  [to_uuid] is the store's reading of a text as a
    UUID, in canonical form; [None] when the text is not one. *)
Definition bind_uuid (to_uuid : string -> option string) (v : jval)
    : M (option string) :=
  match v with
  | JNull => ret None
  | JStr s =>
    match to_uuid s with
    | Some u => ret (Some u)
    | None => raise DataError
    end
  | _ => raise DataError
  end.

(** A [nullable=False] column. *)
Definition not_null {A} (x : option A) : M A :=
  match x with
  | Some a => ret a
  | None => raise IntegrityError
  end.

(** A column with [default=0]: the mapper leaves a [None] attribute out of
    the INSERT, so the default applies. *)
Definition default_zero (x : option Z) : option Z :=
  match x with
  | Some n => Some n
  | None => Some 0
  end.

(** A unique column. *)
Definition unique (taken : bool) : M unit :=
  if taken then raise IntegrityError else ret tt.

(** [self.db.rollback()]: nothing reaches the store before a commit
    succeeds, so there is nothing to undo in the model. *)
Definition rollback : M unit := ret tt.

Section StreamProcessor.
Variable ttl_seconds : Z.

(** [datetime.fromisoformat]: [None] is a [ValueError]. *)
Variable fromisoformat : string -> option datetime.

(** The store's reading of a text as a UUID. *)
Variable to_uuid : string -> option string.

(** [datetime.fromisoformat(v.replace('Z', '+00:00'))]: only a [str] has
    [replace]. *)
Definition parse_timestamp (v : jval) : M datetime :=
  match v with
  | JStr s =>
    match fromisoformat (replace_char "Z"%char "+00:00" s) with
    | Some t => ret t
    | None => raise ValueError
    end
  | _ => raise AttributeError
  end.

(** [db.add(interaction); db.commit()].  The primary key is either the
    [interaction_id] of the event, a UUID, or a generated one ([None] in
    the row), taken to be fresh. *)
Definition commit_customer_service_interaction
    (interaction_id customer_id : jval) (timestamp : datetime)
    (channel duration_seconds reason_category resolution_status agent_id
     sentiment_score transcript_text transfer_count : jval) : M unit :=
  interaction_id <- bind_uuid to_uuid interaction_id ;;
  customer_id <- bind_string 50 customer_id ;;
  channel <- bind_string 20 channel ;;
  duration_seconds <- bind_integer duration_seconds ;;
  reason_category <- bind_string 100 reason_category ;;
  resolution_status <- bind_string 20 resolution_status ;;
  agent_id <- bind_string 50 agent_id ;;
  sentiment_score <- bind_float sentiment_score ;;
  transcript_text <- bind_text transcript_text ;;
  transfer_count <- bind_integer transfer_count ;;
  customer_id <- not_null customer_id ;;
  channel <- not_null channel ;;
  rows <- query customer_service_interactions ;;
  unique (match interaction_id with
          | Some _ =>
            bool_decide (interaction_id ∈ map csi_interaction_id rows)
          | None => false
          end) ;;;
  fun w =>
    let d := db w in
    (Ok tt,
     set_db {| customers := customers d;
               customer_service_interactions :=
                 customer_service_interactions d ++ [
                   {| csi_interaction_id := interaction_id;
                      csi_customer_id := customer_id;
                      csi_timestamp := timestamp;
                      csi_channel := channel;
                      csi_duration_seconds := duration_seconds;
                      csi_reason_category := reason_category;
                      csi_resolution_status := resolution_status;
                      csi_agent_id := agent_id;
                      csi_sentiment_score := sentiment_score;
                      csi_transcript_text := transcript_text;
                      csi_transfer_count := default_zero transfer_count |}];
               stb_telemetry := stb_telemetry d;
               web_analytics_events := web_analytics_events d;
               billing_events := billing_events d;
               retention_actions := retention_actions d |} w).

Definition _process_customer_service_event (event : Message) : M unit :=
  try_except
    (let interaction_id := get event "interaction_id" in
     customer_id <- subscript event "customer_id" ;;
     timestamp <- subscript event "timestamp" ;;
     timestamp <- parse_timestamp timestamp ;;
     commit_customer_service_interaction
       interaction_id customer_id timestamp
       (get event "channel") (get event "duration_seconds")
       (get event "reason_category") (get event "resolution_status")
       (get event "agent_id") (get event "sentiment_score")
       (get event "transcript_text")
       (get_default event "transfer_count" (JInt 0)) ;;;
     logger DEBUG "Saved customer service interaction" None)
    (fun e =>
       rollback ;;;
       logger ERROR "Error saving customer service interaction: " (Some e) ;;;
       raise e).

Definition commit_stb_telemetry (device_id customer_id : jval)
    (timestamp : datetime)
    (event_type channel_id content_id viewing_duration_seconds error_code
     buffer_events network_quality : jval) : M unit :=
  device_id <- bind_string 100 device_id ;;
  customer_id <- bind_string 50 customer_id ;;
  event_type <- bind_string 20 event_type ;;
  channel_id <- bind_string 50 channel_id ;;
  content_id <- bind_string 100 content_id ;;
  viewing_duration_seconds <- bind_integer viewing_duration_seconds ;;
  error_code <- bind_string 50 error_code ;;
  buffer_events <- bind_integer buffer_events ;;
  network_quality <- bind_float network_quality ;;
  device_id <- not_null device_id ;;
  customer_id <- not_null customer_id ;;
  event_type <- not_null event_type ;;
  fun w =>
    let d := db w in
    (Ok tt,
     set_db {| customers := customers d;
               customer_service_interactions :=
                 customer_service_interactions d;
               stb_telemetry :=
                 stb_telemetry d ++ [
                   {| stb_device_id := device_id;
                      stb_customer_id := customer_id;
                      stb_timestamp := timestamp;
                      stb_event_type := event_type;
                      stb_channel_id := channel_id;
                      stb_content_id := content_id;
                      stb_viewing_duration_seconds :=
                        viewing_duration_seconds;
                      stb_error_code := error_code;
                      stb_buffer_events := default_zero buffer_events;
                      stb_network_quality := network_quality |}];
               web_analytics_events := web_analytics_events d;
               billing_events := billing_events d;
               retention_actions := retention_actions d |} w).

Definition _process_stb_telemetry (event : Message) : M unit :=
  try_except
    (device_id <- subscript event "device_id" ;;
     customer_id <- subscript event "customer_id" ;;
     timestamp <- subscript event "timestamp" ;;
     timestamp <- parse_timestamp timestamp ;;
     commit_stb_telemetry
       device_id customer_id timestamp
       (get event "event_type") (get event "channel_id")
       (get event "content_id") (get event "viewing_duration_seconds")
       (get event "error_code")
       (get_default event "buffer_events" (JInt 0))
       (get event "network_quality") ;;;
     logger DEBUG "Saved STB telemetry" None)
    (fun e =>
       rollback ;;;
       logger ERROR "Error saving STB telemetry: " (Some e) ;;;
       raise e).

Definition commit_web_analytics_event (customer_id session_id : jval)
    (timestamp : datetime)
    (event_name page_url device_category app_version engagement_time_msec
     user_agent : jval) : M unit :=
  customer_id <- bind_string 50 customer_id ;;
  session_id <- bind_string 100 session_id ;;
  event_name <- bind_string 100 event_name ;;
  page_url <- bind_string 500 page_url ;;
  device_category <- bind_string 20 device_category ;;
  app_version <- bind_string 20 app_version ;;
  engagement_time_msec <- bind_integer engagement_time_msec ;;
  user_agent <- bind_text user_agent ;;
  session_id <- not_null session_id ;;
  event_name <- not_null event_name ;;
  fun w =>
    let d := db w in
    (Ok tt,
     set_db {| customers := customers d;
               customer_service_interactions :=
                 customer_service_interactions d;
               stb_telemetry := stb_telemetry d;
               web_analytics_events :=
                 web_analytics_events d ++ [
                   {| web_customer_id := customer_id;
                      web_session_id := session_id;
                      web_timestamp := timestamp;
                      web_event_name := event_name;
                      web_page_url := page_url;
                      web_device_category := device_category;
                      web_app_version := app_version;
                      web_engagement_time_msec := engagement_time_msec;
                      web_user_agent := user_agent |}];
               billing_events := billing_events d;
               retention_actions := retention_actions d |} w).

Definition _process_web_analytics (event : Message) : M unit :=
  try_except
    (let customer_id := get event "customer_id" in
     session_id <- subscript event "session_id" ;;
     timestamp <- subscript event "timestamp" ;;
     timestamp <- parse_timestamp timestamp ;;
     commit_web_analytics_event
       customer_id session_id timestamp
       (get event "event_name") (get event "page_url")
       (get event "device_category") (get event "app_version")
       (get event "engagement_time_msec") (get event "user_agent") ;;;
     logger DEBUG "Saved web analytics event" None)
    (fun e =>
       rollback ;;;
       logger ERROR "Error saving web analytics event: " (Some e) ;;;
       raise e).

Definition commit_billing_event (event_type customer_id : jval)
    (timestamp : datetime)
    (transaction_id amount payment_method billing_cycle_day
     account_balance days_overdue : jval) : M unit :=
  event_type <- bind_string 30 event_type ;;
  customer_id <- bind_string 50 customer_id ;;
  transaction_id <- bind_string 100 transaction_id ;;
  amount <- bind_float amount ;;
  payment_method <- bind_string 20 payment_method ;;
  billing_cycle_day <- bind_integer billing_cycle_day ;;
  account_balance <- bind_float account_balance ;;
  days_overdue <- bind_integer days_overdue ;;
  event_type <- not_null event_type ;;
  customer_id <- not_null customer_id ;;
  transaction_id <- not_null transaction_id ;;
  rows <- query billing_events ;;
  unique (bool_decide (transaction_id ∈ map bill_transaction_id rows)) ;;;
  fun w =>
    let d := db w in
    (Ok tt,
     set_db {| customers := customers d;
               customer_service_interactions :=
                 customer_service_interactions d;
               stb_telemetry := stb_telemetry d;
               web_analytics_events := web_analytics_events d;
               billing_events :=
                 billing_events d ++ [
                   {| bill_event_type := event_type;
                      bill_customer_id := customer_id;
                      bill_timestamp := timestamp;
                      bill_transaction_id := transaction_id;
                      bill_amount := amount;
                      bill_payment_method := payment_method;
                      bill_billing_cycle_day := billing_cycle_day;
                      bill_account_balance := account_balance;
                      bill_days_overdue := default_zero days_overdue |}];
               retention_actions := retention_actions d |} w).

Definition _process_billing_event (event : Message) : M unit :=
  try_except
    (event_type <- subscript event "event_type" ;;
     customer_id <- subscript event "customer_id" ;;
     timestamp <- subscript event "timestamp" ;;
     timestamp <- parse_timestamp timestamp ;;
     transaction_id <- subscript event "transaction_id" ;;
     commit_billing_event
       event_type customer_id timestamp transaction_id
       (get event "amount") (get event "payment_method")
       (get event "billing_cycle_day") (get event "account_balance")
       (get_default event "days_overdue" (JInt 0)) ;;;
     logger DEBUG "Saved billing event" None)
    (fun e =>
       rollback ;;;
       logger ERROR "Error saving billing event: " (Some e) ;;;
       raise e).

(** [StreamProcessor.process_event].  A truthy [customer_id] that is not
    a [str] cannot be looked up in the store ([DataError]). *)
Definition process_event (topic : string) (message : Message)
    (key : option string) : M unit :=
  try_except
    ((if contains "customer-service-events" topic then
        _process_customer_service_event message
      else if contains "stb-telemetry-events" topic then
        _process_stb_telemetry message
      else if contains "web-analytics-events" topic then
        _process_web_analytics message
      else if contains "billing-events" topic then
        _process_billing_event message
      else
        logger WARNING ("Unknown topic: " +:+ topic) None) ;;;
     let customer_id :=
       if truthy (get message "customer_id") then get message "customer_id"
       else match key with Some k => JStr k | None => JNull end in
     if truthy customer_id then
       match customer_id with
       | JStr customer_id => update_customer_features ttl_seconds customer_id
       | _ => raise DataError
       end
     else ret tt)
    (fun e =>
       logger ERROR ("Error processing event from " +:+ topic +:+ ": ")
              (Some e)).

(** ** The consumer loop ([ingestion/kafka_consumer.py]) *)

Record ConsumerRecord : Type := {
  cr_topic : string;
  cr_value : Message;
  cr_key : option string
}.

(** [EventConsumer.consume]: the loop over delivered records.  The result
    is the position of the consumer after the loop; the consumer is
    created with [enable_auto_commit=True], so that position is what is
    acknowledged to the broker, whatever the callback did. *)
Fixpoint consume (callback : string -> Message -> option string -> M unit)
    (records : list ConsumerRecord) (position : nat) : M nat :=
  match records with
  | [] => ret position
  | message :: records' =>
    try_except
      (callback (cr_topic message) (cr_value message) (cr_key message))
      (fun e =>
         logger ERROR ("Error processing message from "
                       +:+ cr_topic message +:+ ": ") (Some e)) ;;;
    consume callback records' (S position)
  end.
End StreamProcessor.

(** The fields whose absence makes the handler of a topic raise: the keys it
    subscripts and the keys it binds to a [nullable=False] column. *)
Definition enforced_fields (topic : string) : list string :=
  if contains "customer-service-events" topic then
    ["customer_id"; "timestamp"; "channel"]
  else if contains "stb-telemetry-events" topic then
    ["device_id"; "customer_id"; "timestamp"; "event_type"]
  else if contains "web-analytics-events" topic then
    ["session_id"; "timestamp"; "event_name"]
  else if contains "billing-events" topic then
    ["event_type"; "customer_id"; "timestamp"; "transaction_id"]
  else [].

(** A timestamp that [parse_timestamp] does not accept. *)
Definition unparsable (fromisoformat : string -> option datetime)
    (v : jval) : Prop :=
  match v with
  | JStr s => fromisoformat (replace_char "Z"%char "+00:00" s) = None
  | _ => True
  end.

(** An event of a handled topic with an enforced field absent or null, or
    with a timestamp that does not parse. *)
Definition invalid_event (fromisoformat : string -> option datetime)
    (topic : string) (message : Message) : Prop :=
  (exists k, k ∈ enforced_fields topic /\ get message k = JNull)
  \/ (enforced_fields topic <> []
      /\ unparsable fromisoformat (get message "timestamp")).

(** [rejected_by handler message event]: the handler raises on the event
    after logging the error, and changes nothing else. *)
Definition rejected_by {A} (handler : Message -> M A) (message : string)
    (event : Message) : Prop :=
  forall w, exists e,
    handler event w
    = (Raise e,
       add_log {| log_level := ERROR; log_message := message;
                  log_exc := Some e |} w).

(** The record [process_event] logs when it swallows an exception. *)
Definition process_event_error (topic : string) (e : exn) : LogRecord :=
  {| log_level := ERROR;
     log_message := "Error processing event from " +:+ topic +:+ ": ";
     log_exc := Some e |}.

(** ** The prediction API ([api/main.py]) *)

Record RiskFactor : Type := {
  factor : string;
  factor_value : option value;
  impact : string
}.

Record RiskFactors : Type := {
  top_factors : list RiskFactor;
  total_factors : Z
}.

Record ChurnPredictionResponse : Type := {
  resp_customer_id : string;
  resp_churn_probability : Q;
  resp_risk_level : string;
  resp_prediction_timestamp : datetime;
  resp_model_version : string;
  resp_top_risk_factors : RiskFactors;
  resp_recommended_actions : list Action
}.

Record BatchPredictionResponse : Type := {
  predictions : list ChurnPredictionResponse;
  total_processed : Z
}.

Definition _extract_risk_factors (features : Features)
    (churn_probability : Q) : M RiskFactors :=
  let risk_factors := [] in
  payment_failures <- get_number features "payment_failures_90d" ;;
  let risk_factors :=
    if Qlt_bool 0 payment_failures then
      risk_factors ++ [
        {| factor := "payment_failures";
           factor_value := features !! "payment_failures_90d";
           impact := "high" |}]
    else risk_factors in
  days_overdue <- get_number features "days_overdue" ;;
  let risk_factors :=
    if Qlt_bool 0 days_overdue then
      risk_factors ++ [
        {| factor := "days_overdue";
           factor_value := features !! "days_overdue";
           impact := "high" |}]
    else risk_factors in
  unresolved_calls <- get_number features "unresolved_calls_30d" ;;
  let risk_factors :=
    if Qlt_bool 2 unresolved_calls then
      risk_factors ++ [
        {| factor := "unresolved_service_calls";
           factor_value := features !! "unresolved_calls_30d";
           impact := "medium" |}]
    else risk_factors in
  avg_sentiment <- get_number features "avg_sentiment_30d" ;;
  let risk_factors :=
    if Qlt_bool avg_sentiment (- (3 # 10)) then
      risk_factors ++ [
        {| factor := "negative_sentiment";
           factor_value := features !! "avg_sentiment_30d";
           impact := "medium" |}]
    else risk_factors in
  ret {| top_factors := slice_to 5 risk_factors;
         total_factors := len risk_factors |}.

Section Api.
Variable ttl_seconds : Z.
Variable thresholds : RiskThresholds.

(** The module-level [model], [None] until one is loaded. *)
Variable model : option Model.

(** [model_loader.predict(model, features)] inside a handler. *)
Definition model_loader_predict (m : Model) (features : Features)
    : M Prediction :=
  match predict thresholds m features with
  | Some r => ret r
  | None => raise ModelError
  end.

(** [ChurnPredictionResponse(...)]: the arguments are evaluated, then the
    response model checks that [churn_probability] lies in [0, 1]. *)
Definition make_response (customer_id : string) (r : Prediction)
    (top_risk_factors : RiskFactors) (recommended_actions : list Action)
    : M ChurnPredictionResponse :=
  now <- utcnow ;;
  if Qle_bool 0 (churn_probability r) && Qle_bool (churn_probability r) 1
  then
    ret {| resp_customer_id := customer_id;
           resp_churn_probability := churn_probability r;
           resp_risk_level := risk_level r;
           resp_prediction_timestamp := now;
           resp_model_version := "1.0.0";
           resp_top_risk_factors := top_risk_factors;
           resp_recommended_actions := recommended_actions |}
  else raise ResponseValidationError.

(** [predict_churn].  The background task that stores the prediction
    runs after the response and is not part of the response path. *)
Definition predict_churn (customer_id : string)
    : M ChurnPredictionResponse :=
  match model with
  | None => raise (HTTPException 503)
  | Some m =>
    try_except
      (features <- get_customer_features ttl_seconds customer_id true ;;
       if bool_decide (features = ∅) then raise (HTTPException 404)
       else
         prediction_result <- model_loader_predict m features ;;
         top_risk_factors <-
           _extract_risk_factors features
             (churn_probability prediction_result) ;;
         recommended_actions <-
           recommend_actions customer_id
             (churn_probability prediction_result)
             (risk_level prediction_result) ;;
         make_response customer_id prediction_result top_risk_factors
           recommended_actions)
      (fun e =>
         match e with
         | HTTPException _ => raise e
         | _ =>
           logger ERROR "Error predicting churn: " (Some e) ;;;
           raise (HTTPException 500)
         end)
  end.

(** The loop of [predict_batch] over [request.customer_ids]. *)
Fixpoint predict_batch_loop (m : Model)
    (features_dict : gmap string Features)
    (predictions : list ChurnPredictionResponse)
    (customer_ids : list string) : M (list ChurnPredictionResponse) :=
  match customer_ids with
  | [] => ret predictions
  | customer_id :: customer_ids' =>
    match features_dict !! customer_id with
    | None => predict_batch_loop m features_dict predictions customer_ids'
    | Some features =>
      prediction_result <- model_loader_predict m features ;;
      top_risk_factors <-
        _extract_risk_factors features
          (churn_probability prediction_result) ;;
      recommended_actions <-
        recommend_actions customer_id
          (churn_probability prediction_result)
          (risk_level prediction_result) ;;
      response <-
        make_response customer_id prediction_result top_risk_factors
          recommended_actions ;;
      predict_batch_loop m features_dict (predictions ++ [response])
        customer_ids'
    end
  end.

(** [predict_batch].  The request model allows between 1 and 1000
    customer ids; a request outside that range is answered with status
    422 before the handler runs. *)
Definition predict_batch (customer_ids : list string)
    : M BatchPredictionResponse :=
  if negb ((1 <=? len customer_ids) && (len customer_ids <=? 1000)) then
    raise (HTTPException 422)
  else
    match model with
    | None => raise (HTTPException 503)
    | Some m =>
      try_except
        (features_dict <- get_batch_features ttl_seconds customer_ids ;;
         predictions <-
           predict_batch_loop m features_dict [] customer_ids ;;
         ret {| predictions := predictions;
                total_processed := len predictions |})
        (fun e =>
           logger ERROR "Error in batch prediction: " (Some e) ;;;
           raise (HTTPException 500))
    end.
End Api.

(** ** Example data *)

Definition example_customer : Customer :=
  {| account_created_date := Some 19000;
     customer_segment := "residential";
     age_range := None;
     household_size := Some 3;
     estimated_income := None;
     monthly_recurring_revenue := Some 100%Q;
     contract_end_date := None;
     auto_renew := Some true;
     lifetime_value := Some 1500%Q |}.

Definition example_world (d : DB) : World :=
  {| db := d; redis := ∅; clock := fun _ => 19723 * usec_per_day + 5;
     ticks := 0; log := [] |}.

(** A parser that knows one timestamp: midnight of 1 January 2024, UTC. *)
Definition example_fromisoformat (s : string) : option datetime :=
  if String.eqb s "2024-01-01T00:00:00+00:00"
  then Some 1704067200000000 else None.

(** A store that knows the customer ["C1"] and nothing else. *)
Definition example_db : DB :=
  {| customers := {[ "C1" := example_customer ]};
     customer_service_interactions := [];
     stb_telemetry := [];
     web_analytics_events := [];
     billing_events := [];
     retention_actions := ∅ |}.

(** A failed payment whose [days_overdue] is negative. *)
Definition negative_overdue_event : BillingEvent :=
  {| bill_event_type := "payment_failed";
     bill_customer_id := "C1";
     bill_timestamp := 1704067200000000;
     bill_transaction_id := "T1";
     bill_amount := None;
     bill_payment_method := None;
     bill_billing_cycle_day := None;
     bill_account_balance := None;
     bill_days_overdue := Some (-60) |}.

Definition negative_overdue_db : DB :=
  {| customers := {[ "C1" := example_customer ]};
     customer_service_interactions := [];
     stb_telemetry := [];
     web_analytics_events := [];
     billing_events := [negative_overdue_event];
     retention_actions := ∅ |}.

(** The feature [key] of an outcome of the feature computation. *)
Definition feature_of (r : result Features) (key : string) : option value :=
  match r with
  | Ok fv => fv !! key
  | Raise _ => None
  end.

(** A reader of UUIDs that knows the form of 32 hexadecimal digits in
    groups of 8, 4, 4, 4 and 12, in either case; the canonical form is the
    lower-case one. *)
Definition is_hex (c : ascii) : bool :=
  let n := nat_of_ascii c in
  ((48 <=? n) && (n <=? 57) || (65 <=? n) && (n <=? 70)
   || (97 <=? n) && (n <=? 102))%nat.

Definition lower (c : ascii) : ascii :=
  let n := nat_of_ascii c in
  if ((65 <=? n) && (n <=? 90))%nat then ascii_of_nat (n + 32) else c.

Fixpoint uuid_groups (groups : list nat) (s : string) {struct s}
    : option string :=
  match s with
  | EmptyString =>
    match groups with
    | [O] => Some EmptyString
    | _ => None
    end
  | String c s' =>
    match groups with
    | S n :: groups' =>
      if is_hex c
      then String (lower c) <$> uuid_groups (n :: groups') s'
      else None
    | O :: g :: groups' =>
      if Ascii.eqb c "-"
      then String c <$> uuid_groups (g :: groups') s'
      else None
    | _ => None
    end
  end.

Definition example_to_uuid (s : string) : option string :=
  uuid_groups [8; 4; 4; 4; 12]%nat s.

Definition example_action_id : string :=
  "7f1b2c3d-0000-4a5b-8c6d-0123456789ab".

(** A store with one pending action [example_action_id] for the customer
    ["C1"]. *)
Definition pending_action : RetentionAction :=
  {| ra_customer_id := "C1";
     ra_action_type := "discount_offer";
     ra_executed_at := None;
     ra_status := "pending";
     ra_predicted_impact := Some (3 # 10) |}.

Definition pending_action_db : DB :=
  set_retention_actions {[ example_action_id := pending_action ]} example_db.

(** A web-analytics event without [customer_id], and a customer-service
    event without [customer_id]. *)
Definition anonymous_web_event : Message :=
  list_to_map [("session_id", JStr "S1");
               ("timestamp", JStr "2024-01-01T00:00:00Z");
               ("event_name", JStr "page_view")].

Definition anonymous_service_event : Message :=
  list_to_map [("timestamp", JStr "2024-01-01T00:00:00Z");
               ("channel", JStr "phone");
               ("resolution_status", JStr "resolved")].

(** A billing event, as delivered by the bus, whose [days_overdue] is
    negative. *)
Definition negative_overdue_message : Message :=
  list_to_map [("event_type", JStr "payment_failed");
               ("customer_id", JStr "C1");
               ("timestamp", JStr "2024-01-01T00:00:00Z");
               ("transaction_id", JStr "T1");
               ("days_overdue", JInt (-60))].

(** ** Frames *)

(** [keeps proj m]: whatever [m] does, the part [proj] of the world is
    afterwards what it was before. *)
Definition keeps {X} (proj : World -> X) {A} (m : M A) : Prop :=
  forall w, proj (snd (m w)) = proj w.

(** The cache key of a customer. *)
Definition features_key (customer_id : string) : string :=
  "features:" +:+ customer_id.

(** The dictionary of the demographic snapshot, by its values. *)
Abbreviation demographic_dict segment age size income tenure mrr ltv renew
    contract :=
  (dict [("customer_segment", VStr segment); ("age_range", VStr age);
         ("household_size", VInt size); ("estimated_income", VStr income);
         ("tenure_days", VInt tenure);
         ("monthly_recurring_revenue", VFloat mrr);
         ("lifetime_value", VFloat ltv); ("auto_renew", VInt renew);
         ("days_until_contract_end", VInt contract)]).

(** The names of the features of a vector, in the order the code adds
    them. *)
Definition feature_names : list string :=
  ["customer_segment"; "age_range"; "household_size"; "estimated_income";
   "tenure_days"; "monthly_recurring_revenue"; "lifetime_value";
   "auto_renew"; "days_until_contract_end";
   "service_calls_30d"; "avg_sentiment_30d"; "unresolved_calls_30d";
   "avg_call_duration_30d"; "days_since_last_call";
   "stb_errors_30d"; "avg_network_quality_30d"; "total_buffer_events_30d";
   "total_viewing_hours_30d";
   "web_sessions_30d"; "total_engagement_minutes_30d";
   "days_since_last_web_activity";
   "payment_failures_90d"; "disputes_90d"; "days_overdue";
   "account_balance";
   "engagement_score"; "risk_score"].

(** ** What a feature vector depends on *)

(** [same_view c t w w']: at as-of time [t], the two worlds hold the same
    row for customer [c] and the same events of [c] inside the windows of
    the aggregators; they may differ in everything else (other customers,
    older events, actions, cache, log). *)
Definition same_view (c : string) (t : datetime) (w w' : World) : Prop :=
  clock_is t w /\ clock_is t w' /\
  customers (db w) !! c = customers (db w') !! c /\
  filter (fun i => csi_customer_id i = c /\ t - timedelta 30 <= csi_timestamp i)
         (customer_service_interactions (db w))
  = filter (fun i => csi_customer_id i = c
                     /\ t - timedelta 30 <= csi_timestamp i)
           (customer_service_interactions (db w')) /\
  filter (fun e => stb_customer_id e = c /\ t - timedelta 30 <= stb_timestamp e)
         (stb_telemetry (db w))
  = filter (fun e => stb_customer_id e = c
                     /\ t - timedelta 30 <= stb_timestamp e)
           (stb_telemetry (db w')) /\
  filter (fun e => web_customer_id e = Some c
                   /\ t - timedelta 30 <= web_timestamp e)
         (web_analytics_events (db w))
  = filter (fun e => web_customer_id e = Some c
                     /\ t - timedelta 30 <= web_timestamp e)
           (web_analytics_events (db w')) /\
  filter (fun e => bill_customer_id e = c
                   /\ t - timedelta 90 <= bill_timestamp e)
         (billing_events (db w))
  = filter (fun e => bill_customer_id e = c
                     /\ t - timedelta 90 <= bill_timestamp e)
           (billing_events (db w')).

(** [view_fn c t P m]: run in two worlds with the same view, [m] has the
    same outcome, keeps the views the same, and returns only values that
    satisfy [P]. *)
Definition view_fn (c : string) (t : datetime) {A} (P : A -> Prop)
    (m : M A) : Prop :=
  forall w w', same_view c t w w' ->
    fst (m w) = fst (m w')
    /\ same_view c t (snd (m w)) (snd (m w'))
    /\ forall a, fst (m w) = Ok a -> P a.

(** The store of [negative_overdue_db] with, in addition, a telemetry row of
    ["C1"] from long before the window, a billing event of another customer
    and a pending action. *)
Definition crowded_db : DB :=
  {| customers := {[ "C1" := example_customer ]};
     customer_service_interactions := [];
     stb_telemetry :=
       [ {| stb_device_id := "D1";
            stb_customer_id := "C1";
            stb_timestamp := 0;
            stb_event_type := "error";
            stb_channel_id := None;
            stb_content_id := None;
            stb_viewing_duration_seconds := Some 7200;
            stb_error_code := Some "E42";
            stb_buffer_events := None;
            stb_network_quality := Some 10%Q |} ];
     web_analytics_events := [];
     billing_events :=
       [ {| bill_event_type := "payment_failed";
            bill_customer_id := "C2";
            bill_timestamp := 1704067200000000;
            bill_transaction_id := "T2";
            bill_amount := None;
            bill_payment_method := None;
            bill_billing_cycle_day := None;
            bill_account_balance := None;
            bill_days_overdue := Some 10 |};
         negative_overdue_event ];
     retention_actions := {[ example_action_id := pending_action ]} |}.

(** ** Shape of a recommendation *)

(** The candidate actions of a risk level, before sorting and cutting. *)
Definition candidate_actions (customer : Customer) (churn_probability : Q)
    (risk_level : string) : list Action :=
  if String.eqb risk_level "critical" then
    _get_critical_actions customer churn_probability
  else if String.eqb risk_level "high" then
    _get_high_risk_actions customer churn_probability
  else if String.eqb risk_level "medium" then
    _get_medium_risk_actions customer churn_probability
  else _get_low_risk_actions customer.

(** An action with an impact in (0, 0.30] which, when it is a discount,
    offers between 0% and 25% for a probability that is not negative. *)
Definition bounded_action (churn_probability : Q) (a : Action) : Prop :=
  (0 < predicted_impact a)%Q /\ (predicted_impact a <= 30 # 100)%Q /\
  (action_type a = "discount" ->
   exists d,
     offer_details a !! "discount_percent" = Some (VFloat d)
     /\ (d <= 25)%Q
     /\ ((0 <= churn_probability)%Q -> (0 <= d)%Q)).

(** ** What ingestion stores *)

(** [stored d d']: the store [d'] is [d], or [d] with one more row at the
    end of one of the four event tables. *)
Inductive stored (d : DB) : DB -> Prop :=
| stored_nothing : stored d d
| stored_interaction r :
    stored d
      {| customers := customers d;
         customer_service_interactions :=
           customer_service_interactions d ++ [r];
         stb_telemetry := stb_telemetry d;
         web_analytics_events := web_analytics_events d;
         billing_events := billing_events d;
         retention_actions := retention_actions d |}
| stored_telemetry r :
    stored d
      {| customers := customers d;
         customer_service_interactions := customer_service_interactions d;
         stb_telemetry := stb_telemetry d ++ [r];
         web_analytics_events := web_analytics_events d;
         billing_events := billing_events d;
         retention_actions := retention_actions d |}
| stored_web_event r :
    stored d
      {| customers := customers d;
         customer_service_interactions := customer_service_interactions d;
         stb_telemetry := stb_telemetry d;
         web_analytics_events := web_analytics_events d ++ [r];
         billing_events := billing_events d;
         retention_actions := retention_actions d |}
| stored_billing_event r :
    stored d
      {| customers := customers d;
         customer_service_interactions := customer_service_interactions d;
         stb_telemetry := stb_telemetry d;
         web_analytics_events := web_analytics_events d;
         billing_events := billing_events d ++ [r];
         retention_actions := retention_actions d |}.

(** [stores_one m]: all that [m] does to the store is [stored]. *)
Definition stores_one {A} (m : M A) : Prop :=
  forall w, stored (db w) (db (snd (m w))).

(** ** Well-typed event fields *)

(** A JSON value that is null or of the type of its column and within
    its size, with the value the column then holds. *)
Inductive json_string (size : nat) : jval -> option string -> Prop :=
| json_string_null : json_string size JNull None
| json_string_str s :
    (String.length s <= size)%nat -> json_string size (JStr s) (Some s).




Definition add_stb_telemetry (r : STBTelemetry) (d : DB) : DB :=
  {| customers := customers d;
     customer_service_interactions := customer_service_interactions d;
     stb_telemetry := stb_telemetry d ++ [r];
     web_analytics_events := web_analytics_events d;
     billing_events := billing_events d;
     retention_actions := retention_actions d |}.

(** [world_blind m]: the outcome of [m] is the same in every world, and [m]
    leaves the world as it is. *)
Definition world_blind {A} (m : M A) : Prop :=
  exists r, forall w, m w = (r, w).

(** [inserts_row add m]: whether [m] adds a row to the store, and which,
    does not depend on the world; it does nothing else to the store. *)
Definition inserts_row {R A} (add : R -> DB -> DB) (m : M A) : Prop :=
  exists res : option R,
    forall w,
      db (snd (m w))
      = match res with Some row => add row (db w) | None => db w end.

(** A telemetry error event as delivered by the bus, and its row. *)
Definition example_telemetry_message : Message :=
  list_to_map [("device_id", JStr "D1");
               ("customer_id", JStr "C1");
               ("timestamp", JStr "2024-01-01T00:00:00Z");
               ("event_type", JStr "error");
               ("error_code", JStr "E42")].

Definition example_telemetry : STBTelemetry :=
  {| stb_device_id := "D1";
     stb_customer_id := "C1";
     stb_timestamp := 1704067200000000;
     stb_event_type := "error";
     stb_channel_id := None;
     stb_content_id := None;
     stb_viewing_duration_seconds := None;
     stb_error_code := Some "E42";
     stb_buffer_events := Some 0;
     stb_network_quality := None |}.

(** [grown d d']: [d'] has the customers and the retention actions of [d],
    and every event table of [d] is a prefix of the table in [d']. *)
Definition grown (d d' : DB) : Prop :=
  customers d' = customers d /\
  retention_actions d' = retention_actions d /\
  customer_service_interactions d `prefix_of` customer_service_interactions d'
  /\ stb_telemetry d `prefix_of` stb_telemetry d'
  /\ web_analytics_events d `prefix_of` web_analytics_events d'
  /\ billing_events d `prefix_of` billing_events d'.

(** ** Outcomes *)

(** [post P S m]: whatever the world, a value [m] returns satisfies [P] and
    an exception it raises satisfies [S]. *)
Definition post {A} (P : A -> Prop) (S : exn -> Prop) (m : M A) : Prop :=
  forall w,
    match fst (m w) with
    | Ok a => P a
    | Raise e => S e
    end.

(** The risk level [ModelLoader.predict] assigns to a probability. *)
Definition level_of (thresholds : RiskThresholds) (proba : Q) : string :=
  if Qge_bool proba (t_critical thresholds) then "critical"
  else if Qge_bool proba (t_high thresholds) then "high"
  else if Qge_bool proba (t_medium thresholds) then "medium"
  else "low".

(** A well-formed entry of a response for [customer_id]. *)
Definition response_for (thresholds : RiskThresholds) (customer_id : string)
    (r : ChurnPredictionResponse) : Prop :=
  resp_customer_id r = customer_id
  /\ (0 <= resp_churn_probability r)%Q /\ (resp_churn_probability r <= 1)%Q
  /\ resp_risk_level r = level_of thresholds (resp_churn_probability r)
  /\ (length (resp_recommended_actions r) <= 3)%nat
  /\ (length (top_factors (resp_top_risk_factors r)) <= 4)%nat
  /\ total_factors (resp_top_risk_factors r)
     = len (top_factors (resp_top_risk_factors r)).

(** The exceptions that are not an [HTTPException]. *)
Definition internal_error (e : exn) : Prop :=
  e = TypeError \/ e = ModelError \/ e = ResponseValidationError.

(** [numeric d key]: the value of [key] in [d], if any, is not a string. *)
Definition numeric (d : Features) (key : string) : Prop :=
  forall s, d !! key <> Some (VStr s).

(** A reported risk factor carries the value of its feature and one of the
    two impact levels. *)
Definition reported (f : RiskFactor) : Prop :=
  is_Some (factor_value f) /\ (impact f = "high" \/ impact f = "medium").

(** The billing events of a customer in the 90 days before [now], in
    storage order. *)
Definition billing_window (customer_id : string) (now : datetime) (d : DB)
    : list BillingEvent :=
  filter (fun e => bill_customer_id e = customer_id
                   /\ now - timedelta 90 <= bill_timestamp e)
         (billing_events d).

(** ** The active model ([ml/model_loader.py], [api/main.py]) *)

(** An entry of the [models] directory: its name, its modification time and
    what [pickle.load] makes of its content. *)
Record ModelFile : Type := {
  mf_name : string;
  st_mtime : Q;
  pickle_load : result Model
}.

(** [s.endswith(suffix)]. *)
Definition ends_with (suffix s : string) : bool :=
  (String.length suffix <=? String.length s)%nat
  && String.eqb
       (substring (String.length s - String.length suffix)
                  (String.length suffix) s)
       suffix.

(** [models_dir.glob("*.pkl")], in directory order. *)
Definition glob_pkl (entries : list ModelFile) : list ModelFile :=
  filter (fun p => ends_with ".pkl" (mf_name p) = true) entries.

(** [ModelLoader.load_model]. *)
Definition load_model (p : ModelFile) : M Model :=
  match pickle_load p with
  | Ok m => ret m
  | Raise e => raise e
  end.

(** [ModelLoader.get_active_model]; [models_dir] is [None] when the
    directory does not exist. *)
Definition get_active_model (models_dir : option (list ModelFile))
    : M (option Model) :=
  match models_dir with
  | None => ret None
  | Some entries =>
    let model_files := sort_desc Qlt_bool st_mtime (glob_pkl entries) in
    match model_files with
    | [] => ret None
    | latest_model :: _ =>
      logger INFO ("Loading model: " +:+ mf_name latest_model) None ;;;
      m <- load_model latest_model ;;
      ret (Some m)
    end
  end.

(** [startup_event]: the value it binds the module-level [model] to. *)
Definition startup_event (models_dir : option (list ModelFile))
    : M (option Model) :=
  logger INFO "Loading model..." None ;;;
  model <- get_active_model models_dir ;;
  match model with
  | None =>
    logger WARNING "No model found. Please train a model first." None ;;;
    ret model
  | Some _ =>
    logger INFO "Model loaded successfully" None ;;;
    ret model
  end.

(** ** Row order *)

(** [same_rows d d']: the two stores hold the same customers and, in every
    event table, the same rows, in whatever order. *)
Definition same_rows (d d' : DB) : Prop :=
  customers d = customers d'
  /\ customer_service_interactions d ≡ₚ customer_service_interactions d'
  /\ stb_telemetry d ≡ₚ stb_telemetry d'
  /\ web_analytics_events d ≡ₚ web_analytics_events d'
  /\ billing_events d ≡ₚ billing_events d'.

(** [reordered c t w w']: both worlds are at as-of time [t], their stores
    have the same rows, and no two billing events of customer [c] in the
    90 days up to [t] carry the same timestamp. *)
Definition reordered (c : string) (t : datetime) (w w' : World) : Prop :=
  clock_is t w /\ clock_is t w' /\ same_rows (db w) (db w')
  /\ NoDup (map bill_timestamp (billing_window c t (db w))).

(** [agree R m]: run in two worlds related by [R], [m] has the same outcome
    and leaves the worlds related. *)
Definition agree (R : World -> World -> Prop) {A} (m : M A) : Prop :=
  forall w w', R w w' ->
    fst (m w) = fst (m w') /\ R (snd (m w)) (snd (m w')).

(** ** A customer with events in every table *)







Definition bill_a : BillingEvent :=
  {| bill_event_type := "payment_failed";
     bill_customer_id := "C1";
     bill_timestamp := 19700 * usec_per_day;
     bill_transaction_id := "T10";
     bill_amount := Some 100%Q;
     bill_payment_method := Some "card";
     bill_billing_cycle_day := Some 1;
     bill_account_balance := Some 100%Q;
     bill_days_overdue := Some 12 |}.




(** A billing event with the timestamp of [bill_a] and another
    [days_overdue], and the two in either order. *)
Definition bill_tie : BillingEvent :=
  {| bill_event_type := "payment_received";
     bill_customer_id := "C1";
     bill_timestamp := 19700 * usec_per_day;
     bill_transaction_id := "T11";
     bill_amount := Some 100%Q;
     bill_payment_method := Some "card";
     bill_billing_cycle_day := Some 1;
     bill_account_balance := Some 0%Q;
     bill_days_overdue := Some 0 |}.

Definition tie_db (events : list BillingEvent) : DB :=
  {| customers := {[ "C1" := example_customer ]};
     customer_service_interactions := [];
     stb_telemetry := [];
     web_analytics_events := [];
     billing_events := events;
     retention_actions := ∅ |}.

(** A store whose only events of ["C1"] are dated one day after the as-of
    time of [example_world]: a telemetry error and a failed payment. *)
Definition future_telemetry : STBTelemetry :=
  {| stb_device_id := "D1";
     stb_customer_id := "C1";
     stb_timestamp := 19724 * usec_per_day + 5;
     stb_event_type := "error";
     stb_channel_id := None;
     stb_content_id := None;
     stb_viewing_duration_seconds := None;
     stb_error_code := Some "E42";
     stb_buffer_events := Some 0;
     stb_network_quality := Some 10%Q |}.

Definition future_billing_event : BillingEvent :=
  {| bill_event_type := "payment_failed";
     bill_customer_id := "C1";
     bill_timestamp := 19724 * usec_per_day + 5;
     bill_transaction_id := "T12";
     bill_amount := None;
     bill_payment_method := None;
     bill_billing_cycle_day := None;
     bill_account_balance := None;
     bill_days_overdue := Some 7 |}.

Definition future_events_db : DB :=
  {| customers := {[ "C1" := example_customer ]};
     customer_service_interactions := [];
     stb_telemetry := [future_telemetry];
     web_analytics_events := [];
     billing_events := [future_billing_event];
     retention_actions := ∅ |}.
(** * Properties *)

(** ** Risk classification *)

Lemma Qge_bool_iff (a b : Q) : Qge_bool a b = true <-> (b <= a)%Q.
Proof. unfold Qge_bool. apply Qle_bool_iff. Qed.

Lemma Qge_bool_false (a b : Q) : Qge_bool a b = false <-> (a < b)%Q.
Proof.
  rewrite <- not_true_iff_false, Qge_bool_iff. split.
  - apply Qnot_le_lt.
  - apply Qlt_not_le.
Qed.

Lemma predict_inv thresholds model features r :
  predict thresholds model features = Some r ->
  risk_level r =
    (if Qge_bool (churn_probability r) (t_critical thresholds) then "critical"
     else if Qge_bool (churn_probability r) (t_high thresholds) then "high"
     else if Qge_bool (churn_probability r) (t_medium thresholds) then "medium"
     else "low").
Proof.
  unfold predict. intros H.
  destruct (predict_proba model features) as [proba|]; [|discriminate].
  destruct (model_predict model features) as [prediction|]; [|discriminate].
  injection H as <-. reflexivity.
Qed.

(** C1.  With thresholds [t_critical > t_high > t_medium], whatever
    probability [p] the model gives for the features, [predict] returns a
    prediction with that probability whose risk level is ["critical"] iff
    [p >= t_critical], ["high"] iff [t_high <= p < t_critical], ["medium"]
    iff [t_medium <= p < t_high] and ["low"] iff [p < t_medium]: a
    probability equal to a threshold falls into the higher level. *)
Theorem predict_risk_level_thresholds thresholds model features p c :
  (t_medium thresholds < t_high thresholds)%Q ->
  (t_high thresholds < t_critical thresholds)%Q ->
  predict_proba model features = Some p ->
  model_predict model features = Some c ->
  exists r,
    predict thresholds model features = Some r
    /\ churn_probability r = p
    /\ churn_prediction r = c
    /\ (risk_level r = "critical" <-> (t_critical thresholds <= p)%Q)
    /\ (risk_level r = "high" <->
          (t_high thresholds <= p)%Q /\ (p < t_critical thresholds)%Q)
    /\ (risk_level r = "medium" <->
          (t_medium thresholds <= p)%Q /\ (p < t_high thresholds)%Q)
    /\ (risk_level r = "low" <-> (p < t_medium thresholds)%Q).
Proof.
  intros Hmh Hhc Hp Hc. unfold predict. rewrite Hp, Hc. cbv zeta.
  eexists. split; [reflexivity|]. split; [reflexivity|].
  split; [reflexivity|]. cbn [risk_level].
  destruct (Qge_bool p (t_critical thresholds)) eqn:Ec;
    [apply Qge_bool_iff in Ec | apply Qge_bool_false in Ec];
  (destruct (Qge_bool p (t_high thresholds)) eqn:Eh;
    [apply Qge_bool_iff in Eh | apply Qge_bool_false in Eh]);
  (destruct (Qge_bool p (t_medium thresholds)) eqn:Em;
    [apply Qge_bool_iff in Em | apply Qge_bool_false in Em]);
  repeat split; intros; try discriminate; try reflexivity; try lra;
    try (exfalso; lra).
Qed.

(** A probability equal to [t_high] is classified as high. *)
Lemma predict_risk_level_thresholds_witness :
  exists r,
    predict example_thresholds (const_model (6 # 10)) ∅ = Some r
    /\ churn_probability r = 6 # 10
    /\ churn_prediction r = 1
    /\ (risk_level r = "critical" <-> (8 # 10 <= 6 # 10)%Q)
    /\ (risk_level r = "high" <->
          (6 # 10 <= 6 # 10)%Q /\ (6 # 10 < 8 # 10)%Q)
    /\ (risk_level r = "medium" <->
          (3 # 10 <= 6 # 10)%Q /\ (6 # 10 < 6 # 10)%Q)
    /\ (risk_level r = "low" <-> (6 # 10 < 3 # 10)%Q).
Proof.
  apply (predict_risk_level_thresholds example_thresholds
           (const_model (6 # 10)) ∅ (6 # 10) 1).
  - reflexivity.
  - reflexivity.
  - reflexivity.
  - reflexivity.
Defined.

(** C2.  For fixed thresholds (ordered or not), the risk level never
    decreases when the churn probability increases. *)
Theorem predict_risk_level_monotone thresholds model1 features1 r1
    model2 features2 r2 :
  predict thresholds model1 features1 = Some r1 ->
  predict thresholds model2 features2 = Some r2 ->
  (churn_probability r1 <= churn_probability r2)%Q ->
  (risk_rank (risk_level r1) <= risk_rank (risk_level r2))%nat.
Proof.
  intros H1 H2 Hle.
  rewrite (predict_inv _ _ _ _ H1), (predict_inv _ _ _ _ H2).
  set (p1 := churn_probability r1) in *. set (p2 := churn_probability r2) in *.
  destruct (Qge_bool p1 (t_critical thresholds)) eqn:Ec1;
    [apply Qge_bool_iff in Ec1 | apply Qge_bool_false in Ec1];
  (destruct (Qge_bool p1 (t_high thresholds)) eqn:Eh1;
    [apply Qge_bool_iff in Eh1 | apply Qge_bool_false in Eh1]);
  (destruct (Qge_bool p1 (t_medium thresholds)) eqn:Em1;
    [apply Qge_bool_iff in Em1 | apply Qge_bool_false in Em1]);
  (destruct (Qge_bool p2 (t_critical thresholds)) eqn:Ec2;
    [apply Qge_bool_iff in Ec2 | apply Qge_bool_false in Ec2]);
  (destruct (Qge_bool p2 (t_high thresholds)) eqn:Eh2;
    [apply Qge_bool_iff in Eh2 | apply Qge_bool_false in Eh2]);
  (destruct (Qge_bool p2 (t_medium thresholds)) eqn:Em2;
    [apply Qge_bool_iff in Em2 | apply Qge_bool_false in Em2]);
  cbn; try lia; exfalso; lra.
Qed.

Lemma predict_risk_level_monotone_witness :
  (risk_rank "medium" <= risk_rank "critical")%nat.
Proof.
  apply (predict_risk_level_monotone example_thresholds
           (const_model (3 # 10)) ∅
           {| churn_probability := 3 # 10; churn_prediction := 0;
              risk_level := "medium" |}
           (const_model (92 # 100)) ∅
           {| churn_probability := 92 # 100; churn_prediction := 1;
              risk_level := "critical" |}).
  - reflexivity.
  - reflexivity.
  - discriminate.
Defined.


(** ** The monad *)

Lemma bind_Ok {A B} (m : M A) (k : A -> M B) w a w' :
  m w = (Ok a, w') -> bind m k w = k a w'.
Proof. intros H. unfold bind. rewrite H. reflexivity. Qed.

Lemma bind_Raise {A B} (m : M A) (k : A -> M B) w e w' :
  m w = (Raise e, w') -> bind m k w = (Raise e, w').
Proof. intros H. unfold bind. rewrite H. reflexivity. Qed.

Lemma bind_ret {A B} (a : A) (k : A -> M B) w : bind (ret a) k w = k a w.
Proof. reflexivity. Qed.

Lemma try_except_Ok {A} (m : M A) h w a w' :
  m w = (Ok a, w') -> try_except m h w = (Ok a, w').
Proof. intros H. unfold try_except. rewrite H. reflexivity. Qed.

Lemma try_except_Raise {A} (m : M A) h w e w' :
  m w = (Raise e, w') -> try_except m h w = h e w'.
Proof. intros H. unfold try_except. rewrite H. reflexivity. Qed.

(** ** Computations that are functions of the snapshot *)

Section Snapshot.
Variable t : datetime.

Lemma snapshot_ret {A} (a : A) : snapshot_fn t (ret a).
Proof. intros w _. repeat split. Qed.

Lemma snapshot_raise {A} e : snapshot_fn t (@raise A e).
Proof. intros w _. repeat split. Qed.

Lemma snapshot_query {A} (q : DB -> A) : snapshot_fn t (query q).
Proof.
  intros w _. repeat split. intros w' _ E. unfold query. simpl.
  now rewrite E.
Qed.

Lemma snapshot_logger level message exc :
  snapshot_fn t (logger level message exc).
Proof. intros w _. repeat split. Qed.

Lemma snapshot_utcnow : snapshot_fn t utcnow.
Proof.
  intros w Hw. repeat split. intros w' Hw' _. unfold utcnow. simpl.
  now rewrite Hw, Hw'.
Qed.

Lemma snapshot_bind {A B} (m : M A) (k : A -> M B) :
  snapshot_fn t m -> (forall a, snapshot_fn t (k a)) ->
  snapshot_fn t (bind m k).
Proof.
  intros Hm Hk w Hw. destruct (Hm w Hw) as [[Hdb Hclk] Hdet].
  assert (Hw1 : clock_is t (snd (m w))) by (intros n; rewrite Hclk; apply Hw).
  split.
  - unfold bind. destruct (m w) as [[a|e] w1]; simpl in *; [|easy].
    destruct (Hk a w1 Hw1) as [[Hdb1 Hclk1] _].
    split; congruence.
  - intros w' Hw' Edb. specialize (Hdet w' Hw' Edb).
    destruct (Hm w' Hw') as [[Hdb' Hclk'] _].
    assert (Hw1' : clock_is t (snd (m w')))
      by (intros n; rewrite Hclk'; apply Hw').
    unfold bind.
    destruct (m w) as [[a|e] w1], (m w') as [[a'|e'] w1'];
      simpl in *; try congruence.
    injection Hdet as ->.
    destruct (Hk a w1 Hw1) as [_ Hdet1]. apply Hdet1; congruence.
Qed.

Lemma snapshot_get_number d key : snapshot_fn t (get_number d key).
Proof.
  unfold get_number. destruct (d !! key) as [[]|];
    auto using @snapshot_ret, @snapshot_raise.
Qed.

Lemma snapshot_sum_buffer_events events :
  forall acc, snapshot_fn t (sum_buffer_events acc events).
Proof.
  induction events as [|e events IH]; intros acc; simpl.
  - apply snapshot_ret.
  - destruct (stb_buffer_events e); [apply IH | apply snapshot_raise].
Qed.
End Snapshot.

Create HintDb snapshot.
#[local] Hint Resolve snapshot_ret snapshot_raise snapshot_query
  snapshot_logger snapshot_utcnow snapshot_get_number
  snapshot_sum_buffer_events : snapshot.

(** Splits a computation along its binds and branches. *)
Ltac snapshot :=
  repeat first
    [ progress cbv zeta
    | apply snapshot_bind; [|intros ?]
    | solve [auto with snapshot]
    | match goal with
      | |- snapshot_fn _ (match ?x with _ => _ end) => destruct x
      end ].

Lemma snapshot_service_features t customer_id now :
  snapshot_fn t (_compute_service_features customer_id now).
Proof. unfold _compute_service_features. snapshot. Qed.

Lemma snapshot_stb_features t customer_id now :
  snapshot_fn t (_compute_stb_features customer_id now).
Proof. unfold _compute_stb_features. snapshot. Qed.

Lemma snapshot_web_features t customer_id now :
  snapshot_fn t (_compute_web_features customer_id now).
Proof. unfold _compute_web_features. snapshot. Qed.

Lemma snapshot_billing_features t customer_id now :
  snapshot_fn t (_compute_billing_features customer_id now).
Proof. unfold _compute_billing_features. snapshot. Qed.

Lemma snapshot_demographic_features t customer :
  snapshot_fn t (_compute_demographic_features customer).
Proof. unfold _compute_demographic_features. snapshot. Qed.

#[local] Hint Resolve snapshot_service_features snapshot_stb_features
  snapshot_web_features snapshot_billing_features
  snapshot_demographic_features : snapshot.

Lemma snapshot_behavioral_features t customer_id customer now :
  snapshot_fn t (_compute_behavioral_features customer_id customer now).
Proof. unfold _compute_behavioral_features. snapshot. Qed.

#[local] Hint Resolve snapshot_behavioral_features : snapshot.


(** ** Shapes of the windowed aggregates *)

Lemma len_nonneg {A} (l : list A) : 0 <= len l.
Proof. unfold len. lia. Qed.

Lemma filter_none {A} (P : A -> Prop) `{forall x, Decision (P x)}
    (l : list A) :
  (forall x, x ∈ l -> ~ P x) -> filter P l = [].
Proof.
  induction l as [|x l IH]; intros Hl; [reflexivity|].
  rewrite filter_cons. destruct (decide (P x)) as [HP|_].
  - exfalso. apply (Hl x); [left | exact HP].
  - apply IH. intros y Hy. apply Hl. now right.
Qed.

Lemma service_features_run customer_id now w :
  exists a b c d e,
    0 <= c /\
    _compute_service_features customer_id now w
      = (Ok (service_dict a b c d e), w).
Proof.
  unfold _compute_service_features, bind, query. simpl.
  destruct (filter _ _) as [|i0 rest].
  - exists 0, 0%Q, 0, 0%Q, 999. split; [lia | reflexivity].
  - do 5 eexists. split; [|reflexivity]. apply len_nonneg.
Qed.

Lemma web_features_run customer_id now w :
  exists a b c,
    0 <= a /\
    _compute_web_features customer_id now w = (Ok (web_dict a b c), w).
Proof.
  unfold _compute_web_features, bind, query. simpl.
  destruct (filter _ _) as [|e0 rest].
  - exists 0, 0%Q, 999. split; [lia | reflexivity].
  - do 3 eexists. split; [|reflexivity]. lia.
Qed.

Lemma billing_features_run customer_id now w :
  exists a b c d,
    0 <= a /\
    _compute_billing_features customer_id now w
      = (Ok (billing_dict a b c d), w).
Proof.
  unfold _compute_billing_features, bind, query. simpl.
  destruct (sort_desc _ _ _) as [|latest rest].
  - exists 0, 0, 0, 0%Q. split; [lia | reflexivity].
  - do 4 eexists. split; [|reflexivity]. apply len_nonneg.
Qed.

Lemma billing_features_empty customer_id now w :
  (forall e, e ∈ billing_events (db w) ->
     bill_customer_id e = customer_id ->
     bill_timestamp e < now - timedelta 90) ->
  _compute_billing_features customer_id now w
    = (Ok (billing_dict 0 0 0 0%Q), w).
Proof.
  intros Hno. unfold _compute_billing_features, bind, query. simpl.
  rewrite filter_none; [reflexivity|].
  intros e He [Hc Ht]. specialize (Hno e He Hc). lia.
Qed.

Lemma sum_buffer_events_run events w :
  forall acc,
    (exists n, sum_buffer_events acc events w = (Ok n, w))
    \/ sum_buffer_events acc events w = (Raise TypeError, w).
Proof.
  induction events as [|e events IH]; intros acc; simpl.
  - left. now exists acc.
  - destruct (stb_buffer_events e); [apply IH | now right].
Qed.

Lemma sum_buffer_events_total events w :
  Forall (fun e => is_Some (stb_buffer_events e)) events ->
  forall acc, exists n, sum_buffer_events acc events w = (Ok n, w).
Proof.
  induction 1 as [|e events [n Hn] _ IH]; intros acc; simpl.
  - now exists acc.
  - rewrite Hn. apply IH.
Qed.

Lemma stb_features_run customer_id now w :
  (exists a b c d,
     _compute_stb_features customer_id now w = (Ok (stb_dict a b c d), w))
  \/ _compute_stb_features customer_id now w = (Raise TypeError, w).
Proof.
  unfold _compute_stb_features, bind, query. simpl.
  destruct (filter _ _) as [|e0 rest] eqn:E.
  - left. now exists 0, 100%Q, 0, 0%Q.
  - destruct (sum_buffer_events_run (e0 :: rest) w 0) as [[n Hn]|Hr].
    + rewrite Hn. left. now do 4 eexists.
    + rewrite Hr. now right.
Qed.

Lemma stb_features_empty customer_id now w :
  (forall e, e ∈ stb_telemetry (db w) ->
     stb_customer_id e = customer_id ->
     stb_timestamp e < now - timedelta 30) ->
  _compute_stb_features customer_id now w
    = (Ok (stb_dict 0 100%Q 0 0%Q), w).
Proof.
  intros Hno. unfold _compute_stb_features, bind, query. simpl.
  rewrite filter_none; [reflexivity|].
  intros e He [Hc Ht]. specialize (Hno e He Hc). lia.
Qed.

Lemma stb_features_total customer_id now w :
  (forall e, e ∈ stb_telemetry (db w) ->
     stb_customer_id e = customer_id ->
     now - timedelta 30 <= stb_timestamp e ->
     is_Some (stb_buffer_events e)) ->
  exists a b c d,
    _compute_stb_features customer_id now w = (Ok (stb_dict a b c d), w).
Proof.
  intros Hsome. unfold _compute_stb_features, bind, query. simpl.
  destruct (filter _ _) as [|e0 rest] eqn:E.
  - now exists 0, 100%Q, 0, 0%Q.
  - destruct (sum_buffer_events_total (e0 :: rest) w) with (acc := 0)
      as [n Hn].
    + rewrite <- E. apply List.Forall_forall. intros e He. apply
        list_elem_of_In in He.
      apply list_elem_of_filter in He.
      destruct He as [[Hc Ht] He]. now apply Hsome.
    + rewrite Hn. now do 4 eexists.
Qed.

Lemma demographic_features_run customer w :
  exists demo w2,
    _compute_demographic_features customer w = (Ok demo, w2)
    /\ db w2 = db w.
Proof.
  unfold _compute_demographic_features, bind, utcnow, ret.
  destruct (account_created_date customer), (contract_end_date customer);
    simpl; now do 2 eexists.
Qed.

Lemma behavioral_features_run customer_id customer now w
    a1 b1 c1 d1 a2 b2 c2 a3 b3 c3 d3 e3 a4 b4 c4 d4 :
  _compute_stb_features customer_id now w = (Ok (stb_dict a1 b1 c1 d1), w) ->
  _compute_web_features customer_id now w = (Ok (web_dict a2 b2 c2), w) ->
  _compute_service_features customer_id now w
    = (Ok (service_dict a3 b3 c3 d3 e3), w) ->
  _compute_billing_features customer_id now w
    = (Ok (billing_dict a4 b4 c4 d4), w) ->
  _compute_behavioral_features customer_id customer now w
    = (Ok (behavioral_dict
             (py_min (d1 / 100) 1 * (1 # 2)
              + py_min (inject_Z a2 / 30) 1 * (1 # 2))%Q
             (py_min (inject_Z c3 / 5) 1 * (3 # 10)
              + py_min (inject_Z a4 / 3) 1 * (4 # 10)
              + py_min (inject_Z c4 / 30) 1 * (3 # 10))%Q), w).
Proof.
  intros Hstb Hweb Hsvc Hbill. unfold _compute_behavioral_features.
  rewrite (bind_Ok _ _ _ _ _ Hstb), (bind_Ok _ _ _ _ _ Hweb).
  change (get_number (stb_dict a1 b1 c1 d1) "total_viewing_hours_30d")
    with (@ret Q d1).
  change (get_number (web_dict a2 b2 c2) "web_sessions_30d")
    with (ret (inject_Z a2)).
  rewrite !bind_ret.
  rewrite (bind_Ok _ _ _ _ _ Hsvc), (bind_Ok _ _ _ _ _ Hbill).
  reflexivity.
Qed.

(** The outcome of [_compute_features] for a known customer, from the
    outcomes of its parts. *)
Lemma compute_features_run customer_id w customer :
  customers (db w) !! customer_id = Some customer ->
  let now := clock w (ticks w) in
  exists demo w2 a3 b3 c3 d3 e3 a2 b2 c2 a4 b4 c4 d4,
    db w2 = db w /\ 0 <= c3 /\ 0 <= a2 /\ 0 <= a4 /\
    _compute_billing_features customer_id now w2
      = (Ok (billing_dict a4 b4 c4 d4), w2) /\
    ((_compute_stb_features customer_id now w2 = (Raise TypeError, w2)
      /\ _compute_features customer_id w = (Raise TypeError, w2))
     \/
     (exists a1 b1 c1 d1,
        _compute_stb_features customer_id now w2
          = (Ok (stb_dict a1 b1 c1 d1), w2) /\
        _compute_features customer_id w
          = (Ok (behavioral_dict
                   (py_min (d1 / 100) 1 * (1 # 2)
                    + py_min (inject_Z a2 / 30) 1 * (1 # 2))%Q
                   (py_min (inject_Z c3 / 5) 1 * (3 # 10)
                    + py_min (inject_Z a4 / 3) 1 * (4 # 10)
                    + py_min (inject_Z c4 / 30) 1 * (3 # 10))%Q
                 ∪ (billing_dict a4 b4 c4 d4
                    ∪ (web_dict a2 b2 c2
                       ∪ (stb_dict a1 b1 c1 d1
                          ∪ (service_dict a3 b3 c3 d3 e3
                             ∪ (demo ∪ ∅)))))), w2))).
Proof.
  intros Hc now.
  set (w1 := {| db := db w; redis := redis w; clock := clock w;
                ticks := S (ticks w); log := log w |}).
  assert (Hnow : utcnow w = (Ok now, w1)) by reflexivity.
  assert (Hq : query (fun d => customers d !! customer_id) w1
               = (Ok (Some customer), w1)).
  { unfold query. simpl. now rewrite Hc. }
  destruct (demographic_features_run customer w1) as (demo & w2 & Hdemo & Hdb).
  destruct (service_features_run customer_id now w2)
    as (a3 & b3 & c3 & d3 & e3 & Hc3 & Hsvc).
  destruct (web_features_run customer_id now w2)
    as (a2 & b2 & c2 & Ha2 & Hweb).
  destruct (billing_features_run customer_id now w2)
    as (a4 & b4 & c4 & d4 & Ha4 & Hbill).
  exists demo, w2, a3, b3, c3, d3, e3, a2, b2, c2, a4, b4, c4, d4.
  repeat (split; [assumption|]).
  destruct (stb_features_run customer_id now w2)
    as [(a1 & b1 & c1 & d1 & Hstb)|Hstb].
  - right. exists a1, b1, c1, d1. split; [exact Hstb|].
    unfold _compute_features.
    rewrite (bind_Ok _ _ _ _ _ Hnow). cbv beta.
    rewrite (bind_Ok _ _ _ _ _ Hq). cbv beta iota zeta.
    rewrite (bind_Ok _ _ _ _ _ Hdemo). cbv beta zeta.
    rewrite (bind_Ok _ _ _ _ _ Hsvc). cbv beta zeta.
    rewrite (bind_Ok _ _ _ _ _ Hstb). cbv beta zeta.
    rewrite (bind_Ok _ _ _ _ _ Hweb). cbv beta zeta.
    rewrite (bind_Ok _ _ _ _ _ Hbill). cbv beta zeta.
    rewrite (bind_Ok _ _ _ _ _
               (behavioral_features_run _ customer _ _ _ _ _ _ _ _ _ _ _ _ _ _
                  _ _ _ _ Hstb Hweb Hsvc Hbill)).
    reflexivity.
  - left. split; [exact Hstb|].
    unfold _compute_features.
    rewrite (bind_Ok _ _ _ _ _ Hnow). cbv beta.
    rewrite (bind_Ok _ _ _ _ _ Hq). cbv beta iota zeta.
    rewrite (bind_Ok _ _ _ _ _ Hdemo). cbv beta zeta.
    rewrite (bind_Ok _ _ _ _ _ Hsvc). cbv beta zeta.
    now rewrite (bind_Raise _ _ _ _ _ Hstb).
Qed.

(** ** Default values and composite scores *)

Lemma py_min_Qmin a b : py_min a b = Qmin a b.
Proof.
  unfold py_min, Qmin, GenericMinMax.gmin, Qle_bool, Qcompare.
  rewrite Z.leb_compare. now destruct (_ ?= _)%Z.
Qed.

Lemma Qdiv_nonneg (x c : Q) : (0 < c -> 0 <= x -> 0 <= x / c)%Q.
Proof. intros Hc Hx. apply Qle_shift_div_l; [exact Hc | lra]. Qed.

Lemma inject_Z_nonneg n : 0 <= n -> (0 <= inject_Z n)%Q.
Proof. intros H. change 0%Q with (inject_Z 0). now rewrite <- Zle_Qle. Qed.

Lemma compute_features_total customer_id w customer :
  customers (db w) !! customer_id = Some customer ->
  (forall e, e ∈ stb_telemetry (db w) ->
     stb_customer_id e = customer_id ->
     clock w (ticks w) - timedelta 30 <= stb_timestamp e ->
     is_Some (stb_buffer_events e)) ->
  exists fv, fst (_compute_features customer_id w) = Ok fv.
Proof.
  intros Hc Hsome.
  destruct (compute_features_run customer_id w customer Hc)
    as (demo & w2 & a3 & b3 & c3 & d3 & e3 & a2 & b2 & c2 & a4 & b4 & c4 & d4
        & Hdb & _ & _ & _ & _ & Hrun).
  rewrite <- Hdb in Hsome.
  destruct (stb_features_total customer_id _ w2 Hsome)
    as (a1 & b1 & c1 & d1 & Hs).
  destruct Hrun as [[Hr _]|(a1' & b1' & c1' & d1' & _ & Hr)]; [congruence|].
  rewrite Hr. now eexists.
Qed.

(** C7 as stated fails.  The windows of the code have no upper end: they
    take every event dated at or after the as-of time minus 30 (90) days,
    also one dated after the as-of time.  A customer whose only events are
    a telemetry error and a failed payment dated one day after the as-of
    time has no event in the 30 (90) days before it, and gets
    [stb_errors_30d = 1], [avg_network_quality_30d = 10.0] and
    [days_overdue = 7]. *)
Lemma default_value_contract_counterexample :
  let w := example_world future_events_db in
  let now := clock w (ticks w) in
  customers (db w) !! "C1" = Some example_customer
  /\ Forall (fun e => now < stb_timestamp e) (stb_telemetry (db w))
  /\ Forall (fun e => now < bill_timestamp e) (billing_events (db w))
  /\ feature_of (fst (_compute_features "C1" w)) "stb_errors_30d"
     = Some (VInt 1)
  /\ feature_of (fst (_compute_features "C1" w)) "avg_network_quality_30d"
     = Some (VFloat 10)
  /\ feature_of (fst (_compute_features "C1" w)) "days_overdue"
     = Some (VInt 7).
Proof.
  intros w now. split; [reflexivity|].
  split; [repeat constructor|]. split; [repeat constructor|].
  repeat split; vm_compute; reflexivity.
Qed.

(** C7, as the code has it.  For a known customer: with no device-telemetry
    event of the customer dated at or after the as-of time minus 30 days,
    the computation returns a vector with [stb_errors_30d = 0] and
    [avg_network_quality_30d = 100.0]; with no billing event of the
    customer dated at or after the as-of time minus 90 days, every vector
    it returns has [days_overdue = 0], and it returns one unless a
    telemetry row of the window has no [buffer_events]. *)
Theorem default_value_contract customer_id w customer :
  customers (db w) !! customer_id = Some customer ->
  let now := clock w (ticks w) in
  ((forall e, e ∈ stb_telemetry (db w) ->
      stb_customer_id e = customer_id ->
      stb_timestamp e < now - timedelta 30) ->
   exists fv,
     fst (_compute_features customer_id w) = Ok fv
     /\ fv !! "stb_errors_30d" = Some (VInt 0)
     /\ fv !! "avg_network_quality_30d" = Some (VFloat 100))
  /\
  ((forall e, e ∈ billing_events (db w) ->
      bill_customer_id e = customer_id ->
      bill_timestamp e < now - timedelta 90) ->
   (forall fv,
      fst (_compute_features customer_id w) = Ok fv ->
      fv !! "days_overdue" = Some (VInt 0))
   /\
   ((forall e, e ∈ stb_telemetry (db w) ->
       stb_customer_id e = customer_id ->
       now - timedelta 30 <= stb_timestamp e ->
       is_Some (stb_buffer_events e)) ->
    exists fv, fst (_compute_features customer_id w) = Ok fv)).
Proof.
  intros Hc now.
  destruct (compute_features_run customer_id w customer Hc)
    as (demo & w2 & a3 & b3 & c3 & d3 & e3 & a2 & b2 & c2 & a4 & b4 & c4 & d4
        & Hdb & _ & _ & _ & Hbill & Hrun).
  fold now in Hbill, Hrun. split.
  - intros Hno. rewrite <- Hdb in Hno.
    pose proof (stb_features_empty customer_id now w2 Hno) as Hstb.
    destruct Hrun as [[Hr _]|(a1 & b1 & c1 & d1 & Hs & Hr)]; [congruence|].
    assert (Heq : stb_dict a1 b1 c1 d1 = stb_dict 0 100%Q 0 0%Q)
      by congruence.
    assert (Ha : stb_dict a1 b1 c1 d1 !! "stb_errors_30d" = Some (VInt 0))
      by now rewrite Heq.
    assert (Hb : stb_dict a1 b1 c1 d1 !! "avg_network_quality_30d"
                 = Some (VFloat 100)) by now rewrite Heq.
    eexists. rewrite Hr. split; [reflexivity|]. cbn [fst].
    split.
    + do 3 (rewrite lookup_union_r by reflexivity).
      now apply lookup_union_Some_l.
    + do 3 (rewrite lookup_union_r by reflexivity).
      now apply lookup_union_Some_l.
  - intros Hno. rewrite <- Hdb in Hno.
    pose proof (billing_features_empty customer_id now w2 Hno) as Hb.
    assert (Heq : billing_dict a4 b4 c4 d4 = billing_dict 0 0 0 0%Q)
      by congruence.
    assert (Ho : billing_dict a4 b4 c4 d4 !! "days_overdue" = Some (VInt 0))
      by now rewrite Heq.
    split.
    + intros fv Hfv.
      destruct Hrun as [[_ Hr]|(a1 & b1 & c1 & d1 & _ & Hr)];
        rewrite Hr in Hfv; [discriminate|].
      injection Hfv as <-.
      rewrite lookup_union_r by reflexivity.
      now apply lookup_union_Some_l.
    + intros Hsome. now apply (compute_features_total _ _ customer).
Qed.

Lemma default_value_contract_witness :
  let w := example_world example_db in
  (exists fv,
     fst (_compute_features "C1" w) = Ok fv
     /\ fv !! "stb_errors_30d" = Some (VInt 0)
     /\ fv !! "avg_network_quality_30d" = Some (VFloat 100))
  /\ (forall fv,
        fst (_compute_features "C1" w) = Ok fv ->
        fv !! "days_overdue" = Some (VInt 0))
  /\ (exists fv, fst (_compute_features "C1" w) = Ok fv).
Proof.
  intros w.
  destruct (default_value_contract "C1" w example_customer eq_refl)
    as [Hstb Hbill].
  split; [|split].
  - apply Hstb. intros e He. inversion He.
  - apply Hbill. intros e He. inversion He.
  - apply Hbill.
    + intros e He. inversion He.
    + intros e He. inversion He.
Defined.

(** C8, as the code has it.  For a known customer, the vector holds
    [engagement_score = 0.5*min(viewing_hours/100, 1)
    + 0.5*min(web_sessions/30, 1)] and
    [risk_score = 0.3*min(unresolved_calls/5, 1)
    + 0.4*min(payment_failures/3, 1) + 0.3*min(days_overdue/30, 1)] over the
    aggregates of the same vector.  Both scores are at most 1; the three
    counts are never negative, so [engagement_score] is at least 0 when the
    viewing hours are, and [risk_score] when [days_overdue] is. *)
Theorem composite_scores customer_id w customer fv :
  customers (db w) !! customer_id = Some customer ->
  fst (_compute_features customer_id w) = Ok fv ->
  exists viewing_hours web_sessions unresolved_calls payment_failures
         days_overdue engagement_score risk_score,
    fv !! "total_viewing_hours_30d" = Some (VFloat viewing_hours)
    /\ fv !! "web_sessions_30d" = Some (VInt web_sessions)
    /\ fv !! "unresolved_calls_30d" = Some (VInt unresolved_calls)
    /\ fv !! "payment_failures_90d" = Some (VInt payment_failures)
    /\ fv !! "days_overdue" = Some (VInt days_overdue)
    /\ fv !! "engagement_score" = Some (VFloat engagement_score)
    /\ fv !! "risk_score" = Some (VFloat risk_score)
    /\ (engagement_score
        == (1 # 2) * Qmin (viewing_hours / 100) 1
           + (1 # 2) * Qmin (inject_Z web_sessions / 30) 1)%Q
    /\ (risk_score
        == (3 # 10) * Qmin (inject_Z unresolved_calls / 5) 1
           + (4 # 10) * Qmin (inject_Z payment_failures / 3) 1
           + (3 # 10) * Qmin (inject_Z days_overdue / 30) 1)%Q
    /\ (engagement_score <= 1)%Q /\ (risk_score <= 1)%Q
    /\ 0 <= web_sessions /\ 0 <= unresolved_calls /\ 0 <= payment_failures
    /\ ((0 <= viewing_hours)%Q -> (0 <= engagement_score)%Q)
    /\ (0 <= days_overdue -> (0 <= risk_score)%Q).
Proof.
  intros Hc Hfv.
  destruct (compute_features_run customer_id w customer Hc)
    as (demo & w2 & a3 & b3 & c3 & d3 & e3 & a2 & b2 & c2 & a4 & b4 & c4 & d4
        & Hdb & Hc3 & Ha2 & Ha4 & Hbill & Hrun).
  destruct Hrun as [[_ Hr]|(a1 & b1 & c1 & d1 & _ & Hr)];
    rewrite Hr in Hfv; [discriminate|].
  injection Hfv as <-.
  exists d1, a2, c3, a4, c4.
  eexists. eexists.
  split; [do 3 (rewrite lookup_union_r by reflexivity);
          now apply lookup_union_Some_l|].
  split; [do 2 (rewrite lookup_union_r by reflexivity);
          now apply lookup_union_Some_l|].
  split; [do 4 (rewrite lookup_union_r by reflexivity);
          now apply lookup_union_Some_l|].
  split; [do 1 (rewrite lookup_union_r by reflexivity);
          now apply lookup_union_Some_l|].
  split; [do 1 (rewrite lookup_union_r by reflexivity);
          now apply lookup_union_Some_l|].
  split; [now apply lookup_union_Some_l|].
  split; [now apply lookup_union_Some_l|].
  rewrite !py_min_Qmin.
  pose proof (Q.le_min_r (d1 / 100) 1) as H1.
  pose proof (Q.le_min_r (inject_Z a2 / 30) 1) as H2.
  pose proof (Q.le_min_r (inject_Z c3 / 5) 1) as H3.
  pose proof (Q.le_min_r (inject_Z a4 / 3) 1) as H4.
  pose proof (Q.le_min_r (inject_Z c4 / 30) 1) as H5.
  assert (N2 : (0 <= Qmin (inject_Z a2 / 30) 1)%Q).
  { apply Q.min_glb; [|discriminate].
    apply Qdiv_nonneg; [reflexivity | now apply inject_Z_nonneg]. }
  assert (N3 : (0 <= Qmin (inject_Z c3 / 5) 1)%Q).
  { apply Q.min_glb; [|discriminate].
    apply Qdiv_nonneg; [reflexivity | now apply inject_Z_nonneg]. }
  assert (N4 : (0 <= Qmin (inject_Z a4 / 3) 1)%Q).
  { apply Q.min_glb; [|discriminate].
    apply Qdiv_nonneg; [reflexivity | now apply inject_Z_nonneg]. }
  split; [lra|]. split; [lra|]. split; [lra|]. split; [lra|].
  repeat (split; [assumption|]).
  split.
  - intros N1.
    assert (N1' : (0 <= Qmin (d1 / 100) 1)%Q).
    { apply Q.min_glb; [|discriminate]. now apply Qdiv_nonneg. }
    lra.
  - intros N5.
    assert (N5' : (0 <= Qmin (inject_Z c4 / 30) 1)%Q).
    { apply Q.min_glb; [|discriminate].
      apply Qdiv_nonneg; [reflexivity | now apply inject_Z_nonneg]. }
    lra.
Qed.

Lemma composite_scores_witness :
  let w := example_world negative_overdue_db in
  exists fv engagement_score risk_score,
    fst (_compute_features "C1" w) = Ok fv
    /\ fv !! "engagement_score" = Some (VFloat engagement_score)
    /\ fv !! "risk_score" = Some (VFloat risk_score)
    /\ (engagement_score <= 1)%Q /\ (risk_score <= 1)%Q.
Proof.
  intros w.
  destruct (compute_features_total "C1" w example_customer eq_refl)
    as [fv E].
  { intros e He. inversion He. }
  destruct (composite_scores "C1" w example_customer fv eq_refl E)
    as (vh & ws & uc & pf & od & es & rs & _ & _ & _ & _ & _ & Hes & Hrs
        & _ & _ & Hes1 & Hrs1 & _).
  exists fv, es, rs. auto.
Defined.

(** C8 as stated fails: the scores are capped at 1 but not floored at 0.
    With a billing event whose [days_overdue] is -60 and one failed payment,
    [risk_score] is 0.4/3 - 0.6, below zero. *)
Lemma composite_scores_counterexample :
  feature_of (fst (_compute_features "C1" (example_world negative_overdue_db)))
             "risk_score"
    = Some (VFloat (-210000 # 450000))
  /\ ~ (0 <= -210000 # 450000)%Q.
Proof.
  split.
  - vm_compute. reflexivity.
  - intros H. apply H. reflexivity.
Qed.

(** The store of that counterexample is what ingestion leaves behind when
    the bus delivers such a billing event for a known customer. *)
Lemma negative_overdue_db_ingested :
  db (snd (process_event 300 example_fromisoformat example_to_uuid
             "billing-events"
             negative_overdue_message (Some "C1") (example_world example_db)))
  = negative_overdue_db.
Proof. vm_compute. reflexivity. Qed.

(** ** The stable descending sort *)

Section SortDesc.
Context {A K : Type} (ltb : K -> K -> bool) (key : A -> K).

Lemma insert_desc_perm x l : insert_desc ltb key x l ≡ₚ x :: l.
Proof.
  induction l as [|y l IH]; simpl; [reflexivity|].
  destruct (ltb (key x) (key y)); [|reflexivity].
  rewrite IH. apply Permutation_swap.
Qed.

Lemma sort_desc_perm l : sort_desc ltb key l ≡ₚ l.
Proof.
  induction l as [|x l IH]; simpl; [reflexivity|].
  now rewrite insert_desc_perm, IH.
Qed.

Lemma insert_desc_map x l :
  map key (insert_desc ltb key x l)
    = insert_desc ltb id (key x) (map key l).
Proof.
  induction l as [|y l IH]; simpl; [reflexivity|].
  unfold id in *.
  destruct (ltb (key x) (key y)); simpl; [|reflexivity].
  now rewrite IH.
Qed.

Lemma sort_desc_map l :
  map key (sort_desc ltb key l) = sort_desc ltb id (map key l).
Proof.
  induction l as [|x l IH]; simpl; [reflexivity|].
  now rewrite insert_desc_map, IH.
Qed.
End SortDesc.

Lemma Qlt_bool_iff a b : Qlt_bool a b = true <-> (a < b)%Q.
Proof.
  unfold Qlt_bool. rewrite negb_true_iff, <- not_true_iff_false, Qle_bool_iff.
  split; [apply Qnot_le_lt | apply Qlt_not_le].
Qed.

Lemma Qlt_bool_false a b : Qlt_bool a b = false <-> (b <= a)%Q.
Proof.
  unfold Qlt_bool. rewrite negb_false_iff. apply Qle_bool_iff.
Qed.

(** Whatever the list, the sort leaves it in descending order of the key. *)
Lemma sort_desc_sorted {A} (key : A -> Q) l :
  StronglySorted (fun a b => (key b <= key a)%Q) (sort_desc Qlt_bool key l).
Proof.
  induction l as [|x l IH]; simpl; [constructor|].
  induction IH as [|y s Hs IHs Hy]; simpl; [repeat constructor|].
  destruct (Qlt_bool (key x) (key y)) eqn:E.
  - apply Qlt_bool_iff in E. constructor; [exact IHs|].
    apply List.Forall_forall. intros z Hz.
    apply list_elem_of_In in Hz. rewrite insert_desc_perm in Hz.
    apply elem_of_cons in Hz. destruct Hz as [->|Hz]; [lra|].
    rewrite List.Forall_forall in Hy. apply Hy. now apply list_elem_of_In.
  - apply Qlt_bool_false in E. constructor; [now constructor|].
    constructor; [exact E|].
    rewrite List.Forall_forall in Hy |- *. intros z Hz.
    specialize (Hy z Hz). simpl in Hy. lra.
Qed.

Lemma StronglySorted_by_key {A K} (R : K -> K -> Prop) (key : A -> K) l :
  StronglySorted R (map key l) ->
  StronglySorted (fun a b => R (key a) (key b)) l.
Proof.
  induction l as [|x l IH]; simpl; intros H; [constructor|].
  apply StronglySorted_inv in H. destruct H as [Hs Hx].
  constructor; [now apply IH|].
  rewrite List.Forall_forall in Hx |- *. intros y Hy.
  apply Hx. now apply in_map.
Qed.

(** Strict order of the output, from the keys alone. *)
Lemma sorted_top_by_keys n (l : list Action) :
  StronglySorted (fun x y => (y < x)%Q)
    (take n (sort_desc Qlt_bool id (map predicted_impact l))) ->
  StronglySorted (fun a b => (predicted_impact b < predicted_impact a)%Q)
    (slice_to n (sort_desc Qlt_bool predicted_impact l)).
Proof.
  intros H. unfold slice_to.
  apply (StronglySorted_by_key (fun x y => (y < x)%Q)).
  change (map predicted_impact ?l) with (predicted_impact <$> l).
  rewrite fmap_take.
  change (predicted_impact <$> ?l) with (map predicted_impact l).
  now rewrite sort_desc_map.
Qed.

(** ** Recommendations *)

Ltac sorted_keys :=
  apply sorted_top_by_keys;
  cbn [map app predicted_impact];
  vm_compute;
  repeat (constructor; try reflexivity).

(** C4.  Whatever the customer, the probability and the risk level,
    [recommend_actions] returns a list of at most three actions in strictly
    descending order of [predicted_impact]. *)
Theorem recommend_actions_shape customer_id churn_probability risk_level w :
  exists actions,
    recommend_actions customer_id churn_probability risk_level w
      = (Ok actions, w)
    /\ (length actions <= 3)%nat
    /\ StronglySorted
         (fun a b => (predicted_impact b < predicted_impact a)%Q) actions.
Proof.
  unfold recommend_actions, bind, query, ret. cbv beta iota zeta.
  destruct (customers (db w) !! customer_id) as [customer|].
  2: { exists []. repeat split; [simpl; lia | constructor]. }
  eexists. split; [reflexivity|].
  split.
  { unfold slice_to. rewrite length_take. lia. }
  destruct (String.eqb risk_level "critical");
    [|destruct (String.eqb risk_level "high");
      [|destruct (String.eqb risk_level "medium")]].
  - unfold _get_critical_actions.
    destruct (truthy_float (monthly_recurring_revenue customer));
      destruct (truthy_float (lifetime_value customer)) as [ltv|];
      try destruct (Qlt_bool 1000 ltv); sorted_keys.
  - unfold _get_high_risk_actions.
    destruct (truthy_float (monthly_recurring_revenue customer));
      destruct (bool_decide _); sorted_keys.
  - unfold _get_medium_risk_actions.
    destruct (truthy_float (monthly_recurring_revenue customer));
      sorted_keys.
  - unfold _get_low_risk_actions. sorted_keys.
Qed.

(** The two end-to-end examples: a critical customer with revenue 100 and
    lifetime value 1500 gets the 25% discount, the service call and the
    loyalty reward, in that order; a low-risk customer gets the engagement
    email only. *)
Example recommend_actions_critical :
  let w := example_world example_db in
  (risk_level <$> predict example_thresholds (const_model (92 # 100)) ∅)
    = Some "critical"
  /\ match fst (recommend_actions "C1" (92 # 100) "critical" w) with
     | Ok actions =>
       map (fun a => (action_type a, description a, predicted_impact a))
           actions
       = [("discount", "25% discount for 6 months", 30 # 100);
          ("service_call",
           "Immediate proactive service call to address concerns", 25 # 100);
          ("loyalty_reward",
           "Exclusive loyalty reward for long-term customers", 15 # 100)]
     | Raise _ => False
     end.
Proof. vm_compute. split; reflexivity. Qed.

Example recommend_actions_low :
  let w := example_world example_db in
  (risk_level <$> predict example_thresholds (const_model (1 # 10)) ∅)
    = Some "low"
  /\ match fst (recommend_actions "C1" (1 # 10) "low" w) with
     | Ok actions =>
       map (fun a => (action_type a, description a, predicted_impact a))
           actions
       = [("custom_offer", "Engagement email with tips and benefits",
           5 # 100)]
     | Raise _ => False
     end.
Proof. vm_compute. split; reflexivity. Qed.

(** ** Executing an action *)

Lemma execute_action_malformed to_uuid action_id customer_id w :
  to_uuid action_id = None ->
  execute_action to_uuid action_id customer_id w = (Raise DataError, w).
Proof. intros E. unfold execute_action. now rewrite E. Qed.

Lemma execute_action_not_found to_uuid action_id customer_id w uuid :
  to_uuid action_id = Some uuid ->
  (forall a, retention_actions (db w) !! uuid = Some a ->
             ra_customer_id a <> customer_id) ->
  execute_action to_uuid action_id customer_id w
    = (Ok false, add_log (not_found_record action_id) w).
Proof.
  intros Hu Hno. unfold execute_action. rewrite Hu.
  unfold bind, query. cbv beta iota.
  destruct (retention_actions (db w) !! uuid) as [a|] eqn:E;
    [|reflexivity].
  destruct (String.eqb_spec (ra_customer_id a) customer_id) as [Heq|_];
    [|reflexivity].
  now destruct (Hno a eq_refl).
Qed.

Lemma execute_action_not_pending to_uuid action_id customer_id w uuid a :
  to_uuid action_id = Some uuid ->
  retention_actions (db w) !! uuid = Some a ->
  ra_customer_id a = customer_id ->
  ra_status a <> "pending" ->
  execute_action to_uuid action_id customer_id w
    = (Ok false, add_log (already_executed_record action_id) w).
Proof.
  intros Hu E Hc Hs. unfold execute_action. rewrite Hu.
  unfold bind, query. cbv beta iota.
  rewrite E. apply String.eqb_eq in Hc. rewrite Hc.
  apply String.eqb_neq in Hs. now rewrite Hs.
Qed.

Lemma execute_action_pending to_uuid action_id customer_id w uuid a :
  to_uuid action_id = Some uuid ->
  retention_actions (db w) !! uuid = Some a ->
  ra_customer_id a = customer_id ->
  ra_status a = "pending" ->
  execute_action to_uuid action_id customer_id w
    = (Ok true,
       add_log (executed_record action_id customer_id)
         (set_db (set_retention_actions
                    (<[uuid := executed a (clock w (ticks w))]>
                       (retention_actions (db w)))
                    (db w))
                 (tick w))).
Proof.
  intros Hu E Hc Hs. unfold execute_action. rewrite Hu.
  unfold bind, query. cbv beta iota.
  rewrite E. apply String.eqb_eq in Hc. rewrite Hc.
  apply String.eqb_eq in Hs. now rewrite Hs.
Qed.

(** A successful call is a call on a pending action of that customer. *)
Lemma execute_action_true_inv to_uuid action_id customer_id w w1 :
  execute_action to_uuid action_id customer_id w = (Ok true, w1) ->
  exists uuid a,
    to_uuid action_id = Some uuid
    /\ retention_actions (db w) !! uuid = Some a
    /\ ra_customer_id a = customer_id
    /\ ra_status a = "pending"
    /\ retention_actions (db w1)
       = <[uuid := executed a (clock w (ticks w))]>
           (retention_actions (db w)).
Proof.
  intros H.
  destruct (to_uuid action_id) as [uuid|] eqn:Hu.
  2: { rewrite execute_action_malformed in H by assumption. discriminate. }
  destruct (retention_actions (db w) !! uuid) as [a|] eqn:E.
  2: { rewrite (execute_action_not_found _ _ _ _ uuid) in H;
         [discriminate|assumption|].
       intros a Ha. congruence. }
  destruct (String.eqb_spec (ra_customer_id a) customer_id) as [Hc|Hc].
  2: { rewrite (execute_action_not_found _ _ _ _ uuid) in H;
         [discriminate|assumption|].
       intros a' Ha'. congruence. }
  destruct (String.eqb_spec (ra_status a) "pending") as [Hs|Hs].
  2: { rewrite (execute_action_not_pending _ _ _ _ uuid a) in H
         by assumption.
       discriminate. }
  rewrite (execute_action_pending _ _ _ _ uuid a) in H by assumption.
  injection H as <-. now exists uuid, a.
Qed.

(** No call of [execute_action] takes an action out of the executed state. *)
Lemma executed_is_final to_uuid uuid w action_id' customer_id' :
  ra_status <$> retention_actions (db w) !! uuid = Some "executed" ->
  ra_status <$>
    retention_actions
      (db (snd (execute_action to_uuid action_id' customer_id' w)))
      !! uuid
  = Some "executed".
Proof.
  intros Hex.
  destruct (to_uuid action_id') as [uuid'|] eqn:Hu.
  2: { now rewrite execute_action_malformed by assumption. }
  destruct (retention_actions (db w) !! uuid') as [a'|] eqn:E.
  2: { rewrite (execute_action_not_found _ _ _ _ uuid');
         [exact Hex|assumption|].
       intros a Ha. congruence. }
  destruct (String.eqb_spec (ra_customer_id a') customer_id') as [Hc|Hc].
  2: { rewrite (execute_action_not_found _ _ _ _ uuid');
         [exact Hex|assumption|].
       intros a Ha. congruence. }
  destruct (String.eqb_spec (ra_status a') "pending") as [Hs|Hs].
  2: { now rewrite (execute_action_not_pending _ _ _ _ uuid' a')
         by assumption. }
  rewrite (execute_action_pending _ _ _ _ uuid' a') by assumption. simpl.
  destruct (decide (uuid' = uuid)) as [->|Hne].
  - now rewrite lookup_insert_eq.
  - now rewrite lookup_insert_ne.
Qed.

(** C5.  After a successful [execute_action] on an action id the stored
    status of that action is ['executed']; every further call on that id,
    for whatever customer, returns [False] and leaves the store as it is;
    and no call of [execute_action] on any id, well-formed or not, changes
    that status again.  The action is stored under the UUID the id is read
    as. *)
Theorem execute_action_at_most_once to_uuid action_id customer_id w w1 :
  execute_action to_uuid action_id customer_id w = (Ok true, w1) ->
  exists uuid,
    to_uuid action_id = Some uuid
    /\ ra_status <$> retention_actions (db w1) !! uuid = Some "executed"
    /\ (forall customer_id',
          exists w2,
            execute_action to_uuid action_id customer_id' w1 = (Ok false, w2)
            /\ db w2 = db w1)
    /\ (forall action_id' customer_id',
          ra_status <$>
            retention_actions
              (db (snd (execute_action to_uuid action_id' customer_id' w1)))
              !! uuid
          = Some "executed").
Proof.
  intros H.
  destruct (execute_action_true_inv _ _ _ _ _ H)
    as (uuid & a & Hu & E & Hc & Hs & Hw1).
  assert (E1 : retention_actions (db w1) !! uuid
               = Some (executed a (clock w (ticks w))))
    by (rewrite Hw1; apply lookup_insert_eq).
  assert (Hex : ra_status <$> retention_actions (db w1) !! uuid
                = Some "executed") by now rewrite E1.
  exists uuid. split; [exact Hu|]. split; [exact Hex|]. split.
  - intros customer_id'.
    destruct (String.eqb_spec customer_id customer_id') as [<-|Hne].
    + eexists. split.
      * apply (execute_action_not_pending _ _ _ _ _ _ Hu E1); [exact Hc|].
        discriminate.
      * reflexivity.
    + eexists. split.
      * apply (execute_action_not_found _ _ _ _ _ Hu). intros a' Ha'.
        rewrite E1 in Ha'. injection Ha' as <-. simpl. congruence.
      * reflexivity.
  - intros action_id' customer_id'. now apply executed_is_final.
Qed.

Lemma execute_action_at_most_once_witness :
  let w := example_world pending_action_db in
  let w1 := snd (execute_action example_to_uuid example_action_id "C1" w) in
  exists uuid,
    example_to_uuid example_action_id = Some uuid
    /\ ra_status <$> retention_actions (db w1) !! uuid = Some "executed"
    /\ (forall customer_id',
          exists w2,
            execute_action example_to_uuid example_action_id customer_id' w1
              = (Ok false, w2)
            /\ db w2 = db w1)
    /\ (forall action_id' customer_id',
          ra_status <$>
            retention_actions
              (db (snd (execute_action example_to_uuid action_id'
                          customer_id' w1)))
              !! uuid
          = Some "executed").
Proof.
  intros w w1.
  apply (execute_action_at_most_once example_to_uuid example_action_id "C1"
           w w1).
  unfold w1.
  rewrite (execute_action_pending example_to_uuid example_action_id "C1" w
             example_action_id pending_action);
    reflexivity.
Defined.

(** C6 as stated fails on its first case: for a well-formed id under which
    no action is stored the call returns [False], it raises nothing.  The
    one exception [execute_action] can raise is the store's [DataError], for
    an id that is not a UUID. *)
Lemma execute_action_outcomes_counterexample :
  let w := example_world example_db in
  example_to_uuid example_action_id = Some example_action_id
  /\ retention_actions (db w) !! example_action_id = None
  /\ fst (execute_action example_to_uuid example_action_id "C1" w) = Ok false
  /\ (forall e,
        fst (execute_action example_to_uuid example_action_id "C1" w)
        <> Raise e)
  /\ example_to_uuid "A1" = None
  /\ fst (execute_action example_to_uuid "A1" "C1" w) = Raise DataError.
Proof.
  intros w.
  assert (H : execute_action example_to_uuid example_action_id "C1" w
              = (Ok false, add_log (not_found_record example_action_id) w)).
  { apply (execute_action_not_found _ _ _ _ example_action_id);
      [reflexivity|].
    intros a Ha. discriminate Ha. }
  rewrite H. repeat split. intros e. discriminate.
Qed.

(** C6, as the code has it.  For an [action_id] that is not a UUID the
    lookup raises the store's [DataError] and nothing changes.  For an
    [action_id] that is one, [execute_action] returns [False] after logging
    an error when no action with that id exists for that customer; returns
    [False] after logging a warning when the action exists with a status
    other than ['pending']; and otherwise stores the status ['executed']
    with the current time in [executed_at], logs it and returns [True].  In
    the two failing cases nothing but the log changes. *)
Theorem execute_action_outcomes to_uuid action_id customer_id w :
  (to_uuid action_id = None ->
   execute_action to_uuid action_id customer_id w = (Raise DataError, w))
  /\
  (forall uuid,
     to_uuid action_id = Some uuid ->
     ((forall a, retention_actions (db w) !! uuid = Some a ->
                 ra_customer_id a <> customer_id) ->
      execute_action to_uuid action_id customer_id w
        = (Ok false, add_log (not_found_record action_id) w))
     /\
     (forall a,
        retention_actions (db w) !! uuid = Some a ->
        ra_customer_id a = customer_id ->
        (ra_status a <> "pending" ->
         execute_action to_uuid action_id customer_id w
           = (Ok false, add_log (already_executed_record action_id) w))
        /\
        (ra_status a = "pending" ->
         exists w',
           execute_action to_uuid action_id customer_id w = (Ok true, w')
           /\ retention_actions (db w') !! uuid
              = Some {| ra_customer_id := ra_customer_id a;
                        ra_action_type := ra_action_type a;
                        ra_executed_at := Some (clock w (ticks w));
                        ra_status := "executed";
                        ra_predicted_impact := ra_predicted_impact a |}
           /\ (forall uuid',
                 uuid' <> uuid ->
                 retention_actions (db w') !! uuid'
                 = retention_actions (db w) !! uuid')
           /\ customers (db w') = customers (db w)
           /\ redis w' = redis w))).
Proof.
  split; [apply execute_action_malformed|].
  intros uuid Hu. split; [now apply execute_action_not_found|].
  intros a E Hc. split.
  - now apply (execute_action_not_pending _ _ _ _ uuid a).
  - intros Hs. eexists.
    split; [exact (execute_action_pending _ _ _ _ uuid a Hu E Hc Hs)|].
    simpl. split; [apply lookup_insert_eq|]. split; [|split; reflexivity].
    intros uuid' Hne. now apply lookup_insert_ne.
Qed.

Lemma execute_action_outcomes_witness :
  let w := example_world pending_action_db in
  (exists w',
     execute_action example_to_uuid example_action_id "C1" w = (Ok true, w')
     /\ ra_status <$> retention_actions (db w') !! example_action_id
        = Some "executed")
  /\ execute_action example_to_uuid example_action_id "C2" w
     = (Ok false, add_log (not_found_record example_action_id) w)
  /\ execute_action example_to_uuid "A1" "C1" w = (Raise DataError, w).
Proof.
  intros w.
  destruct (execute_action_outcomes example_to_uuid example_action_id "C1" w)
    as [_ H].
  destruct (H example_action_id eq_refl) as [_ H1].
  destruct (H1 pending_action eq_refl eq_refl) as [_ Hp].
  destruct (Hp eq_refl) as (w' & Hw' & Hl & _).
  split; [exists w'; split; [exact Hw'|now rewrite Hl]|].
  split.
  - destruct (execute_action_outcomes example_to_uuid example_action_id
                "C2" w) as [_ H2].
    destruct (H2 example_action_id eq_refl) as [Hnf _].
    apply Hnf. intros a Ha.
    change (Some pending_action = Some a) in Ha.
    injection Ha as <-. discriminate.
  - destruct (execute_action_outcomes example_to_uuid "A1" "C1" w)
      as [Hm _].
    apply Hm. reflexivity.
Defined.

(** ** Ingestion *)

Lemma fails_raise {A} e : fails (@raise A e).
Proof. intros w. now exists e. Qed.

Lemma fails_bind_l {A B} (m : M A) (k : A -> M B) :
  fails m -> fails (bind m k).
Proof.
  intros Hm w. destruct (Hm w) as [e He]. exists e.
  now apply bind_Raise.
Qed.

Lemma fails_bind_cases {A B} (P : A -> Prop) (m : M A) (k : A -> M B) :
  pure_with P m -> (forall a, P a -> fails (k a)) -> fails (bind m k).
Proof.
  intros Hm Hk w. destruct (Hm w) as [[e He]|(a & Ha & Hw)].
  - exists e. now apply bind_Raise.
  - destruct (Hk a Ha w) as [e He]. exists e.
    now rewrite (bind_Ok _ _ _ _ _ Hw).
Qed.

Lemma pure_subscript event key :
  pure_with (fun v => event !! key = Some v) (subscript event key).
Proof.
  intros w. unfold subscript. destruct (event !! key) as [v|].
  - right. now exists v.
  - left. now eexists.
Qed.

Lemma pure_bind_string n v :
  pure_with (fun x => v = JNull -> x = None) (bind_string n v).
Proof.
  intros w. destruct v; simpl; try destruct (_ <=? _)%nat;
    try (left; now eexists); right; eexists; (split; [|reflexivity]);
    try reflexivity; discriminate.
Qed.

Lemma pure_bind_text v :
  pure_with (fun x => v = JNull -> x = None) (bind_text v).
Proof.
  intros w. destruct v; simpl;
    try (left; now eexists); right; eexists; (split; [|reflexivity]);
    try reflexivity; discriminate.
Qed.

Lemma pure_bind_uuid to_uuid v :
  pure_with (fun x => v = JNull -> x = None) (bind_uuid to_uuid v).
Proof.
  intros w. destruct v; simpl; try destruct (to_uuid _);
    try (left; now eexists); right; eexists; (split; [|reflexivity]);
    try reflexivity; discriminate.
Qed.

Lemma pure_bind_integer v : pure_with (fun _ => True) (bind_integer v).
Proof.
  intros w. destruct v; simpl; try destruct (int32 _);
    try (left; now eexists); right; now eexists.
Qed.

Lemma pure_bind_float v : pure_with (fun _ => True) (bind_float v).
Proof.
  intros w. destruct v; simpl; try destruct (double_range _);
    try (left; now eexists); right; now eexists.
Qed.

Lemma pure_not_null {A} (x : option A) :
  pure_with (fun a => x = Some a) (not_null x).
Proof.
  intros w. destruct x as [a|]; simpl.
  - right. now exists a.
  - left. now eexists.
Qed.

Lemma pure_parse_timestamp fromisoformat v :
  pure_with (fun _ => ~ unparsable fromisoformat v)
            (parse_timestamp fromisoformat v).
Proof.
  intros w. destruct v; simpl; try (left; now eexists).
  destruct (fromisoformat _) as [t|] eqn:E.
  - right. exists t. split; [congruence | reflexivity].
  - left. now eexists.
Qed.

Create HintDb pure.
#[local] Hint Resolve pure_subscript pure_bind_string pure_bind_text
  pure_bind_uuid pure_bind_integer pure_bind_float pure_not_null
  pure_parse_timestamp : pure.

(** Walks down a chain of binds until a step that must raise. *)
Ltac absent_or_null H :=
  unfold get in H;
  match type of H with
  | default JNull ?o = JNull =>
    let E := fresh "E" in
    destruct o eqn:E; simpl in H; [subst|]
  end.

Ltac use_null :=
  repeat match goal with
  | H : JNull = JNull -> _ |- _ => specialize (H eq_refl); subst
  | H : ?v = JNull -> _ |- _ => clear H
  | H : True |- _ => clear H
  | H1 : ?o = Some ?a, H2 : ?o = Some ?b |- _ =>
    rewrite H1 in H2; injection H2 as <-
  | H1 : ?o = Some ?a, H2 : ?o = None |- _ =>
    rewrite H1 in H2; discriminate H2
  | H1 : ~ ?P, H2 : ?P |- _ => destruct (H1 H2)
  | H : ~ True |- _ => destruct (H I)
  end.

Ltac walk :=
  repeat first
    [ apply fails_raise
    | apply fails_bind_l; apply fails_raise
    | match goal with
      | |- fails (bind (bind _ _) _) => apply fails_bind_l
      end
    | eapply fails_bind_cases; [solve [auto with pure]|];
      intros ? ?; cbv beta in *; use_null ].

Lemma handler_fails {A} (body : M A) message w :
  fails body ->
  exists e,
    try_except body
      (fun e => rollback ;;; logger ERROR message (Some e) ;;; raise e) w
    = (Raise e,
       add_log {| log_level := ERROR; log_message := message;
                  log_exc := Some e |} w).
Proof.
  intros Hb. destruct (Hb w) as [e He]. exists e.
  now rewrite (try_except_Raise _ _ _ _ _ He).
Qed.

Ltac field_cases Hk :=
  repeat (apply elem_of_cons in Hk; destruct Hk as [->|Hk]);
  [..|inversion Hk].

Ltac timestamp_cases H :=
  unfold get in H;
  match type of H with
  | unparsable _ (default JNull ?o) =>
    let E := fresh "E" in destruct o eqn:E; simpl in H
  end.

Section Ingestion.
Variable ttl_seconds : Z.
Variable fromisoformat : string -> option datetime.
Variable to_uuid : string -> option string.

Lemma customer_service_event_rejected event :
  (exists k, k ∈ ["customer_id"; "timestamp"; "channel"]
             /\ get event k = JNull)
  \/ unparsable fromisoformat (get event "timestamp") ->
  rejected_by (_process_customer_service_event fromisoformat to_uuid)
    "Error saving customer service interaction: " event.
Proof.
  intros Hbad w. apply handler_fails. clear w. cbv zeta.
  unfold commit_customer_service_interaction.
  destruct Hbad as [(k & Hk & H)|H].
  - field_cases Hk; try rewrite H; absent_or_null H; walk.
  - timestamp_cases H; walk.
Qed.

Lemma stb_telemetry_rejected event :
  (exists k, k ∈ ["device_id"; "customer_id"; "timestamp"; "event_type"]
             /\ get event k = JNull)
  \/ unparsable fromisoformat (get event "timestamp") ->
  rejected_by (_process_stb_telemetry fromisoformat)
    "Error saving STB telemetry: " event.
Proof.
  intros Hbad w. apply handler_fails. clear w. cbv zeta.
  unfold commit_stb_telemetry.
  destruct Hbad as [(k & Hk & H)|H].
  - field_cases Hk; try rewrite H; absent_or_null H; walk.
  - timestamp_cases H; walk.
Qed.

Lemma web_analytics_rejected event :
  (exists k, k ∈ ["session_id"; "timestamp"; "event_name"]
             /\ get event k = JNull)
  \/ unparsable fromisoformat (get event "timestamp") ->
  rejected_by (_process_web_analytics fromisoformat)
    "Error saving web analytics event: " event.
Proof.
  intros Hbad w. apply handler_fails. clear w. cbv zeta.
  unfold commit_web_analytics_event.
  destruct Hbad as [(k & Hk & H)|H].
  - field_cases Hk; try rewrite H; absent_or_null H; walk.
  - timestamp_cases H; walk.
Qed.

Lemma billing_event_rejected event :
  (exists k, k ∈ ["event_type"; "customer_id"; "timestamp";
                  "transaction_id"]
             /\ get event k = JNull)
  \/ unparsable fromisoformat (get event "timestamp") ->
  rejected_by (_process_billing_event fromisoformat)
    "Error saving billing event: " event.
Proof.
  intros Hbad w. apply handler_fails. clear w. cbv zeta.
  unfold commit_billing_event.
  destruct Hbad as [(k & Hk & H)|H].
  - field_cases Hk; try rewrite H; absent_or_null H; walk.
  - timestamp_cases H; walk.
Qed.
End Ingestion.

Lemma consume_position callback records :
  forall position w,
    fst (consume callback records position w)
    = Ok (position + length records)%nat.
Proof.
  induction records as [|r records IH]; intros position w; simpl.
  - f_equal. lia.
  - unfold bind, try_except.
    destruct (callback _ _ _ w) as [[[]|e] w1]; simpl;
      rewrite IH; f_equal; lia.
Qed.

(** C9 as stated fails.  A web-analytics event without [customer_id] is
    stored; and an event that is rejected (a customer-service event without
    [customer_id]) raises nothing to the consumer, whose position moves past
    it: the event is acknowledged, not redelivered. *)
Lemma process_event_rejects_counterexample :
  let w := example_world example_db in
  let run := process_event 300 example_fromisoformat example_to_uuid in
  (anonymous_web_event !! "customer_id" = None
   /\ fst (run "web-analytics-events" anonymous_web_event None w) = Ok tt
   /\ map web_session_id
         (web_analytics_events
            (db (snd (run "web-analytics-events" anonymous_web_event None w))))
       = ["S1"])
  /\ (anonymous_service_event !! "customer_id" = None
      /\ fst (run "customer-service-events" anonymous_service_event None w)
         = Ok tt
      /\ fst (consume run
                [{| cr_topic := "customer-service-events";
                    cr_value := anonymous_service_event;
                    cr_key := None |}] 0%nat w)
         = Ok 1%nat).
Proof.
  vm_compute. repeat split.
Qed.

(** C9, as the code has it.  For an event of one of the four topics with an
    enforced field absent or null, or with a timestamp that does not parse,
    [process_event] stores nothing: the store and the cache are unchanged,
    the handler and [process_event] each log the error, and the call returns
    normally; the consumer moves past the event. *)
Theorem process_event_rejects ttl_seconds fromisoformat to_uuid topic message
    key w position :
  invalid_event fromisoformat topic message ->
  exists e handler_message w',
    process_event ttl_seconds fromisoformat to_uuid topic message key w
    = (Ok tt, w')
    /\ w' = add_log (process_event_error topic e)
               (add_log {| log_level := ERROR;
                           log_message := handler_message;
                           log_exc := Some e |} w)
    /\ db w' = db w /\ redis w' = redis w
    /\ fst (consume (process_event ttl_seconds fromisoformat to_uuid)
              [{| cr_topic := topic; cr_value := message; cr_key := key |}]
              position w)
       = Ok (S position).
Proof.
  intros Hbad.
  assert (Hh : exists e handler_message,
             process_event ttl_seconds fromisoformat to_uuid topic message key w
             = (Ok tt,
                add_log (process_event_error topic e)
                  (add_log {| log_level := ERROR;
                              log_message := handler_message;
                              log_exc := Some e |} w))).
  { unfold invalid_event, enforced_fields in Hbad. unfold process_event.
    destruct (contains "customer-service-events" topic);
      [|destruct (contains "stb-telemetry-events" topic);
        [|destruct (contains "web-analytics-events" topic);
          [|destruct (contains "billing-events" topic)]]].
    - destruct (customer_service_event_rejected fromisoformat to_uuid message)
        with w
        as [e He]; [tauto|].
      exists e. eexists.
      rewrite (try_except_Raise _ _ _ _ _ (bind_Raise _ _ _ _ _ He)).
      reflexivity.
    - destruct (stb_telemetry_rejected fromisoformat message) with w
        as [e He]; [tauto|].
      exists e. eexists.
      rewrite (try_except_Raise _ _ _ _ _ (bind_Raise _ _ _ _ _ He)).
      reflexivity.
    - destruct (web_analytics_rejected fromisoformat message) with w
        as [e He]; [tauto|].
      exists e. eexists.
      rewrite (try_except_Raise _ _ _ _ _ (bind_Raise _ _ _ _ _ He)).
      reflexivity.
    - destruct (billing_event_rejected fromisoformat message) with w
        as [e He]; [tauto|].
      exists e. eexists.
      rewrite (try_except_Raise _ _ _ _ _ (bind_Raise _ _ _ _ _ He)).
      reflexivity.
    - destruct Hbad as [(k & Hk & _)|[Hne _]]; [inversion Hk | congruence]. }
  destruct Hh as (e & handler_message & Hh).
  exists e, handler_message. eexists. split; [exact Hh|].
  split; [reflexivity|]. split; [reflexivity|]. split; [reflexivity|].
  rewrite consume_position. simpl. f_equal. lia.
Qed.

Lemma process_event_rejects_witness :
  let w := example_world example_db in
  exists e handler_message w',
    process_event 300 example_fromisoformat example_to_uuid
      "customer-service-events" anonymous_service_event None w = (Ok tt, w')
    /\ w' = add_log (process_event_error "customer-service-events" e)
               (add_log {| log_level := ERROR;
                           log_message := handler_message;
                           log_exc := Some e |} w)
    /\ db w' = db w /\ redis w' = redis w
    /\ fst (consume (process_event 300 example_fromisoformat example_to_uuid)
              [{| cr_topic := "customer-service-events";
                  cr_value := anonymous_service_event;
                  cr_key := None |}] 0%nat w)
       = Ok 1%nat.
Proof.
  intros w. apply process_event_rejects.
  left. exists "customer_id". split.
  - apply elem_of_cons. now left.
  - reflexivity.
Defined.

(** ** Batch prediction *)

(** The dictionary of [get_batch_features] has a key for every requested
    customer, known or not, so the [not in features_dict] guard of
    [predict_batch] never fires. *)
Lemma get_batch_features_from_keys ttl_seconds customer_ids :
  forall acc w d w',
    get_batch_features_from ttl_seconds acc customer_ids w = (Ok d, w') ->
    forall cid, cid ∈ customer_ids \/ is_Some (acc !! cid) ->
                is_Some (d !! cid).
Proof.
  induction customer_ids as [|c customer_ids IH]; simpl;
    intros acc w d w' H cid Hcid.
  - injection H as <- _. destruct Hcid as [Hin|Hacc]; [inversion Hin|exact
      Hacc].
  - unfold bind in H.
    destruct (get_customer_features ttl_seconds c true w) as [[f|e] w1];
      [|discriminate].
    apply (IH _ _ _ _ H).
    destruct (decide (cid = c)) as [->|Hne].
    + right. rewrite lookup_insert_eq. now eexists.
    + destruct Hcid as [Hin|Hacc].
      * left. apply elem_of_cons in Hin. now destruct Hin.
      * right. now rewrite lookup_insert_ne.
Qed.

Lemma get_batch_features_keys ttl_seconds customer_ids w d w' :
  get_batch_features ttl_seconds customer_ids w = (Ok d, w') ->
  forall cid, cid ∈ customer_ids -> is_Some (d !! cid).
Proof.
  intros H cid Hcid.
  apply (get_batch_features_from_keys _ _ _ _ _ _ H). now left.
Qed.

Lemma make_response_customer_id customer_id r factors actions w response w' :
  make_response customer_id r factors actions w = (Ok response, w') ->
  resp_customer_id response = customer_id.
Proof.
  unfold make_response, bind, utcnow. cbv beta iota.
  destruct (_ && _); [|discriminate].
  intros H. injection H as <- _. reflexivity.
Qed.

Lemma predict_batch_loop_customer_ids thresholds m features_dict customer_ids :
  (forall cid, cid ∈ customer_ids -> is_Some (features_dict !! cid)) ->
  forall predictions w response w',
    predict_batch_loop thresholds m features_dict predictions customer_ids w
      = (Ok response, w') ->
    map resp_customer_id response
      = map resp_customer_id predictions ++ customer_ids.
Proof.
  induction customer_ids as [|c customer_ids IH]; intros Hkeys acc w res w' H;
    simpl in H.
  - injection H as <- _. now rewrite app_nil_r.
  - destruct (Hkeys c) as [features Hf]; [now left|]. rewrite Hf in H.
    unfold bind at 1 in H.
    destruct (model_loader_predict thresholds m features w)
      as [[r|e] w1]; [|discriminate].
    unfold bind at 1 in H.
    destruct (_extract_risk_factors features (churn_probability r) w1)
      as [[factors|e] w2]; [|discriminate].
    unfold bind at 1 in H.
    destruct (recommend_actions c (churn_probability r) (risk_level r) w2)
      as [[actions|e] w3]; [|discriminate].
    unfold bind at 1 in H.
    destruct (make_response c r factors actions w3)
      as [[response|e] w4] eqn:Hr; [|discriminate].
    apply make_response_customer_id in Hr.
    apply IH in H.
    + rewrite H, map_app. simpl. rewrite Hr, <- app_assoc. reflexivity.
    + intros cid Hcid. apply Hkeys. now right.
Qed.

(** Whenever [predict_batch] answers, it answers with one entry per
    requested customer, in order: no customer is ever skipped. *)
Lemma predict_batch_never_skips ttl_seconds thresholds model customer_ids w
    response w' :
  predict_batch ttl_seconds thresholds model customer_ids w
    = (Ok response, w') ->
  map resp_customer_id (predictions response) = customer_ids.
Proof.
  unfold predict_batch. destruct (negb _); [discriminate|].
  destruct model as [m|]; [|discriminate].
  unfold try_except, bind at 1.
  destruct (get_batch_features ttl_seconds customer_ids w)
    as [[d|e] w1] eqn:Hd; [|discriminate].
  unfold bind.
  destruct (predict_batch_loop thresholds m d [] customer_ids w1)
    as [[res|e] w2] eqn:Hl; [|discriminate].
  unfold ret. intros H. injection H as <- _. simpl.
  apply (predict_batch_loop_customer_ids _ _ _ _
           (get_batch_features_keys _ _ _ _ _ Hd)) in Hl.
  exact Hl.
Qed.

(** C10 does not hold of the code.  A batch request for a customer the
    store does not know is answered with an entry for that customer, scored
    on an empty feature dictionary; the single-customer endpoint answers the
    same customer with status 404. *)
Theorem predict_batch_unknown_customer :
  let w := example_world example_db in
  let model := Some (const_model (1 # 2)) in
  customers (db w) !! "UNKNOWN" = None
  /\ match fst (predict_batch 300 example_thresholds model ["UNKNOWN"] w) with
     | Ok response =>
       map resp_customer_id (predictions response) = ["UNKNOWN"]
       /\ map resp_recommended_actions (predictions response) = [[]]
       /\ total_processed response = 1
     | Raise _ => False
     end
  /\ fst (predict_churn 300 example_thresholds model "UNKNOWN" w)
     = Raise (HTTPException 404).
Proof.
  vm_compute. repeat split.
Qed.

(** * Further properties *)

(** ** Frames *)

Section Keeps.
Context {X : Type} (proj : World -> X).
Hypothesis proj_tick : forall w, proj (tick w) = proj w.
Hypothesis proj_add_log : forall r w, proj (add_log r w) = proj w.

Lemma keeps_ret {A} (a : A) : keeps proj (ret a).
Proof. intros w. reflexivity. Qed.

Lemma keeps_raise {A} e : keeps proj (@raise A e).
Proof. intros w. reflexivity. Qed.

Lemma keeps_query {A} (q : DB -> A) : keeps proj (query q).
Proof. intros w. reflexivity. Qed.

Lemma keeps_utcnow : keeps proj utcnow.
Proof. intros w. apply proj_tick. Qed.

Lemma keeps_logger level message exc : keeps proj (logger level message exc).
Proof. intros w. apply proj_add_log. Qed.

Lemma keeps_bind {A B} (m : M A) (k : A -> M B) :
  keeps proj m -> (forall a, keeps proj (k a)) -> keeps proj (bind m k).
Proof.
  intros Hm Hk w. unfold bind. specialize (Hm w).
  destruct (m w) as [[a|e] w1]; simpl in *; [|exact Hm].
  now rewrite Hk.
Qed.

Lemma keeps_try_except {A} (m : M A) (h : exn -> M A) :
  keeps proj m -> (forall e, keeps proj (h e)) -> keeps proj (try_except m h).
Proof.
  intros Hm Hh w. unfold try_except. specialize (Hm w).
  destruct (m w) as [[a|e] w1]; simpl in *; [exact Hm|].
  now rewrite Hh.
Qed.

Lemma keeps_get_number d key : keeps proj (get_number d key).
Proof.
  unfold get_number. destruct (d !! key) as [[]|];
    auto using @keeps_ret, @keeps_raise.
Qed.

Lemma keeps_sum_buffer_events events :
  forall acc, keeps proj (sum_buffer_events acc events).
Proof.
  induction events as [|e events IH]; intros acc; simpl.
  - apply keeps_ret.
  - destruct (stb_buffer_events e); [apply IH | apply keeps_raise].
Qed.
End Keeps.

Create HintDb keeps.
#[local] Hint Resolve keeps_ret keeps_raise keeps_query keeps_utcnow
  keeps_logger keeps_get_number keeps_sum_buffer_events : keeps.

(** Splits a computation along its binds and branches. *)
Ltac keeps :=
  repeat first
    [ progress cbv zeta
    | apply keeps_bind; [|intros ?]
    | apply keeps_try_except; [|intros ?]
    | solve [auto with keeps]
    | match goal with
      | |- keeps _ (match ?x with _ => _ end) => destruct x
      | |- keeps _ (if ?x then _ else _) => destruct x
      end ].

Section KeepsFeatures.
Context {X : Type} (proj : World -> X).
Hypothesis proj_tick : forall w, proj (tick w) = proj w.
Hypothesis proj_add_log : forall r w, proj (add_log r w) = proj w.

Lemma keeps_compute_features customer_id :
  keeps proj (_compute_features customer_id).
Proof.
  unfold _compute_features, _compute_demographic_features,
    _compute_service_features, _compute_stb_features, _compute_web_features,
    _compute_billing_features, _compute_behavioral_features,
    _compute_stb_features, _compute_web_features.
  keeps.
Qed.

Lemma keeps_recommend_actions customer_id p level :
  keeps proj (recommend_actions customer_id p level).
Proof. unfold recommend_actions. keeps. Qed.

Lemma keeps_extract_risk_factors features p :
  keeps proj (_extract_risk_factors features p).
Proof. unfold _extract_risk_factors. keeps. Qed.
End KeepsFeatures.

(** ** The online cache *)

Lemma redis_get_hit key w f expires_at :
  redis w !! key = Some (f, expires_at) ->
  redis_now w < expires_at ->
  redis_get key w = (Ok (Some f), w).
Proof.
  intros E Hlt. unfold redis_get. rewrite E.
  apply Z.ltb_lt in Hlt. now rewrite Hlt.
Qed.

(** A read that finds a live entry returns it and touches nothing: no
    query, no clock reading, no log record. *)
Lemma get_customer_features_hit ttl_seconds customer_id w f expires_at :
  redis w !! ("features:" +:+ customer_id) = Some (f, expires_at) ->
  redis_now w < expires_at ->
  get_customer_features ttl_seconds customer_id true w = (Ok f, w).
Proof.
  intros E Hlt. unfold get_customer_features.
  now rewrite (bind_Ok _ _ _ _ _ (redis_get_hit _ _ _ _ E Hlt)).
Qed.

Lemma compute_features_clock customer_id w :
  clock (snd (_compute_features customer_id w)) = clock w.
Proof. now apply (keeps_compute_features clock). Qed.

Lemma compute_features_redis customer_id w :
  redis (snd (_compute_features customer_id w)) = redis w.
Proof. now apply (keeps_compute_features redis). Qed.

Lemma compute_features_db customer_id w :
  db (snd (_compute_features customer_id w)) = db w.
Proof. now apply (keeps_compute_features db). Qed.

(** After a successful cached read the returned vector is in the cache,
    live when the time to live is positive. *)
Lemma get_customer_features_fills ttl_seconds customer_id w f w1 :
  0 < ttl_seconds ->
  get_customer_features ttl_seconds customer_id true w = (Ok f, w1) ->
  exists expires_at,
    redis w1 !! ("features:" +:+ customer_id) = Some (f, expires_at)
    /\ redis_now w1 < expires_at.
Proof.
  intros Httl H. unfold get_customer_features in H.
  unfold bind at 1 in H. unfold redis_get in H. cbv beta iota in H.
  destruct (redis w !! ("features:" +:+ customer_id))
    as [[f0 expires_at]|] eqn:E.
  - destruct (redis_now w <? expires_at) eqn:Hlt.
    + injection H as <- <-. exists expires_at. split; [exact E|].
      now apply Z.ltb_lt.
    + unfold bind at 1 in H.
      destruct (_compute_features customer_id w) as [[f1|e] w0];
        [|discriminate].
      injection H as <- <-. eexists. split; [apply lookup_insert_eq|].
      unfold redis_now. simpl. lia.
  - unfold bind at 1 in H.
    destruct (_compute_features customer_id w) as [[f1|e] w0];
      [|discriminate].
    injection H as <- <-. eexists. split; [apply lookup_insert_eq|].
    unfold redis_now. simpl. lia.
Qed.

(** X1.  Read-through caching.  With a positive time to live, after a
    successful [get_customer_features] a repeated read at the same time
    returns the same vector from the cache and changes nothing, whatever the
    store holds by then. *)
Theorem get_customer_features_cached ttl_seconds customer_id w f w1 :
  0 < ttl_seconds ->
  get_customer_features ttl_seconds customer_id true w = (Ok f, w1) ->
  forall w2,
    redis w2 = redis w1 -> redis_now w2 <= redis_now w1 ->
    get_customer_features ttl_seconds customer_id true w2 = (Ok f, w2).
Proof.
  intros Httl H w2 Hr Hnow.
  destruct (get_customer_features_fills _ _ _ _ _ Httl H)
    as (expires_at & E & Hlt).
  apply (get_customer_features_hit _ _ _ _ expires_at).
  - now rewrite Hr.
  - lia.
Qed.

(** An unknown customer is cached as the empty vector: created in the store
    right after, the customer is still not found by a cached read. *)
Lemma get_customer_features_cached_witness :
  let w := example_world empty_db in
  let w1 := snd (get_customer_features 300 "C1" true w) in
  let w2 := set_db example_db w1 in
  get_customer_features 300 "C1" true w2 = (Ok ∅, w2).
Proof.
  intros w w1 w2.
  apply (get_customer_features_cached 300 "C1" w ∅ w1).
  - lia.
  - reflexivity.
  - reflexivity.
  - reflexivity.
Defined.

(** X2.  [update_customer_features] either stores the freshly computed
    vector, so that a read at the same time returns it, or raises and leaves
    the cache as it was. *)
Theorem update_customer_features_refreshes ttl_seconds customer_id w :
  0 < ttl_seconds ->
  (exists f w1,
     fst (_compute_features customer_id w) = Ok f
     /\ update_customer_features ttl_seconds customer_id w = (Ok tt, w1)
     /\ get_customer_features ttl_seconds customer_id true w1 = (Ok f, w1))
  \/ (exists e w1,
        update_customer_features ttl_seconds customer_id w = (Raise e, w1)
        /\ redis w1 = redis w).
Proof.
  intros Httl. unfold update_customer_features, bind.
  pose proof (compute_features_redis customer_id w) as Hr.
  destruct (_compute_features customer_id w) as [[f|e] w0]; simpl in *.
  - left. exists f. eexists. split; [reflexivity|]. split; [reflexivity|].
    eapply get_customer_features_hit.
    + apply lookup_insert_eq.
    + unfold redis_now. simpl. lia.
  - right. now exists e, w0.
Qed.

Lemma update_customer_features_refreshes_witness :
  let w := example_world example_db in
  (exists f w1,
     fst (_compute_features "C1" w) = Ok f
     /\ update_customer_features 300 "C1" w = (Ok tt, w1)
     /\ get_customer_features 300 "C1" true w1 = (Ok f, w1))
  \/ (exists e w1,
        update_customer_features 300 "C1" w = (Raise e, w1)
        /\ redis w1 = redis w).
Proof. apply update_customer_features_refreshes. lia. Defined.

(** ** The parts of a feature vector *)

Lemma demographic_features_shape customer w :
  exists tenure contract w2,
    _compute_demographic_features customer w
      = (Ok (demographic_dict
               (customer_segment customer)
               (or_str (age_range customer) "unknown")
               (or_int (household_size customer) 0)
               (or_str (estimated_income customer) "unknown")
               tenure
               (or_float (monthly_recurring_revenue customer) 0)
               (or_float (lifetime_value customer) 0)
               (match auto_renew customer with Some true => 1 | _ => 0 end)
               contract), w2)
    /\ db w2 = db w /\ clock w2 = clock w
    /\ (contract_end_date customer = None -> contract = 999).
Proof.
  unfold _compute_demographic_features, bind, utcnow, ret.
  destruct (account_created_date customer), (contract_end_date customer);
    simpl; do 3 eexists; (split; [reflexivity|]); repeat split;
    discriminate.
Qed.

(** The outcome of [_compute_features] for a known customer, with the
    outcome of each aggregator. *)
Lemma compute_features_parts customer_id w customer :
  customers (db w) !! customer_id = Some customer ->
  let now := clock w (ticks w) in
  exists tenure contract w2 a3 b3 c3 d3 e3 a2 b2 c2 a4 b4 c4 d4,
    db w2 = db w /\
    (contract_end_date customer = None -> contract = 999) /\
    _compute_service_features customer_id now w2
      = (Ok (service_dict a3 b3 c3 d3 e3), w2) /\
    _compute_web_features customer_id now w2
      = (Ok (web_dict a2 b2 c2), w2) /\
    _compute_billing_features customer_id now w2
      = (Ok (billing_dict a4 b4 c4 d4), w2) /\
    ((_compute_stb_features customer_id now w2 = (Raise TypeError, w2)
      /\ _compute_features customer_id w = (Raise TypeError, w2))
     \/
     (exists a1 b1 c1 d1 e r,
        _compute_stb_features customer_id now w2
          = (Ok (stb_dict a1 b1 c1 d1), w2) /\
        _compute_features customer_id w
          = (Ok (behavioral_dict e r
                 ∪ (billing_dict a4 b4 c4 d4
                    ∪ (web_dict a2 b2 c2
                       ∪ (stb_dict a1 b1 c1 d1
                          ∪ (service_dict a3 b3 c3 d3 e3
                             ∪ (demographic_dict
                                  (customer_segment customer)
                                  (or_str (age_range customer) "unknown")
                                  (or_int (household_size customer) 0)
                                  (or_str (estimated_income customer)
                                          "unknown")
                                  tenure
                                  (or_float
                                     (monthly_recurring_revenue customer) 0)
                                  (or_float (lifetime_value customer) 0)
                                  (match auto_renew customer with
                                   | Some true => 1
                                   | _ => 0
                                   end)
                                  contract
                                ∪ ∅)))))), w2))).
Proof.
  intros Hc now.
  set (w1 := tick w).
  assert (Hnow : utcnow w = (Ok now, w1)) by reflexivity.
  assert (Hq : query (fun d => customers d !! customer_id) w1
               = (Ok (Some customer), w1)).
  { unfold query. simpl. now rewrite Hc. }
  destruct (demographic_features_shape customer w1)
    as (tenure & contract & w2 & Hdemo & Hdb & _ & Hcontract).
  destruct (service_features_run customer_id now w2)
    as (a3 & b3 & c3 & d3 & e3 & _ & Hsvc).
  destruct (web_features_run customer_id now w2)
    as (a2 & b2 & c2 & _ & Hweb).
  destruct (billing_features_run customer_id now w2)
    as (a4 & b4 & c4 & d4 & _ & Hbill).
  exists tenure, contract, w2, a3, b3, c3, d3, e3, a2, b2, c2, a4, b4, c4, d4.
  repeat (split; [assumption|]).
  destruct (stb_features_run customer_id now w2)
    as [(a1 & b1 & c1 & d1 & Hstb)|Hstb].
  - right. exists a1, b1, c1, d1.
    exists (py_min (d1 / 100) 1 * (1 # 2)
            + py_min (inject_Z a2 / 30) 1 * (1 # 2))%Q.
    exists (py_min (inject_Z c3 / 5) 1 * (3 # 10)
            + py_min (inject_Z a4 / 3) 1 * (4 # 10)
            + py_min (inject_Z c4 / 30) 1 * (3 # 10))%Q.
    split; [exact Hstb|].
    unfold _compute_features.
    rewrite (bind_Ok _ _ _ _ _ Hnow). cbv beta.
    rewrite (bind_Ok _ _ _ _ _ Hq). cbv beta iota zeta.
    rewrite (bind_Ok _ _ _ _ _ Hdemo). cbv beta zeta.
    rewrite (bind_Ok _ _ _ _ _ Hsvc). cbv beta zeta.
    rewrite (bind_Ok _ _ _ _ _ Hstb). cbv beta zeta.
    rewrite (bind_Ok _ _ _ _ _ Hweb). cbv beta zeta.
    rewrite (bind_Ok _ _ _ _ _ Hbill). cbv beta zeta.
    rewrite (bind_Ok _ _ _ _ _
               (behavioral_features_run _ customer _ _ _ _ _ _ _ _ _ _ _ _ _ _
                  _ _ _ _ Hstb Hweb Hsvc Hbill)).
    reflexivity.
  - left. split; [exact Hstb|].
    unfold _compute_features.
    rewrite (bind_Ok _ _ _ _ _ Hnow). cbv beta.
    rewrite (bind_Ok _ _ _ _ _ Hq). cbv beta iota zeta.
    rewrite (bind_Ok _ _ _ _ _ Hdemo). cbv beta zeta.
    rewrite (bind_Ok _ _ _ _ _ Hsvc). cbv beta zeta.
    rewrite (bind_Raise _ _ _ _ _ Hstb). reflexivity.
Qed.

(** X3.  The feature vector of a known customer is dense: whatever the
    customer's row and events, it has exactly the 27 feature names as keys;
    the only other outcome is a [TypeError], and only when a telemetry row
    of the window has no [buffer_events]. *)
Theorem compute_features_dense customer_id w customer :
  customers (db w) !! customer_id = Some customer ->
  (exists fv,
     fst (_compute_features customer_id w) = Ok fv
     /\ dom fv = list_to_set feature_names)
  \/ (fst (_compute_features customer_id w) = Raise TypeError
      /\ exists e,
           e ∈ stb_telemetry (db w)
           /\ stb_customer_id e = customer_id
           /\ clock w (ticks w) - timedelta 30 <= stb_timestamp e
           /\ stb_buffer_events e = None).
Proof.
  intros Hc.
  destruct (compute_features_parts customer_id w customer Hc)
    as (tenure & contract & w2 & a3 & b3 & c3 & d3 & e3 & a2 & b2 & c2
        & a4 & b4 & c4 & d4 & Hdb & _ & _ & _ & _ & Hrun).
  destruct Hrun as [[Hstb Hr]|(a1 & b1 & c1 & d1 & e & r & _ & Hr)].
  - right. rewrite Hr. split; [reflexivity|].
    destruct (decide (Forall (fun e => is_Some (stb_buffer_events e))
                        (filter (fun e => stb_customer_id e = customer_id
                                          /\ clock w (ticks w) - timedelta 30
                                             <= stb_timestamp e)
                                (stb_telemetry (db w))))) as [Hall|Hex].
    + exfalso.
      destruct (stb_features_total customer_id (clock w (ticks w)) w2)
        as (a1 & b1 & c1 & d1 & Hs); [|congruence].
      rewrite Hdb. intros e He Hcid Ht.
      rewrite List.Forall_forall in Hall. apply Hall.
      apply list_elem_of_In, list_elem_of_filter. now split.
    + apply not_Forall_Exists in Hex; [|intros x; apply _].
      apply List.Exists_exists in Hex. destruct Hex as (e & He & Hn).
      apply list_elem_of_In, list_elem_of_filter in He.
      destruct He as [[Hcid Ht] He].
      exists e. repeat split; try assumption.
      destruct (stb_buffer_events e) as [n|] eqn:Eb; [|reflexivity].
      exfalso. apply Hn. rewrite Eb. now exists n.
  - left. eexists. rewrite Hr. split; [reflexivity|].
    rewrite !dom_union_L. unfold dict. rewrite !dom_list_to_map_L.
    unfold feature_names. cbn [fmap list_fmap fst].
    set_solver.
Qed.

Lemma compute_features_dense_witness :
  let w := example_world negative_overdue_db in
  (exists fv,
     fst (_compute_features "C1" w) = Ok fv
     /\ dom fv = list_to_set feature_names)
  \/ (fst (_compute_features "C1" w) = Raise TypeError
      /\ exists e,
           e ∈ stb_telemetry (db w)
           /\ stb_customer_id e = "C1"
           /\ clock w (ticks w) - timedelta 30 <= stb_timestamp e
           /\ stb_buffer_events e = None).
Proof.
  intros w. apply (compute_features_dense "C1" w example_customer).
  reflexivity.
Defined.

(** ** What a feature vector depends on *)

Section View.
Variable c : string.
Variable t : datetime.

Lemma same_view_frame w w' w1 w1' :
  same_view c t w w' ->
  db w1 = db w -> clock w1 = clock w ->
  db w1' = db w' -> clock w1' = clock w' ->
  same_view c t w1 w1'.
Proof.
  unfold same_view, clock_is. intros H D C D' C'.
  rewrite D, C, D', C'. exact H.
Qed.

Lemma view_ret {A} (P : A -> Prop) a : P a -> view_fn c t P (ret a).
Proof.
  intros Ha w w' H. split; [reflexivity|]. split; [exact H|].
  intros a' E. injection E as <-. exact Ha.
Qed.

Lemma view_raise {A} (P : A -> Prop) e : view_fn c t P (@raise A e).
Proof.
  intros w w' H. split; [reflexivity|]. split; [exact H|]. discriminate.
Qed.

Lemma view_logger level message exc :
  view_fn c t (fun _ => True) (logger level message exc).
Proof.
  intros w w' H. split; [reflexivity|]. split; [|trivial].
  now apply (same_view_frame w w').
Qed.

Lemma view_utcnow : view_fn c t (fun now => now = t) utcnow.
Proof.
  intros w w' H. pose proof H as (Hw & Hw' & _). split; [|split].
  - unfold utcnow. simpl. now rewrite Hw, Hw'.
  - now apply (same_view_frame w w').
  - unfold utcnow. simpl. intros a E. injection E as <-. apply Hw.
Qed.

Lemma view_bind {A B} (P : A -> Prop) (Q : B -> Prop) (m : M A)
    (k : A -> M B) :
  view_fn c t P m -> (forall a, P a -> view_fn c t Q (k a)) ->
  view_fn c t Q (bind m k).
Proof.
  intros Hm Hk w w' H. destruct (Hm w w' H) as (Hr & Hv & HP).
  unfold bind.
  destruct (m w) as [[a|e] w1], (m w') as [[a'|e'] w1'];
    simpl in *; try congruence.
  - injection Hr as <-. apply (Hk a (HP a eq_refl)). exact Hv.
  - split; [congruence|]. split; [exact Hv | discriminate].
Qed.

Lemma view_weaken {A} (P Q : A -> Prop) (m : M A) :
  (forall a, P a -> Q a) -> view_fn c t P m -> view_fn c t Q m.
Proof.
  intros HPQ Hm w w' H. destruct (Hm w w' H) as (Hr & Hv & HP).
  split; [exact Hr|]. split; [exact Hv|]. auto.
Qed.

Lemma view_query {A} (q : DB -> A) :
  (forall w w', same_view c t w w' -> q (db w) = q (db w')) ->
  view_fn c t (fun _ => True) (query q).
Proof.
  intros Hq w w' H. split; [|split; [exact H | trivial]].
  unfold query. simpl. now rewrite (Hq w w' H).
Qed.

Lemma view_get_number d key : view_fn c t (fun _ => True) (get_number d key).
Proof.
  unfold get_number.
  destruct (d !! key) as [[]|]; (now apply view_ret) || apply view_raise.
Qed.

Lemma view_sum_buffer_events events :
  forall acc, view_fn c t (fun _ => True) (sum_buffer_events acc events).
Proof.
  induction events as [|e events IH]; intros acc; simpl.
  - now apply view_ret.
  - destruct (stb_buffer_events e); [apply IH | apply view_raise].
Qed.

Lemma view_service_features :
  view_fn c t (fun _ => True) (_compute_service_features c t).
Proof.
  unfold _compute_service_features. cbv zeta.
  apply (view_bind (fun _ => True)).
  - apply view_query. now intros w w' (_ & _ & _ & H & _).
  - intros [|i0 rest] _; now apply view_ret.
Qed.

Lemma view_stb_features :
  view_fn c t (fun _ => True) (_compute_stb_features c t).
Proof.
  unfold _compute_stb_features. cbv zeta.
  apply (view_bind (fun _ => True)).
  - apply view_query. now intros w w' (_ & _ & _ & _ & H & _).
  - intros [|e0 rest] _; [now apply view_ret|].
    apply (view_bind (fun _ => True)); [apply view_sum_buffer_events|].
    intros n _. now apply view_ret.
Qed.

Lemma view_web_features :
  view_fn c t (fun _ => True) (_compute_web_features c t).
Proof.
  unfold _compute_web_features. cbv zeta.
  apply (view_bind (fun _ => True)).
  - apply view_query. now intros w w' (_ & _ & _ & _ & _ & H & _).
  - intros [|e0 rest] _; now apply view_ret.
Qed.

Lemma view_billing_features :
  view_fn c t (fun _ => True) (_compute_billing_features c t).
Proof.
  unfold _compute_billing_features. cbv zeta.
  apply (view_bind (fun _ => True)).
  - apply view_query. intros w w' (_ & _ & _ & _ & _ & _ & H).
    now rewrite H.
  - intros [|e0 rest] _; now apply view_ret.
Qed.

Lemma view_demographic_features customer :
  view_fn c t (fun _ => True) (_compute_demographic_features customer).
Proof.
  unfold _compute_demographic_features.
  apply (view_bind (fun _ => True)).
  { destruct (account_created_date customer); [|now apply view_ret].
    apply (view_bind (fun now => now = t)); [apply view_utcnow|].
    intros now _. now apply view_ret. }
  intros tenure _. apply (view_bind (fun _ => True)).
  { destruct (contract_end_date customer); [|now apply view_ret].
    apply (view_bind (fun now => now = t)); [apply view_utcnow|].
    intros now _. now apply view_ret. }
  intros contract _. now apply view_ret.
Qed.

Lemma view_behavioral_features customer :
  view_fn c t (fun _ => True) (_compute_behavioral_features c customer t).
Proof.
  unfold _compute_behavioral_features.
  apply (view_bind (fun _ => True)); [apply view_stb_features|]. intros ? _.
  apply (view_bind (fun _ => True)); [apply view_web_features|]. intros ? _.
  apply (view_bind (fun _ => True)); [apply view_get_number|]. intros ? _.
  apply (view_bind (fun _ => True)); [apply view_get_number|]. intros ? _.
  cbv zeta.
  apply (view_bind (fun _ => True)); [apply view_service_features|].
  intros ? _.
  apply (view_bind (fun _ => True)); [apply view_billing_features|].
  intros ? _.
  apply (view_bind (fun _ => True)); [apply view_get_number|]. intros ? _.
  apply (view_bind (fun _ => True)); [apply view_get_number|]. intros ? _.
  apply (view_bind (fun _ => True)); [apply view_get_number|]. intros ? _.
  cbv zeta. now apply view_ret.
Qed.

Lemma view_compute_features :
  view_fn c t (fun _ => True) (_compute_features c).
Proof.
  unfold _compute_features.
  apply (view_bind (fun now => now = t)); [apply view_utcnow|].
  intros now ->.
  apply (view_bind (fun _ => True)).
  { apply view_query. now intros w w' (_ & _ & H & _). }
  intros [customer|] _.
  - cbv zeta.
    apply (view_bind (fun _ => True)); [apply view_demographic_features|].
    intros ? _.
    apply (view_bind (fun _ => True)); [apply view_service_features|].
    intros ? _.
    apply (view_bind (fun _ => True)); [apply view_stb_features|].
    intros ? _.
    apply (view_bind (fun _ => True)); [apply view_web_features|].
    intros ? _.
    apply (view_bind (fun _ => True)); [apply view_billing_features|].
    intros ? _.
    apply (view_bind (fun _ => True)); [apply view_behavioral_features|].
    intros ? _. now apply view_ret.
  - apply (view_bind (fun _ => True)); [apply view_logger|].
    intros ? _. now apply view_ret.
Qed.
End View.

(** X4.  The feature vector of a customer at as-of time [t] depends only on
    the customer's own row and on the customer's own events inside the
    30-day and 90-day windows: two stores that agree on those give the same
    outcome, whatever else they hold (other customers' rows and events,
    events older than the windows, retention actions). *)
Theorem compute_features_isolated customer_id t w w' :
  same_view customer_id t w w' ->
  fst (_compute_features customer_id w)
  = fst (_compute_features customer_id w').
Proof.
  intros H. now apply (view_compute_features customer_id t w w').
Qed.

Lemma compute_features_isolated_witness :
  fst (_compute_features "C1" (example_world negative_overdue_db))
  = fst (_compute_features "C1" (example_world crowded_db)).
Proof.
  apply (compute_features_isolated "C1" (19723 * usec_per_day + 5)).
  split; [intros n; reflexivity|].
  split; [intros n; reflexivity|].
  split; [reflexivity|].
  split; [reflexivity|].
  split; [vm_compute; reflexivity|].
  split; [reflexivity|].
  vm_compute; reflexivity.
Defined.

(** ** Consistency of the aggregates *)

Lemma service_dict_inj a b c d e a' b' c' d' e' :
  service_dict a b c d e = service_dict a' b' c' d' e' ->
  a = a' /\ b = b' /\ c = c' /\ d = d' /\ e = e'.
Proof.
  intros H.
  pose proof (f_equal (fun m => m !! "service_calls_30d") H) as H1.
  pose proof (f_equal (fun m => m !! "avg_sentiment_30d") H) as H2.
  pose proof (f_equal (fun m => m !! "unresolved_calls_30d") H) as H3.
  pose proof (f_equal (fun m => m !! "avg_call_duration_30d") H) as H4.
  pose proof (f_equal (fun m => m !! "days_since_last_call") H) as H5.
  change (Some (VInt a) = Some (VInt a')) in H1.
  change (Some (VFloat b) = Some (VFloat b')) in H2.
  change (Some (VInt c) = Some (VInt c')) in H3.
  change (Some (VFloat d) = Some (VFloat d')) in H4.
  change (Some (VInt e) = Some (VInt e')) in H5.
  repeat split; congruence.
Qed.

Lemma web_dict_inj a b c a' b' c' :
  web_dict a b c = web_dict a' b' c' -> a = a' /\ b = b' /\ c = c'.
Proof.
  intros H.
  pose proof (f_equal (fun m => m !! "web_sessions_30d") H) as H1.
  pose proof (f_equal (fun m => m !! "total_engagement_minutes_30d") H) as H2.
  pose proof (f_equal (fun m => m !! "days_since_last_web_activity") H) as H3.
  change (Some (VInt a) = Some (VInt a')) in H1.
  change (Some (VFloat b) = Some (VFloat b')) in H2.
  change (Some (VInt c) = Some (VInt c')) in H3.
  repeat split; congruence.
Qed.

Lemma service_features_facts customer_id now w a b c d e :
  _compute_service_features customer_id now w
    = (Ok (service_dict a b c d e), w) ->
  0 <= c <= a /\ (a = 0 -> e = 999).
Proof.
  unfold _compute_service_features, bind, query. cbv beta iota zeta.
  destruct (filter _ _) as [|i0 rest]; intros H; unfold ret in H.
  - assert (Heq : service_dict 0 0%Q 0 0%Q 999 = service_dict a b c d e)
      by congruence.
    apply service_dict_inj in Heq. destruct Heq as (<- & _ & <- & _ & <-).
    lia.
  - match type of H with
    | (Ok ?x, _) = _ =>
      assert (Heq : x = service_dict a b c d e) by congruence
    end.
    apply service_dict_inj in Heq. destruct Heq as (<- & _ & <- & _ & _).
    unfold len. split.
    + split; [lia|]. apply inj_le. apply length_filter.
    + simpl length. lia.
Qed.

Lemma web_features_facts customer_id now w a b c :
  _compute_web_features customer_id now w = (Ok (web_dict a b c), w) ->
  0 <= a /\ (a = 0 -> c = 999).
Proof.
  unfold _compute_web_features, bind, query. cbv beta iota zeta.
  destruct (filter _ _) as [|e0 rest]; intros H; unfold ret in H.
  - assert (Heq : web_dict 0 0%Q 999 = web_dict a b c) by congruence.
    apply web_dict_inj in Heq. destruct Heq as (<- & _ & <-). lia.
  - match type of H with
    | (Ok ?x, _) = _ => assert (Heq : x = web_dict a b c) by congruence
    end.
    apply web_dict_inj in Heq. destruct Heq as (<- & _ & _).
    split; [lia|]. intros Hz. exfalso.
    apply Nat2Z.inj_iff with (m := 0%nat) in Hz.
    apply size_empty_inv in Hz.
    assert (Hin : web_session_id e0
                  ∈ (list_to_set (map web_session_id (e0 :: rest))
                     : gset string))
      by (apply elem_of_list_to_set; left).
    rewrite Hz in Hin. now apply elem_of_empty in Hin.
Qed.

(** X5.  In the vector of a known customer the aggregates are consistent:
    the unresolved calls are between 0 and the number of calls, the number
    of web sessions is not negative, "days since" is the default 999 exactly
    when there was nothing to count from, and so is the number of days until
    the end of a contract that has no end date. *)
Theorem aggregates_consistent customer_id w customer fv :
  customers (db w) !! customer_id = Some customer ->
  fst (_compute_features customer_id w) = Ok fv ->
  exists calls unresolved last_call sessions last_web contract,
    fv !! "service_calls_30d" = Some (VInt calls)
    /\ fv !! "unresolved_calls_30d" = Some (VInt unresolved)
    /\ fv !! "days_since_last_call" = Some (VInt last_call)
    /\ fv !! "web_sessions_30d" = Some (VInt sessions)
    /\ fv !! "days_since_last_web_activity" = Some (VInt last_web)
    /\ fv !! "days_until_contract_end" = Some (VInt contract)
    /\ 0 <= unresolved <= calls
    /\ 0 <= sessions
    /\ (calls = 0 -> last_call = 999)
    /\ (sessions = 0 -> last_web = 999)
    /\ (contract_end_date customer = None -> contract = 999).
Proof.
  intros Hc Hfv.
  destruct (compute_features_parts customer_id w customer Hc)
    as (tenure & contract & w2 & a3 & b3 & c3 & d3 & e3 & a2 & b2 & c2
        & a4 & b4 & c4 & d4 & Hdb & Hcontract & Hsvc & Hweb & _ & Hrun).
  destruct Hrun as [[_ Hr]|(a1 & b1 & c1 & d1 & e & r & _ & Hr)];
    rewrite Hr in Hfv; [discriminate|].
  injection Hfv as <-.
  destruct (service_features_facts _ _ _ _ _ _ _ _ Hsvc) as [Hu Hl].
  destruct (web_features_facts _ _ _ _ _ _ Hweb) as [Hs Hlw].
  exists a3, c3, e3, a2, c2, contract.
  split; [do 4 (rewrite lookup_union_r by reflexivity);
          now apply lookup_union_Some_l|].
  split; [do 4 (rewrite lookup_union_r by reflexivity);
          now apply lookup_union_Some_l|].
  split; [do 4 (rewrite lookup_union_r by reflexivity);
          now apply lookup_union_Some_l|].
  split; [do 2 (rewrite lookup_union_r by reflexivity);
          now apply lookup_union_Some_l|].
  split; [do 2 (rewrite lookup_union_r by reflexivity);
          now apply lookup_union_Some_l|].
  split; [do 5 (rewrite lookup_union_r by reflexivity);
          now apply lookup_union_Some_l|].
  auto.
Qed.

Lemma aggregates_consistent_witness :
  let w := example_world negative_overdue_db in
  exists fv calls unresolved last_call,
    fst (_compute_features "C1" w) = Ok fv
    /\ fv !! "service_calls_30d" = Some (VInt calls)
    /\ fv !! "unresolved_calls_30d" = Some (VInt unresolved)
    /\ fv !! "days_since_last_call" = Some (VInt last_call)
    /\ 0 <= unresolved <= calls
    /\ (calls = 0 -> last_call = 999).
Proof.
  intros w.
  destruct (compute_features_total "C1" w example_customer eq_refl)
    as [fv E].
  { intros e He. inversion He. }
  destruct (aggregates_consistent "C1" w example_customer fv eq_refl E)
    as (calls & unresolved & last_call & _ & _ & _ & H1 & H2 & H3 & _ & _
        & _ & H4 & _ & H5 & _).
  exists fv, calls, unresolved, last_call.
  repeat (split; [assumption|]). assumption.
Defined.

(** ** More on recommendations *)

Lemma candidate_actions_length customer p level :
  (1 <= length (candidate_actions customer p level) <= 3)%nat.
Proof.
  unfold candidate_actions, _get_critical_actions, _get_high_risk_actions,
    _get_medium_risk_actions, _get_low_risk_actions.
  destruct (String.eqb level "critical");
    [|destruct (String.eqb level "high");
      [|destruct (String.eqb level "medium")]].
  - destruct (truthy_float (monthly_recurring_revenue customer));
      destruct (truthy_float (lifetime_value customer)) as [ltv|];
      try destruct (Qlt_bool 1000 ltv); cbn [app length]; lia.
  - destruct (truthy_float (monthly_recurring_revenue customer));
      destruct (bool_decide _); cbn [app length]; lia.
  - destruct (truthy_float (monthly_recurring_revenue customer));
      cbn [app length]; lia.
  - cbn [length]. lia.
Qed.

Lemma recommend_actions_known customer_id p level w customer :
  customers (db w) !! customer_id = Some customer ->
  recommend_actions customer_id p level w
  = (Ok (sort_desc Qlt_bool predicted_impact
           (candidate_actions customer p level)), w).
Proof.
  intros Hc. unfold recommend_actions, bind, query, ret. cbv beta iota zeta.
  rewrite Hc. unfold slice_to. rewrite take_ge.
  - unfold candidate_actions.
    destruct (String.eqb level "critical"); [reflexivity|].
    destruct (String.eqb level "high"); [reflexivity|].
    destruct (String.eqb level "medium"); reflexivity.
  - rewrite (Permutation_length (sort_desc_perm _ _ _)).
    pose proof (candidate_actions_length customer p level) as Hl.
    unfold candidate_actions in Hl.
    destruct (String.eqb level "critical"); [cbn [app]; lia|].
    destruct (String.eqb level "high"); [cbn [app]; lia|].
    destruct (String.eqb level "medium"); cbn [app]; lia.
Qed.

(** X6.  For a known customer the recommendations are exactly the candidate
    actions of the risk level, reordered: the cut to the top three never
    drops a candidate, and the list is never empty.  An unknown customer
    gets the empty list.  Either way nothing in the world changes. *)
Theorem recommend_actions_complete customer_id p level w :
  match customers (db w) !! customer_id with
  | Some customer =>
    exists actions,
      recommend_actions customer_id p level w = (Ok actions, w)
      /\ actions ≡ₚ candidate_actions customer p level
      /\ actions <> []
  | None => recommend_actions customer_id p level w = (Ok [], w)
  end.
Proof.
  destruct (customers (db w) !! customer_id) as [customer|] eqn:Hc.
  - eexists. split; [exact (recommend_actions_known _ _ _ _ customer Hc)|].
    split; [apply sort_desc_perm|].
    intros Hnil.
    pose proof (candidate_actions_length customer p level) as Hl.
    rewrite <- (Permutation_length
                  (sort_desc_perm Qlt_bool predicted_impact _)) in Hl.
    rewrite Hnil in Hl. simpl in Hl. lia.
  - unfold recommend_actions, bind, query, ret. cbv beta iota.
    now rewrite Hc.
Qed.

Lemma py_min_le_l a b : (py_min a b <= a)%Q.
Proof. rewrite py_min_Qmin. apply Q.le_min_l. Qed.

Lemma py_min_nonneg a b : (0 <= a -> 0 <= b -> 0 <= py_min a b)%Q.
Proof. intros Ha Hb. rewrite py_min_Qmin. now apply Q.min_glb. Qed.

Lemma bounded_discount p cap k description cost details priority impact :
  details !! "discount_percent" = Some (VFloat (py_min cap (p * k))) ->
  (cap <= 25)%Q -> (0 <= cap)%Q -> (0 <= k)%Q ->
  (0 < impact)%Q -> (impact <= 30 # 100)%Q ->
  bounded_action p
    {| action_type := "discount"; priority := priority;
       description := description; predicted_impact := impact;
       estimated_cost := cost; offer_details := details |}.
Proof.
  intros Hd Hcap Hcap0 Hk Hi Hi'. split; [exact Hi|]. split; [exact Hi'|].
  intros _. eexists. split; [exact Hd|]. split.
  - pose proof (py_min_le_l cap (p * k)). lra.
  - intros Hp. apply py_min_nonneg; [exact Hcap0|].
    now apply Qmult_le_0_compat.
Qed.

Lemma bounded_other p type priority description impact cost details :
  type <> "discount" ->
  (0 < impact)%Q -> (impact <= 30 # 100)%Q ->
  bounded_action p
    {| action_type := type; priority := priority;
       description := description; predicted_impact := impact;
       estimated_cost := cost; offer_details := details |}.
Proof.
  intros Ht Hi Hi'. split; [exact Hi|]. split; [exact Hi'|].
  intros Hd. now destruct Ht.
Qed.

Ltac bounded_actions :=
  cbn [app];
  repeat (apply List.Forall_cons;
          [first [ apply bounded_other; [discriminate|reflexivity|discriminate]
                 | eapply bounded_discount;
                   [reflexivity|discriminate|discriminate|discriminate
                   |reflexivity|discriminate] ]|]);
  apply List.Forall_nil.

Lemma candidate_actions_bounded customer p level :
  Forall (bounded_action p) (candidate_actions customer p level).
Proof.
  unfold candidate_actions, _get_critical_actions, _get_high_risk_actions,
    _get_medium_risk_actions, _get_low_risk_actions.
  destruct (String.eqb level "critical");
    [|destruct (String.eqb level "high");
      [|destruct (String.eqb level "medium")]].
  - destruct (truthy_float (monthly_recurring_revenue customer));
      destruct (truthy_float (lifetime_value customer)) as [ltv|];
      try destruct (Qlt_bool 1000 ltv); bounded_actions.
  - destruct (truthy_float (monthly_recurring_revenue customer));
      destruct (bool_decide _); bounded_actions.
  - destruct (truthy_float (monthly_recurring_revenue customer));
      bounded_actions.
  - bounded_actions.
Qed.

(** X7.  Every recommended action has a predicted impact in (0, 0.30], and
    a recommended discount never exceeds 25% (and is not negative for a
    probability that is not negative), whatever the probability, the risk
    level and the customer. *)
Theorem recommend_actions_bounded customer_id p level w actions :
  fst (recommend_actions customer_id p level w) = Ok actions ->
  Forall (bounded_action p) actions.
Proof.
  destruct (customers (db w) !! customer_id) as [customer|] eqn:Hc.
  - rewrite (recommend_actions_known _ _ _ _ customer Hc). simpl.
    intros H. injection H as <-.
    rewrite sort_desc_perm. apply candidate_actions_bounded.
  - unfold recommend_actions, bind, query, ret. cbv beta iota.
    rewrite Hc. simpl. intros H. injection H as <-. constructor.
Qed.

Lemma recommend_actions_bounded_witness :
  Forall (bounded_action (92 # 100))
    (sort_desc Qlt_bool predicted_impact
       (candidate_actions example_customer (92 # 100) "critical")).
Proof.
  apply (recommend_actions_bounded "C1" (92 # 100) "critical"
           (example_world example_db)).
  rewrite (recommend_actions_known _ _ _ _ example_customer); reflexivity.
Defined.

(** ** What ingestion stores *)

Lemma stores_one_keeps {A} (m : M A) : keeps db m -> stores_one m.
Proof. intros H w. rewrite H. constructor. Qed.

Lemma stores_one_pure {A B} (P : A -> Prop) (m : M A) (k : A -> M B) :
  pure_with P m -> (forall a, stores_one (k a)) -> stores_one (bind m k).
Proof.
  intros Hm Hk w. unfold bind.
  destruct (Hm w) as [[e He]|(a & _ & Ha)].
  - rewrite He. constructor.
  - rewrite Ha. apply Hk.
Qed.

Lemma stores_one_then {A B} (m : M A) (k : A -> M B) :
  stores_one m -> (forall a, keeps db (k a)) -> stores_one (bind m k).
Proof.
  intros Hm Hk w. unfold bind. specialize (Hm w).
  destruct (m w) as [[a|e] w1]; simpl in *; [|exact Hm].
  now rewrite Hk.
Qed.

Lemma stores_one_try_except {A} (m : M A) (h : exn -> M A) :
  stores_one m -> (forall e, keeps db (h e)) ->
  stores_one (try_except m h).
Proof.
  intros Hm Hh w. unfold try_except. specialize (Hm w).
  destruct (m w) as [[a|e] w1]; simpl in *; [exact Hm|].
  now rewrite Hh.
Qed.

Lemma pure_query {A} (q : DB -> A) : pure_with (fun _ => True) (query q).
Proof. intros w. right. now eexists. Qed.

Lemma pure_unique taken : pure_with (fun _ => True) (unique taken).
Proof.
  intros w. destruct taken; [left|right]; now eexists.
Qed.

#[local] Hint Resolve pure_query pure_unique : pure.

Lemma keeps_db_handler message :
  forall e : exn,
    keeps db (rollback ;;; logger ERROR message (Some e) ;;; @raise unit e).
Proof.
  intros e. unfold rollback.
  apply keeps_bind; [now apply keeps_ret|]. intros _.
  apply keeps_bind; [now apply keeps_logger|]. intros _.
  now apply keeps_raise.
Qed.

(** Walks down the pure steps of a handler to its insertion. *)
Ltac stores :=
  repeat first
    [ eapply stores_one_pure; [solve [auto with pure]|]; intros ?
    | intros w; constructor ].

Lemma grown_refl d : grown d d.
Proof. repeat split; reflexivity. Qed.

Lemma grown_trans d1 d2 d3 : grown d1 d2 -> grown d2 d3 -> grown d1 d3.
Proof.
  intros (C1 & R1 & P1 & Q1 & S1 & T1) (C2 & R2 & P2 & Q2 & S2 & T2).
  repeat split; try congruence; etransitivity; eassumption.
Qed.

Lemma stored_grown d d' : stored d d' -> grown d d'.
Proof.
  destruct 1; repeat split; simpl; try reflexivity;
    now apply prefix_app_r.
Qed.

Lemma consume_grown callback records :
  (forall topic message key w,
     grown (db w) (db (snd (callback topic message key w)))) ->
  forall position w,
    grown (db w) (db (snd (consume callback records position w))).
Proof.
  intros Hcb. induction records as [|r records IH]; intros position w; simpl.
  - apply grown_refl.
  - unfold bind, try_except.
    specialize (Hcb (cr_topic r) (cr_value r) (cr_key r) w).
    destruct (callback _ _ _ w) as [[[]|e] w1]; simpl in *.
    + eapply grown_trans; [exact Hcb | apply IH].
    + eapply grown_trans; [exact Hcb|]. apply (IH _ (add_log _ w1)).
Qed.

Section Stores.
Variable ttl_seconds : Z.
Variable fromisoformat : string -> option datetime.
Variable to_uuid : string -> option string.

Lemma stores_customer_service_event event :
  stores_one (_process_customer_service_event fromisoformat to_uuid event).
Proof.
  unfold _process_customer_service_event.
  apply stores_one_try_except; [|apply keeps_db_handler].
  cbv zeta. unfold commit_customer_service_interaction.
  eapply stores_one_pure; [solve [auto with pure]|]; intros ?.
  eapply stores_one_pure; [solve [auto with pure]|]; intros ?.
  eapply stores_one_pure; [solve [auto with pure]|]; intros ?.
  apply stores_one_then; [|intros; now apply keeps_logger].
  stores.
Qed.

Lemma stores_stb_telemetry event :
  stores_one (_process_stb_telemetry fromisoformat event).
Proof.
  unfold _process_stb_telemetry.
  apply stores_one_try_except; [|apply keeps_db_handler].
  unfold commit_stb_telemetry.
  eapply stores_one_pure; [solve [auto with pure]|]; intros ?.
  eapply stores_one_pure; [solve [auto with pure]|]; intros ?.
  eapply stores_one_pure; [solve [auto with pure]|]; intros ?.
  eapply stores_one_pure; [solve [auto with pure]|]; intros ?.
  apply stores_one_then; [|intros; now apply keeps_logger].
  stores.
Qed.

Lemma stores_web_analytics event :
  stores_one (_process_web_analytics fromisoformat event).
Proof.
  unfold _process_web_analytics.
  apply stores_one_try_except; [|apply keeps_db_handler].
  cbv zeta. unfold commit_web_analytics_event.
  eapply stores_one_pure; [solve [auto with pure]|]; intros ?.
  eapply stores_one_pure; [solve [auto with pure]|]; intros ?.
  eapply stores_one_pure; [solve [auto with pure]|]; intros ?.
  apply stores_one_then; [|intros; now apply keeps_logger].
  stores.
Qed.

Lemma stores_billing_event event :
  stores_one (_process_billing_event fromisoformat event).
Proof.
  unfold _process_billing_event.
  apply stores_one_try_except; [|apply keeps_db_handler].
  unfold commit_billing_event.
  eapply stores_one_pure; [solve [auto with pure]|]; intros ?.
  eapply stores_one_pure; [solve [auto with pure]|]; intros ?.
  eapply stores_one_pure; [solve [auto with pure]|]; intros ?.
  eapply stores_one_pure; [solve [auto with pure]|]; intros ?.
  eapply stores_one_pure; [solve [auto with pure]|]; intros ?.
  apply stores_one_then; [|intros; now apply keeps_logger].
  stores.
Qed.

Lemma keeps_db_update_customer_features customer_id :
  keeps db (update_customer_features ttl_seconds customer_id).
Proof.
  unfold update_customer_features.
  apply keeps_bind; [now apply keeps_compute_features|].
  intros f w. reflexivity.
Qed.

(** X9.  Ingestion is append-only.  Whatever the topic, the message and the
    key, [process_event] leaves the store as it was or with exactly one more
    row at the end of one event table.  So after the consumer loop has
    handed any list of records to it, the customers and the retention
    actions are what they were and every event table starts with the rows
    it had, in their order. *)
Theorem ingestion_append_only :
  (forall topic message key w,
     stored (db w)
       (db (snd (process_event ttl_seconds fromisoformat to_uuid topic
                   message key w))))
  /\ (forall records position w,
        grown (db w)
          (db (snd (consume (process_event ttl_seconds fromisoformat to_uuid)
                      records position w)))).
Proof.
  assert (Hone : forall topic message key,
            stores_one
              (process_event ttl_seconds fromisoformat to_uuid topic message
                  key)).
  { intros topic message key. unfold process_event.
    apply stores_one_try_except.
    2: { intros e. now apply keeps_logger. }
    apply stores_one_then.
    - destruct (contains "customer-service-events" topic);
        [apply stores_customer_service_event|].
      destruct (contains "stb-telemetry-events" topic);
        [apply stores_stb_telemetry|].
      destruct (contains "web-analytics-events" topic);
        [apply stores_web_analytics|].
      destruct (contains "billing-events" topic);
        [apply stores_billing_event|].
      apply stores_one_keeps. now apply keeps_logger.
    - intros _. cbv zeta.
      destruct (truthy _); [|now apply keeps_ret].
      destruct (if truthy (get message "customer_id") then _ else _);
        try (now apply keeps_raise).
      apply keeps_db_update_customer_features. }
  split.
  - intros topic message key w. apply Hone.
  - intros records position w. apply consume_grown.
    intros topic message key w0. apply stored_grown, Hone.
Qed.

(** X8.  [process_event] never lets an exception out, so the consumer loop
    runs to the end of the records and ends at the position after the last
    one, without raising. *)
Theorem process_event_never_raises topic message key w records position :
  fst (process_event ttl_seconds fromisoformat to_uuid topic message key w) =
      Ok tt
  /\ fst (consume (process_event ttl_seconds fromisoformat to_uuid) records
            position w)
     = Ok (position + length records)%nat.
Proof.
  split; [|apply consume_position].
  unfold process_event, try_except.
  destruct (bind _ _ w) as [[[]|e] w1]; reflexivity.
Qed.
End Stores.

(** ** Accepted events *)

Lemma bind_assoc {A B C} (m : M A) (k : A -> M B) (k' : B -> M C) w :
  bind (bind m k) k' w = bind m (fun a => bind (k a) k') w.
Proof. unfold bind. now destruct (m w) as [[a|e] w1]. Qed.

Lemma subscript_ret event key v :
  event !! key = Some v -> subscript event key = ret v.
Proof. intros H. unfold subscript. now rewrite H. Qed.







Lemma process_event_db ttl_seconds fromisoformat to_uuid topic message key
    w :
  db (snd (process_event ttl_seconds fromisoformat to_uuid topic message key w))
  = db (snd ((if contains "customer-service-events" topic then
                _process_customer_service_event fromisoformat to_uuid message
              else if contains "stb-telemetry-events" topic then
                _process_stb_telemetry fromisoformat message
              else if contains "web-analytics-events" topic then
                _process_web_analytics fromisoformat message
              else if contains "billing-events" topic then
                _process_billing_event fromisoformat message
              else logger WARNING ("Unknown topic: " +:+ topic) None) w)).
Proof.
  unfold process_event, try_except. unfold bind at 1.
  match goal with
  | |- context [match ?h w with _ => _ end] =>
    destruct (h w) as [[[]|e] w1]
  end; [|reflexivity].
  cbv zeta. cbn [snd].
  match goal with
  | |- context [(if ?b then ?m else ret tt) w1] =>
    assert (Hk : keeps db (if b then m else ret tt))
  end.
  { destruct (truthy _); [|now apply keeps_ret].
    destruct (if truthy (get message "customer_id") then _ else _);
      try (now apply keeps_raise).
    now apply keeps_db_update_customer_features. }
  specialize (Hk w1).
  match goal with
  | |- context [(if ?b then ?m else ret tt) w1] =>
    destruct ((if b then m else ret tt) w1) as [[[]|e] w2]
  end; exact Hk.
Qed.

Section Accepted.
Variable ttl_seconds : Z.
Variable fromisoformat : string -> option datetime.
Variable to_uuid : string -> option string.


End Accepted.


(** ** Redelivered events *)

Lemma fails_at_bind_pure {A B} (P : A -> Prop) (m : M A) (k : A -> M B) w :
  pure_with P m ->
  (forall a, P a -> exists e, k a w = (Raise e, w)) ->
  exists e, bind m k w = (Raise e, w).
Proof.
  intros Hm Hk. destruct (Hm w) as [[e He]|(a & Ha & Hw)].
  - exists e. now apply bind_Raise.
  - destruct (Hk a Ha) as [e He]. exists e.
    now rewrite (bind_Ok _ _ _ _ _ Hw).
Qed.

Lemma fails_at_bind_l {A B} (m : M A) (k : A -> M B) w :
  (exists e, m w = (Raise e, w)) -> exists e, bind m k w = (Raise e, w).
Proof. intros [e He]. exists e. now apply bind_Raise. Qed.

Lemma pure_bind_string_typed n v :
  pure_with (fun x => json_string n v x) (bind_string n v).
Proof.
  intros w. destruct v; simpl; try (left; now eexists).
  - right. eexists. split; [constructor|reflexivity].
  - destruct (Nat.leb_spec (String.length s) n) as [Hle|_].
    + right. eexists. split; [now constructor|reflexivity].
    + left. now eexists.
Qed.

Ltac fails_step :=
  eapply fails_at_bind_pure; [solve [auto with pure]|]; intros ? ?.

Section Redelivered.
Variable ttl_seconds : Z.
Variable fromisoformat : string -> option datetime.
Variable to_uuid : string -> option string.

Lemma billing_handler_duplicate message w transaction_id :
  message !! "transaction_id" = Some (JStr transaction_id) ->
  transaction_id ∈ map bill_transaction_id (billing_events (db w)) ->
  exists e,
    _process_billing_event fromisoformat message w
    = (Raise e,
       add_log {| log_level := ERROR;
                  log_message := "Error saving billing event: ";
                  log_exc := Some e |} w).
Proof.
  intros Htid Hdup. unfold _process_billing_event.
  match goal with
  | |- exists e, try_except ?body _ w = _ =>
    assert (Hb : exists e, body w = (Raise e, w))
  end.
  2: { destruct Hb as [e He]. exists e.
       now rewrite (try_except_Raise _ _ _ _ _ He). }
  do 4 fails_step.
  rewrite (subscript_ret _ _ _ Htid), bind_ret.
  apply fails_at_bind_l. unfold commit_billing_event.
  do 2 fails_step.
  eapply fails_at_bind_pure; [apply pure_bind_string_typed|].
  intros tid Ht. inversion Ht; subst.
  do 5 fails_step.
  do 2 fails_step.
  eapply fails_at_bind_pure; [apply pure_not_null|].
  intros tid' Htid'. injection Htid' as <-.
  unfold bind at 1. unfold query at 1. cbv beta iota.
  rewrite bool_decide_eq_true_2 by exact Hdup.
  now eexists.
Qed.

(** X11.  Billing events are deduplicated by transaction id.  A billing
    event whose [transaction_id] is already in the store is never stored
    again: [process_event] leaves the store exactly as it was. *)
Theorem billing_event_redelivered message key w transaction_id :
  message !! "transaction_id" = Some (JStr transaction_id) ->
  transaction_id ∈ map bill_transaction_id (billing_events (db w)) ->
  db (snd (process_event ttl_seconds fromisoformat to_uuid "billing-events"
             message key w))
  = db w.
Proof.
  intros Htid Hdup. rewrite process_event_db.
  change (contains "customer-service-events" "billing-events") with false.
  change (contains "stb-telemetry-events" "billing-events") with false.
  change (contains "web-analytics-events" "billing-events") with false.
  change (contains "billing-events" "billing-events") with true.
  cbv iota.
  destruct (billing_handler_duplicate message w transaction_id Htid Hdup)
    as [e He].
  now rewrite He.
Qed.
End Redelivered.

(** The event of [billing_event_accepted_witness], delivered a second
    time. *)
Lemma billing_event_redelivered_witness :
  let w1 := snd (process_event 300 example_fromisoformat example_to_uuid
                   "billing-events" negative_overdue_message (Some "C1")
                   (example_world example_db)) in
  db (snd (process_event 300 example_fromisoformat example_to_uuid
             "billing-events" negative_overdue_message (Some "C1") w1))
  = db w1.
Proof.
  intros w1.
  apply (billing_event_redelivered 300 example_fromisoformat example_to_uuid
           negative_overdue_message (Some "C1") w1 "T1").
  - reflexivity.
  - unfold w1. rewrite negative_overdue_db_ingested.
    apply elem_of_cons. now left.
Defined.

Lemma blind_ret {A} (a : A) : world_blind (ret a).
Proof. now exists (Ok a). Qed.

Lemma blind_raise {A} e : world_blind (@raise A e).
Proof. now exists (Raise e). Qed.

Lemma blind_subscript event key : world_blind (subscript event key).
Proof.
  unfold subscript. destruct (event !! key);
    [apply blind_ret | apply blind_raise].
Qed.

Lemma blind_parse_timestamp fromisoformat v :
  world_blind (parse_timestamp fromisoformat v).
Proof.
  unfold parse_timestamp. destruct v; try apply blind_raise.
  destruct (fromisoformat _); [apply blind_ret | apply blind_raise].
Qed.

Lemma blind_bind_string n v : world_blind (bind_string n v).
Proof.
  destruct v; simpl; try destruct (_ <=? _)%nat;
    (apply blind_ret || apply blind_raise).
Qed.

Lemma blind_bind_integer v : world_blind (bind_integer v).
Proof.
  destruct v; simpl; try destruct (int32 _);
    (apply blind_ret || apply blind_raise).
Qed.

Lemma blind_bind_float v : world_blind (bind_float v).
Proof.
  destruct v; simpl; try destruct (double_range _);
    (apply blind_ret || apply blind_raise).
Qed.

Lemma blind_not_null {A} (x : option A) : world_blind (not_null x).
Proof. destruct x; simpl; [apply blind_ret | apply blind_raise]. Qed.

Create HintDb blind.
#[local] Hint Resolve blind_subscript blind_parse_timestamp blind_bind_string
  blind_bind_integer blind_bind_float blind_not_null : blind.

Section InsertsRow.
Context {R : Type} (add : R -> DB -> DB).

Lemma inserts_blind {A B} (m : M A) (k : A -> M B) :
  world_blind m -> (forall a, inserts_row add (k a)) ->
  inserts_row add (bind m k).
Proof.
  intros [[a|e] Hm] Hk.
  - destruct (Hk a) as [res Hres]. exists res. intros w.
    rewrite (bind_Ok _ _ _ _ _ (Hm w)). apply Hres.
  - exists None. intros w. now rewrite (bind_Raise _ _ _ _ _ (Hm w)).
Qed.

Lemma inserts_then {A B} (m : M A) (k : A -> M B) :
  inserts_row add m -> (forall a, keeps db (k a)) ->
  inserts_row add (bind m k).
Proof.
  intros [res Hm] Hk. exists res. intros w. unfold bind.
  specialize (Hm w). destruct (m w) as [[a|e] w1]; simpl in *; [|exact Hm].
  now rewrite Hk.
Qed.

Lemma inserts_try_except {A} (m : M A) (h : exn -> M A) :
  inserts_row add m -> (forall e, keeps db (h e)) ->
  inserts_row add (try_except m h).
Proof.
  intros [res Hm] Hh. exists res. intros w. unfold try_except.
  specialize (Hm w). destruct (m w) as [[a|e] w1]; simpl in *; [exact Hm|].
  now rewrite Hh.
Qed.
End InsertsRow.

Ltac inserts :=
  repeat (apply inserts_blind; [solve [auto with blind]|]; intros ?).

Section Telemetry.
Variable ttl_seconds : Z.
Variable fromisoformat : string -> option datetime.
Variable to_uuid : string -> option string.

Lemma stb_handler_inserts message :
  inserts_row add_stb_telemetry (_process_stb_telemetry fromisoformat message).
Proof.
  unfold _process_stb_telemetry.
  apply inserts_try_except; [|apply keeps_db_handler].
  inserts.
  apply inserts_then; [|intros; now apply keeps_logger].
  unfold commit_stb_telemetry. inserts.
  eexists (Some _). intros w. reflexivity.
Qed.

Lemma add_stb_telemetry_inj r r' d :
  add_stb_telemetry r d = add_stb_telemetry r' d -> r = r'.
Proof.
  intros H. apply (f_equal stb_telemetry) in H. simpl in H.
  apply app_inv_head in H. now injection H.
Qed.

Lemma add_stb_telemetry_neq r d : d <> add_stb_telemetry r d.
Proof.
  intros H. apply (f_equal (fun d => length (stb_telemetry d))) in H.
  simpl in H. rewrite length_app in H. simpl in H. lia.
Qed.

(** X12.  Telemetry is not deduplicated.  Whether a telemetry message is
    stored, and as which row, depends on the message alone: if processing it
    once stored a row, processing it again, in any world and under any key,
    stores the same row once more. *)
Theorem telemetry_redelivered message key w r :
  db (snd (process_event ttl_seconds fromisoformat to_uuid
             "stb-telemetry-events" message key w))
  = add_stb_telemetry r (db w) ->
  forall key' w',
    db (snd (process_event ttl_seconds fromisoformat to_uuid
               "stb-telemetry-events" message key' w'))
    = add_stb_telemetry r (db w').
Proof.
  intros H key' w'. rewrite process_event_db in H |- *.
  change (contains "customer-service-events" "stb-telemetry-events")
    with false in *.
  change (contains "stb-telemetry-events" "stb-telemetry-events")
    with true in *.
  cbv iota in *.
  destruct (stb_handler_inserts message) as [[row|] Hres];
    rewrite Hres in H |- *.
  - now apply add_stb_telemetry_inj in H as ->.
  - now apply add_stb_telemetry_neq in H.
Qed.
End Telemetry.

Lemma telemetry_redelivered_witness :
  let w := example_world example_db in
  let w1 := snd (process_event 300 example_fromisoformat example_to_uuid
                   "stb-telemetry-events" example_telemetry_message
                   (Some "C1") w) in
  stb_telemetry
    (db (snd (process_event 300 example_fromisoformat example_to_uuid
                "stb-telemetry-events"
                example_telemetry_message (Some "C1") w1)))
  = [example_telemetry; example_telemetry].
Proof.
  intros w w1.
  rewrite (telemetry_redelivered 300 example_fromisoformat example_to_uuid
             example_telemetry_message (Some "C1") w example_telemetry).
  - unfold w1.
    rewrite (telemetry_redelivered 300 example_fromisoformat example_to_uuid
               example_telemetry_message (Some "C1") w example_telemetry).
    + reflexivity.
    + vm_compute. reflexivity.
  - vm_compute. reflexivity.
Defined.

(** ** Outcomes of the API *)

Lemma post_ret {A} (P : A -> Prop) S a : P a -> post P S (ret a).
Proof. intros H w. exact H. Qed.

Lemma post_raise {A} (P : A -> Prop) (S : exn -> Prop) e :
  S e -> post P S (@raise A e).
Proof. intros H w. exact H. Qed.

Lemma post_bind {A B} (P : A -> Prop) (Q : B -> Prop) S (m : M A)
    (k : A -> M B) :
  post P S m -> (forall a, P a -> post Q S (k a)) -> post Q S (bind m k).
Proof.
  intros Hm Hk w. unfold bind. specialize (Hm w).
  destruct (m w) as [[a|e] w1]; simpl in *; [|exact Hm].
  apply (Hk a Hm).
Qed.

Lemma post_try_except {A} (P : A -> Prop) S S' (m : M A) (h : exn -> M A) :
  post P S m -> (forall e, S e -> post P S' (h e)) ->
  post P S' (try_except m h).
Proof.
  intros Hm Hh w. unfold try_except. specialize (Hm w).
  destruct (m w) as [[a|e] w1]; simpl in *; [exact Hm|].
  apply (Hh e Hm).
Qed.

Lemma post_weaken {A} (P P' : A -> Prop) (S S' : exn -> Prop) (m : M A) :
  (forall a, P a -> P' a) -> (forall e, S e -> S' e) ->
  post P S m -> post P' S' m.
Proof.
  intros HP HS Hm w. specialize (Hm w).
  destruct (fst (m w)); auto.
Qed.

Lemma post_utcnow S : post (fun _ => True) S utcnow.
Proof. intros w. exact I. Qed.

Lemma post_logger S level message exc :
  post (fun _ => True) S (logger level message exc).
Proof. intros w. exact I. Qed.

Lemma post_query {A} S (q : DB -> A) : post (fun _ => True) S (query q).
Proof. intros w. exact I. Qed.

Lemma post_get_number d key :
  post (fun _ => True) (fun e => e = TypeError) (get_number d key).
Proof.
  unfold get_number. destruct (d !! key) as [[]|];
    (now apply post_ret) || now apply post_raise.
Qed.

Lemma post_sum_buffer_events events :
  forall acc,
    post (fun _ => True) (fun e => e = TypeError)
         (sum_buffer_events acc events).
Proof.
  induction events as [|e events IH]; intros acc; simpl.
  - now apply post_ret.
  - destruct (stb_buffer_events e); [apply IH | now apply post_raise].
Qed.

Create HintDb post.
#[local] Hint Resolve post_utcnow post_logger post_query post_get_number
  post_sum_buffer_events : post.

Ltac post_true :=
  repeat first
    [ progress cbv zeta
    | apply (post_bind (fun _ => True)); [|intros ? _]
    | solve [auto with post]
    | now apply post_ret
    | now apply post_raise
    | match goal with
      | |- post _ _ (match ?x with _ => _ end) => destruct x
      | |- post _ _ (if ?x then _ else _) => destruct x
      end ].

(** The feature computation raises nothing but [TypeError]. *)
Lemma post_compute_features customer_id :
  post (fun _ => True) (fun e => e = TypeError)
       (_compute_features customer_id).
Proof.
  unfold _compute_features, _compute_demographic_features,
    _compute_service_features, _compute_stb_features, _compute_web_features,
    _compute_billing_features, _compute_behavioral_features,
    _compute_stb_features, _compute_web_features.
  post_true.
Qed.

Lemma post_get_customer_features ttl_seconds customer_id use_cache :
  post (fun _ => True) (fun e => e = TypeError)
       (get_customer_features ttl_seconds customer_id use_cache).
Proof.
  unfold get_customer_features.
  apply (post_bind (fun _ => True)).
  { destruct use_cache; [intros w; exact I | now apply post_ret]. }
  intros [f|] _; [now apply post_ret|].
  apply (post_bind (fun _ => True)); [apply post_compute_features|].
  intros f _.
  apply (post_bind (fun _ => True)).
  { destruct use_cache; [intros w; exact I | now apply post_ret]. }
  intros _ _. now apply post_ret.
Qed.

Lemma post_extract_risk_factors features p :
  post (fun rf => (length (top_factors rf) <= 4)%nat
                  /\ total_factors rf = len (top_factors rf))
       (fun e => e = TypeError)
       (_extract_risk_factors features p).
Proof.
  unfold _extract_risk_factors. cbv zeta.
  apply (post_bind (fun _ => True)); [apply post_get_number|]. intros a _.
  apply (post_bind (fun _ => True)); [apply post_get_number|]. intros b _.
  apply (post_bind (fun _ => True)); [apply post_get_number|]. intros c _.
  apply (post_bind (fun _ => True)); [apply post_get_number|]. intros d _.
  apply post_ret. cbn [top_factors total_factors].
  unfold slice_to, len.
  destruct (Qlt_bool 0 a), (Qlt_bool 0 b), (Qlt_bool 2 c),
    (Qlt_bool d (- (3 # 10))); cbn; split; lia || reflexivity.
Qed.

Lemma post_recommend_actions S customer_id p level :
  post (fun actions => (length actions <= 3)%nat) S
       (recommend_actions customer_id p level).
Proof.
  unfold recommend_actions.
  apply (post_bind (fun _ => True)); [apply post_query|].
  intros [customer|] _; apply post_ret; [|simpl; lia].
  cbv zeta. unfold slice_to. rewrite length_take. lia.
Qed.

Lemma post_model_loader_predict thresholds m features :
  post (fun r => risk_level r = level_of thresholds (churn_probability r))
       (fun e => e = ModelError)
       (model_loader_predict thresholds m features).
Proof.
  unfold model_loader_predict.
  destruct (predict thresholds m features) as [r|] eqn:E.
  - apply post_ret. apply (predict_inv _ _ _ _ E).
  - now apply post_raise.
Qed.

Lemma post_make_response thresholds customer_id r factors actions :
  risk_level r = level_of thresholds (churn_probability r) ->
  (length actions <= 3)%nat ->
  (length (top_factors factors) <= 4)%nat ->
  total_factors factors = len (top_factors factors) ->
  post (response_for thresholds customer_id)
       (fun e => e = ResponseValidationError)
       (make_response customer_id r factors actions).
Proof.
  intros Hl Ha Hf Ht. unfold make_response.
  apply (post_bind (fun _ => True)); [apply post_utcnow|]. intros now _.
  destruct (Qle_bool 0 (churn_probability r)) eqn:E0;
    [|now apply post_raise].
  destruct (Qle_bool (churn_probability r) 1) eqn:E1;
    [|now apply post_raise].
  apply post_ret. apply Qle_bool_iff in E0, E1.
  repeat split; assumption.
Qed.

Lemma post_score thresholds m customer_id features :
  post (response_for thresholds customer_id) internal_error
    (prediction_result <- model_loader_predict thresholds m features ;;
     top_risk_factors <-
       _extract_risk_factors features (churn_probability prediction_result) ;;
     recommended_actions <-
       recommend_actions customer_id (churn_probability prediction_result)
         (risk_level prediction_result) ;;
     make_response customer_id prediction_result top_risk_factors
       recommended_actions).
Proof.
  unfold internal_error.
  eapply post_bind.
  { eapply post_weaken; [| |apply post_model_loader_predict];
      [intros a H; exact H | tauto]. }
  intros r Hr. cbv beta in Hr. eapply post_bind.
  { eapply post_weaken; [| |apply post_extract_risk_factors];
      [intros a H; exact H | tauto]. }
  intros factors [Hf Ht]. eapply post_bind.
  { apply post_recommend_actions. }
  intros actions Ha. cbv beta in Ha.
  eapply post_weaken;
    [| |apply (post_make_response thresholds); assumption];
    [intros a H; exact H | cbv beta; tauto].
Qed.

(** X13.  [predict_churn] answers with a well-formed response or with an
    [HTTPException] of status 503, 404 or 500, and nothing else: 503 exactly
    when no model is loaded.  A response carries the requested customer id,
    a probability in [0, 1], the risk level the thresholds assign to that
    probability, at most three actions and at most four risk factors, with
    [total_factors] their number. *)
Theorem predict_churn_outcomes ttl_seconds thresholds model customer_id w :
  match fst (predict_churn ttl_seconds thresholds model customer_id w) with
  | Ok r => model <> None /\ response_for thresholds customer_id r
  | Raise e =>
    (e = HTTPException 503 /\ model = None)
    \/ (model <> None /\ (e = HTTPException 404 \/ e = HTTPException 500))
  end.
Proof.
  unfold predict_churn. destruct model as [m|]; [|left; now split].
  revert w.
  change (post (fun r => Some m <> None /\ response_for thresholds customer_id
      r)
            (fun e => (e = HTTPException 503 /\ Some m = None)
                      \/ (Some m <> None
                          /\ (e = HTTPException 404 \/ e = HTTPException 500)))
            (try_except
               (features <- get_customer_features ttl_seconds customer_id true
                   ;;
                if bool_decide (features = ∅) then raise (HTTPException 404)
                else
                  prediction_result <- model_loader_predict thresholds m
                      features ;;
                  top_risk_factors <-
                    _extract_risk_factors features
                      (churn_probability prediction_result) ;;
                  recommended_actions <-
                    recommend_actions customer_id
                      (churn_probability prediction_result)
                      (risk_level prediction_result) ;;
                  make_response customer_id prediction_result top_risk_factors
                    recommended_actions)
               (fun e =>
                  match e with
                  | HTTPException _ => raise e
                  | _ =>
                    logger ERROR "Error predicting churn: " (Some e) ;;;
                    raise (HTTPException 500)
                  end))).
  eapply (post_try_except _ (fun e => e = HTTPException 404 \/ internal_error
      e)).
  - eapply (post_bind (fun _ => True)).
    + eapply post_weaken; [| |apply post_get_customer_features];
        [auto | unfold internal_error; intros e ->; tauto].
    + intros features _. destruct (bool_decide (features = ∅)).
      * apply post_raise. now left.
      * eapply post_weaken; [| |apply post_score];
          [intros r Hr; split; [discriminate|exact Hr] | tauto].
  - intros e [->|[->|[->| ->]]].
    + apply post_raise. right. split; [discriminate|now left].
    + apply (post_bind (fun _ => True)); [apply post_logger|]. intros _ _.
      apply post_raise. right. split; [discriminate|now right].
    + apply (post_bind (fun _ => True)); [apply post_logger|]. intros _ _.
      apply post_raise. right. split; [discriminate|now right].
    + apply (post_bind (fun _ => True)); [apply post_logger|]. intros _ _.
      apply post_raise. right. split; [discriminate|now right].
Qed.

Lemma compute_features_unknown customer_id w :
  customers (db w) !! customer_id = None ->
  fst (_compute_features customer_id w) = Ok ∅.
Proof.
  intros H. unfold _compute_features, bind, utcnow, query. simpl.
  now rewrite H.
Qed.


Lemma predict_churn_empty ttl_seconds thresholds m customer_id w w1 :
  get_customer_features ttl_seconds customer_id true w = (Ok ∅, w1) ->
  predict_churn ttl_seconds thresholds (Some m) customer_id w
    = (Raise (HTTPException 404), w1).
Proof.
  intros H. unfold predict_churn, try_except.
  now rewrite (bind_Ok _ _ _ _ _ H).
Qed.

Lemma predict_churn_run ttl_seconds thresholds m customer_id w :
  fst (predict_churn ttl_seconds thresholds (Some m) customer_id w)
    = Raise (HTTPException 404) ->
  get_customer_features ttl_seconds customer_id true w
    = (Ok ∅, snd (predict_churn ttl_seconds thresholds (Some m) customer_id w)).
Proof.
  intros H.
  destruct (get_customer_features ttl_seconds customer_id true w)
    as [[f|e] w1] eqn:E.
  - destruct (decide (f = ∅)) as [->|Hne].
    + now rewrite (predict_churn_empty _ thresholds m _ _ _ E).
    + exfalso. revert H. unfold predict_churn, try_except.
      rewrite (bind_Ok _ _ _ _ _ E).
      rewrite bool_decide_eq_false_2 by assumption.
      pose proof (post_score thresholds m customer_id f w1) as Hs.
      revert Hs.
      match goal with
      | |- _ -> fst (match ?s with _ => _ end) = _ -> _ =>
        destruct s as [[r|e] w2]
      end; simpl; [discriminate|].
      unfold internal_error. intros [->|[->| ->]]; discriminate.
  - exfalso. revert H. unfold predict_churn, try_except.
    rewrite (bind_Raise _ _ _ _ _ E).
    pose proof (post_get_customer_features ttl_seconds customer_id true w)
      as Hg.
    rewrite E in Hg. simpl in Hg. subst e. discriminate.
Qed.



Lemma get_customer_features_entry ttl_seconds customer_id w f w1 :
  0 < ttl_seconds ->
  get_customer_features ttl_seconds customer_id true w = (Ok f, w1) ->
  exists expires_at,
    redis w1 !! features_key customer_id = Some (f, expires_at)
    /\ redis_now w1 < expires_at
    /\ (fst (redis_get (features_key customer_id) w) = Ok None ->
        expires_at = redis_now w1 + ttl_seconds * 1000000).
Proof.
  intros Httl H. unfold get_customer_features in H. unfold features_key.
  unfold bind at 1 in H. unfold redis_get in H |- *. cbv beta iota in H.
  cbn [fst].
  destruct (redis w !! ("features:" +:+ customer_id))
    as [[f0 expires_at]|] eqn:E.
  - destruct (redis_now w <? expires_at) eqn:Hlt.
    + injection H as <- <-. exists expires_at. split; [exact E|].
      split; [now apply Z.ltb_lt | discriminate].
    + unfold bind at 1 in H.
      destruct (_compute_features customer_id w) as [[f1|e] w0];
        [|discriminate].
      injection H as <- <-. eexists. split; [apply lookup_insert_eq|].
      split; [unfold redis_now; simpl; lia | reflexivity].
  - unfold bind at 1 in H.
    destruct (_compute_features customer_id w) as [[f1|e] w0];
      [|discriminate].
    injection H as <- <-. eexists. split; [apply lookup_insert_eq|].
    split; [unfold redis_now; simpl; lia | reflexivity].
Qed.

(** X15.  A 404 is remembered for as long as the cached empty vector
    lives.  With a positive time to live, once [predict_churn] has answered
    404 for a customer the cache holds the empty vector for that customer,
    and while it does every call before the entry expires answers 404
    again and touches nothing, whatever the store holds by then.  When the
    first call did not itself come from the cache, the entry expires
    [ttl_seconds] after that call. *)
Theorem predict_churn_not_found_cached ttl_seconds thresholds m customer_id
    w :
  0 < ttl_seconds ->
  fst (predict_churn ttl_seconds thresholds (Some m) customer_id w)
    = Raise (HTTPException 404) ->
  let w1 :=
    snd (predict_churn ttl_seconds thresholds (Some m) customer_id w) in
  exists expires_at,
    redis w1 !! features_key customer_id = Some (∅, expires_at)
    /\ redis_now w1 < expires_at
    /\ (fst (redis_get (features_key customer_id) w) = Ok None ->
        expires_at = redis_now w1 + ttl_seconds * 1000000)
    /\ forall w2,
         redis w2 !! features_key customer_id = Some (∅, expires_at) ->
         redis_now w2 < expires_at ->
         predict_churn ttl_seconds thresholds (Some m) customer_id w2
         = (Raise (HTTPException 404), w2).
Proof.
  intros Httl H w1. subst w1.
  apply predict_churn_run in H.
  destruct (get_customer_features_entry _ _ _ _ _ Httl H)
    as (expires_at & Hin & Hlive & Hmiss).
  exists expires_at. split; [exact Hin|]. split; [exact Hlive|].
  split; [exact Hmiss|].
  intros w2 Hin2 Hlive2.
  apply predict_churn_empty.
  now apply (get_customer_features_hit _ _ _ _ expires_at).
Qed.

(** The customer is unknown at the first call and in the store at the
    second, 299 seconds later, with a time to live of 300 seconds. *)
Lemma predict_churn_not_found_cached_witness :
  let m := const_model (1 # 2) in
  let w := example_world empty_db in
  let w1 := snd (predict_churn 300 example_thresholds (Some m) "C1" w) in
  let w2 :=
    {| db := example_db; redis := redis w1;
       clock := fun _ => 19723 * usec_per_day + 5 + 299 * 1000000;
       ticks := 0; log := [] |} in
  is_Some (customers (db w2) !! "C1")
  /\ redis_now w2 = redis_now w1 + 299 * 1000000
  /\ predict_churn 300 example_thresholds (Some m) "C1" w2
     = (Raise (HTTPException 404), w2).
Proof.
  intros m w w1 w2. split; [now eexists|]. split; [reflexivity|].
  destruct (predict_churn_not_found_cached 300 example_thresholds m "C1" w)
    as (expires_at & Hin & _ & Hmiss & Hall); [lia|reflexivity|].
  apply Hall.
  - exact Hin.
  - rewrite (Hmiss eq_refl). vm_compute. reflexivity.
Defined.

Lemma post_score_then {B} thresholds m customer_id features
    (Q : B -> Prop) (k : ChurnPredictionResponse -> M B) :
  (forall r, response_for thresholds customer_id r ->
             post Q internal_error (k r)) ->
  post Q internal_error
    (prediction_result <- model_loader_predict thresholds m features ;;
     top_risk_factors <-
       _extract_risk_factors features (churn_probability prediction_result) ;;
     recommended_actions <-
       recommend_actions customer_id (churn_probability prediction_result)
         (risk_level prediction_result) ;;
     response <-
       make_response customer_id prediction_result top_risk_factors
         recommended_actions ;;
     k response).
Proof.
  intros Hk. unfold internal_error.
  eapply post_bind.
  { eapply post_weaken; [| |apply post_model_loader_predict];
      [intros a H; exact H | tauto]. }
  intros r Hr. cbv beta in Hr. eapply post_bind.
  { eapply post_weaken; [| |apply post_extract_risk_factors];
      [intros a H; exact H | tauto]. }
  intros factors [Hf Ht]. eapply post_bind.
  { apply post_recommend_actions. }
  intros actions Ha. cbv beta in Ha. eapply post_bind.
  { eapply post_weaken;
      [| |apply (post_make_response thresholds); assumption];
      [intros a H; exact H | cbv beta; tauto]. }
  exact Hk.
Qed.

Lemma post_predict_batch_loop thresholds m features_dict customer_ids :
  forall predictions,
    Forall (fun r => response_for thresholds (resp_customer_id r) r)
           predictions ->
    post (Forall (fun r => response_for thresholds (resp_customer_id r) r))
         internal_error
         (predict_batch_loop thresholds m features_dict predictions
            customer_ids).
Proof.
  induction customer_ids as [|cid customer_ids IH]; intros acc Hacc; simpl.
  - now apply post_ret.
  - destruct (features_dict !! cid) as [features|]; [|now apply IH].
    apply post_score_then. intros r Hr.
    apply IH. apply Forall_app. split; [exact Hacc|].
    constructor; [|constructor].
    now rewrite (proj1 Hr).
Qed.

(** X16.  [predict_batch] answers with a response or with an
    [HTTPException] of status 422, 503 or 500, never 404: 422 exactly when
    the request has no or more than 1000 customer ids, else 503 exactly when
    no model is loaded.  A response has one well-formed entry per requested
    id, in the order of the request, and [total_processed] is the number of
    requested ids. *)
Theorem predict_batch_outcomes ttl_seconds thresholds model customer_ids w :
  let in_range := 1 <= len customer_ids <= 1000 in
  match fst (predict_batch ttl_seconds thresholds model customer_ids w) with
  | Ok response =>
    in_range /\ model <> None
    /\ map resp_customer_id (predictions response) = customer_ids
    /\ total_processed response = len customer_ids
    /\ Forall (fun r => response_for thresholds (resp_customer_id r) r)
              (predictions response)
  | Raise e =>
    (e = HTTPException 422 /\ ~ in_range)
    \/ (e = HTTPException 503 /\ in_range /\ model = None)
    \/ (e = HTTPException 500 /\ in_range /\ model <> None)
  end.
Proof.
  intros in_range.
  destruct (predict_batch ttl_seconds thresholds model customer_ids w)
    as [[response|e] w'] eqn:E; simpl.
  - pose proof (predict_batch_never_skips _ _ _ _ _ _ _ E) as Hids.
    revert E. unfold predict_batch.
    destruct (negb _) eqn:Hrange; [discriminate|].
    apply negb_false_iff, andb_true_iff in Hrange.
    destruct Hrange as [H1 H2]. apply Z.leb_le in H1, H2.
    destruct model as [m|]; [|discriminate].
    unfold try_except, bind at 1.
    destruct (get_batch_features ttl_seconds customer_ids w)
      as [[d|e] w1]; [|discriminate].
    pose proof (post_predict_batch_loop thresholds m d customer_ids []
                  (List.Forall_nil _) w1) as Hl.
    revert Hl. unfold bind.
    destruct (predict_batch_loop thresholds m d [] customer_ids w1)
      as [[res|e] w2]; [|discriminate].
    simpl. intros Hl H. injection H as <- _. simpl in *.
    repeat split; try assumption; try discriminate.
    unfold len. f_equal. apply (f_equal (@length _)) in Hids.
    now rewrite length_map in Hids.
  - revert E. unfold predict_batch.
    destruct (negb _) eqn:Hrange.
    { intros H. injection H as <- _. left. split; [reflexivity|].
      apply negb_true_iff, andb_false_iff in Hrange.
      unfold in_range. destruct Hrange as [H|H]; apply Z.leb_gt in H; lia. }
    apply negb_false_iff, andb_true_iff in Hrange.
    destruct Hrange as [H1 H2]. apply Z.leb_le in H1, H2.
    destruct model as [m|].
    2:{ intros H. injection H as <- _. right. left. now repeat split. }
    unfold try_except.
    match goal with
    | |- (let (_, _) := ?s in _) = _ -> _ => destruct s as [[r|e0] w1]
    end; [discriminate|].
    unfold bind, logger, raise. intros H. injection H as <- _.
    right. right. now repeat split.
Qed.

Lemma get_number_numeric d key :
  numeric d key ->
  exists q, get_number d key = ret q /\ (d !! key = None -> q = 0%Q).
Proof.
  intros H. unfold get_number.
  destruct (d !! key) as [[s|n|x|b]|] eqn:E.
  - now destruct (H s).
  - eexists. split; [reflexivity|discriminate].
  - eexists. split; [reflexivity|discriminate].
  - eexists. split; [reflexivity|discriminate].
  - eexists. split; reflexivity.
Qed.

Lemma reported_value (d : Features) key q name level (b : bool) :
  (d !! key = None -> q = 0%Q) ->
  (q = 0%Q -> b = false) ->
  level = "high" \/ level = "medium" ->
  Forall reported
    (if b then [{| factor := name; factor_value := d !! key;
                   impact := level |}]
     else []).
Proof.
  intros Hq Hb Hl. destruct b; [|constructor].
  constructor; [|constructor]. split; [|exact Hl]. simpl.
  destruct (d !! key) as [v|]; [now eexists|].
  now discriminate (Hb (Hq eq_refl)).
Qed.

Lemma extract_risk_factors_numeric features p w :
  numeric features "payment_failures_90d" ->
  numeric features "days_overdue" ->
  numeric features "unresolved_calls_30d" ->
  numeric features "avg_sentiment_30d" ->
  exists rf,
    _extract_risk_factors features p w = (Ok rf, w)
    /\ Forall reported (top_factors rf)
    /\ total_factors rf = len (top_factors rf).
Proof.
  intros H1 H2 H3 H4.
  destruct (get_number_numeric _ _ H1) as (a & Ea & Ha).
  destruct (get_number_numeric _ _ H2) as (b & Eb & Hb).
  destruct (get_number_numeric _ _ H3) as (c & Ec & Hc).
  destruct (get_number_numeric _ _ H4) as (d & Ed & Hd).
  unfold _extract_risk_factors. cbv zeta.
  rewrite Ea, Eb, Ec, Ed. unfold bind, ret.
  eexists. split; [reflexivity|]. cbn [top_factors total_factors].
  assert (Hall :
    Forall reported
      ((if Qlt_bool 0 a
        then [{| factor := "payment_failures";
                 factor_value := features !! "payment_failures_90d";
                 impact := "high" |}] else [])
       ++ (if Qlt_bool 0 b
           then [{| factor := "days_overdue";
                    factor_value := features !! "days_overdue";
                    impact := "high" |}] else [])
       ++ (if Qlt_bool 2 c
           then [{| factor := "unresolved_service_calls";
                    factor_value := features !! "unresolved_calls_30d";
                    impact := "medium" |}] else [])
       ++ (if Qlt_bool d (- (3 # 10))
           then [{| factor := "negative_sentiment";
                    factor_value := features !! "avg_sentiment_30d";
                    impact := "medium" |}] else []))).
  { apply Forall_app_2;
      [apply (reported_value _ _ a); [assumption|now intros ->|tauto]|].
    apply Forall_app_2;
      [apply (reported_value _ _ b); [assumption|now intros ->|tauto]|].
    apply Forall_app_2;
      [apply (reported_value _ _ c); [assumption|now intros ->|tauto]|].
    apply (reported_value _ _ d); [assumption|now intros ->|tauto]. }
  revert Hall. unfold slice_to, len.
  destruct (Qlt_bool 0 a), (Qlt_bool 0 b), (Qlt_bool 2 c),
    (Qlt_bool d (- (3 # 10))); cbn; intros Hall; (split; [exact
        Hall|reflexivity]).
Qed.

Lemma numeric_empty key : numeric ∅ key.
Proof. intros s. now rewrite lookup_empty. Qed.

Lemma numeric_int (d : Features) key n : d !! key = Some (VInt n) -> numeric d
    key.
Proof. intros E s. now rewrite E. Qed.

Lemma numeric_float (d : Features) key x :
  d !! key = Some (VFloat x) -> numeric d key.
Proof. intros E s. now rewrite E. Qed.

(** X17.  Risk-factor extraction cannot fail on a vector that
    [_compute_features] has produced: it returns, touches nothing, and every
    factor it reports carries the value of its feature (the subscript never
    misses) and an impact of high or medium; [top_factors] is never
    truncated. *)
Theorem extract_risk_factors_total customer_id w features p w' :
  fst (_compute_features customer_id w) = Ok features ->
  exists rf,
    _extract_risk_factors features p w' = (Ok rf, w')
    /\ Forall reported (top_factors rf)
    /\ total_factors rf = len (top_factors rf).
Proof.
  intros H.
  destruct (customers (db w) !! customer_id) as [customer|] eqn:Hc.
  - destruct (compute_features_parts customer_id w customer Hc)
      as (tenure & contract & w2 & a3 & b3 & c3 & d3 & e3 & a2 & b2 & c2
          & a4 & b4 & c4 & d4 & _ & _ & _ & _ & _ & Hrun).
    destruct Hrun as [[_ Hr]|(a1 & b1 & c1 & d1 & e & r & _ & Hr)];
      rewrite Hr in H; [discriminate|].
    cbn [fst] in H.
    apply (f_equal (fun x => match x with Ok f => f | Raise _ => ∅ end)) in H.
    cbv beta iota in H. clear Hr.
    apply extract_risk_factors_numeric; rewrite <- H.
    + apply (numeric_int _ _ a4).
      apply lookup_union_Some_raw. right. split; [reflexivity|].
      apply lookup_union_Some_l. reflexivity.
    + apply (numeric_int _ _ c4).
      apply lookup_union_Some_raw. right. split; [reflexivity|].
      apply lookup_union_Some_l. reflexivity.
    + apply (numeric_int _ _ c3).
      do 4 (apply lookup_union_Some_raw; right; split; [reflexivity|]).
      apply lookup_union_Some_l. reflexivity.
    + apply (numeric_float _ _ b3).
      do 4 (apply lookup_union_Some_raw; right; split; [reflexivity|]).
      apply lookup_union_Some_l. reflexivity.
  - rewrite (compute_features_unknown _ _ Hc) in H.
    assert (features = ∅) as -> by congruence.
    apply extract_risk_factors_numeric; apply numeric_empty.
Qed.

Lemma extract_risk_factors_total_witness :
  let w := example_world negative_overdue_db in
  exists features rf,
    fst (_compute_features "C1" w) = Ok features
    /\ _extract_risk_factors features (1 # 2) w = (Ok rf, w)
    /\ Forall reported (top_factors rf)
    /\ total_factors rf = len (top_factors rf).
Proof.
  intros w.
  destruct (compute_features_total "C1" w example_customer eq_refl)
    as [features E].
  { intros e He. inversion He. }
  destruct (extract_risk_factors_total "C1" w features (1 # 2) w E)
    as (rf & Hrf).
  exists features, rf. split; [exact E|exact Hrf].
Defined.

(** ** The latest billing event *)

Lemma insert_desc_head {A} (key : A -> Z) x l :
  (forall h t, l = h :: t -> forall y, y ∈ l -> key y <= key h) ->
  forall h t, insert_desc Z.ltb key x l = h :: t ->
    forall y, y ∈ x :: l -> key y <= key h.
Proof.
  intros Hl h t E y Hy. destruct l as [|z l]; simpl in E.
  - injection E as <- <-. apply elem_of_cons in Hy.
    destruct Hy as [->|Hy]; [lia | inversion Hy].
  - specialize (Hl z l eq_refl).
    destruct (key x <? key z) eqn:Hlt.
    + injection E as <- <-. apply Z.ltb_lt in Hlt.
      apply elem_of_cons in Hy. destruct Hy as [->|Hy]; [lia|].
      now apply Hl.
    + injection E as <- <-. apply Z.ltb_ge in Hlt.
      apply elem_of_cons in Hy. destruct Hy as [->|Hy]; [lia|].
      specialize (Hl y Hy). lia.
Qed.

Lemma sort_desc_head {A} (key : A -> Z) l :
  forall h t, sort_desc Z.ltb key l = h :: t ->
    h ∈ l /\ forall y, y ∈ l -> key y <= key h.
Proof.
  intros h t E. split.
  - rewrite <- (sort_desc_perm Z.ltb key l), E. now left.
  - revert h t E. induction l as [|x l IH]; intros h t E y Hy;
      [inversion Hy|].
    simpl in E.
    apply (insert_desc_head key x (sort_desc Z.ltb key l)) with (t := t);
      [|exact E|].
    + intros h' t' E' y' Hy'. apply (IH h' t' E').
      now rewrite <- (sort_desc_perm Z.ltb key l).
    + apply elem_of_cons in Hy. destruct Hy as [->|Hy]; [now left|].
      right. now rewrite (sort_desc_perm Z.ltb key l).
Qed.

Lemma filter_disjoint_length {A} (P Q : A -> Prop)
    `{!forall x, Decision (P x)} `{!forall x, Decision (Q x)} (l : list A) :
  (forall x, P x -> Q x -> False) ->
  (length (filter P l) + length (filter Q l) <= length l)%nat.
Proof.
  intros Hd. induction l as [|x l IH]; simpl; [lia|].
  rewrite !filter_cons.
  destruct (decide (P x)) as [HP|], (decide (Q x)) as [HQ|]; simpl; try lia.
  now destruct (Hd x HP HQ).
Qed.

(** X18.  The billing features count over the customer's events of the
    last 90 days and read the balance from the newest of them: the failure
    and dispute counts are those of the window (together at most its size),
    and [days_overdue] and [account_balance] are those of an event of the
    window that no other event of the window is newer than, or 0 when the
    window is empty. *)
Theorem billing_features_latest customer_id now w :
  let window := billing_window customer_id now (db w) in
  exists failures disputes overdue balance,
    _compute_billing_features customer_id now w
      = (Ok (billing_dict failures disputes overdue balance), w)
    /\ failures
       = len (filter (fun e => bill_event_type e = "payment_failed") window)
    /\ disputes
       = len (filter (fun e => bill_event_type e = "dispute_opened") window)
    /\ failures + disputes <= len window
    /\ match window with
       | [] => overdue = 0 /\ balance = 0%Q
       | _ :: _ =>
         exists latest,
           latest ∈ window
           /\ (forall e, e ∈ window ->
                 bill_timestamp e <= bill_timestamp latest)
           /\ overdue = or_int (bill_days_overdue latest) 0
           /\ balance = or_float (bill_account_balance latest) 0
       end.
Proof.
  intros window.
  assert (Hlen : len (filter (fun e => bill_event_type e = "payment_failed")
                        window)
                 + len (filter (fun e => bill_event_type e = "dispute_opened")
                          window)
                 <= len window).
  { unfold len.
    pose proof (filter_disjoint_length
                  (fun e => bill_event_type e = "payment_failed")
                  (fun e => bill_event_type e = "dispute_opened") window) as H.
    lapply H; [lia|]. intros x H1 H2. rewrite H1 in H2. discriminate. }
  unfold _compute_billing_features, bind, query. cbv zeta.
  fold (billing_window customer_id now (db w)). fold window.
  clearbody window.
  pose proof (sort_desc_perm Z.ltb bill_timestamp window) as Hperm.
  destruct (sort_desc Z.ltb bill_timestamp window) as [|latest rest] eqn:E.
  - apply Permutation_nil_l in Hperm. subst window.
    exists 0, 0, 0, 0%Q. repeat split; reflexivity.
  - destruct (sort_desc_head _ _ _ _ E) as [Hin Hmax].
    do 4 eexists. split; [reflexivity|].
    split; [unfold len; now rewrite Hperm|].
    split; [unfold len; now rewrite Hperm|].
    split; [unfold len in *; rewrite !Hperm; exact Hlen|].
    destruct window as [|e0 window']; [inversion Hin|].
    exists latest. repeat split; assumption.
Qed.

(** ** The active model *)

Lemma sort_desc_newest {A} (key : A -> Q) l h t :
  sort_desc Qlt_bool key l = h :: t ->
  h ∈ l /\ forall y, y ∈ l -> (key y <= key h)%Q.
Proof.
  intros E. split.
  - rewrite <- (sort_desc_perm Qlt_bool key l), E. now left.
  - intros y Hy. rewrite <- (sort_desc_perm Qlt_bool key l), E in Hy.
    pose proof (sort_desc_sorted key l) as Hs. rewrite E in Hs.
    apply elem_of_cons in Hy. destruct Hy as [->|Hy]; [apply Qle_refl|].
    apply StronglySorted_inv in Hs. destruct Hs as [_ Hall].
    rewrite List.Forall_forall in Hall. apply Hall.
    now apply list_elem_of_In.
Qed.

Lemma get_active_model_outcome models_dir w w' :
  fst (get_active_model models_dir w) = fst (get_active_model models_dir w').
Proof.
  unfold get_active_model. destruct models_dir as [entries|]; [|reflexivity].
  cbv zeta. destruct (sort_desc _ _ _) as [|latest rest]; [reflexivity|].
  unfold bind, logger, load_model.
  now destruct (pickle_load latest).
Qed.

(** X19.  [get_active_model] loads the newest model file: without a
    [models] directory, or without a [.pkl] entry in it, it returns [None];
    otherwise its outcome is that of unpickling a [.pkl] entry that no other
    [.pkl] entry is newer than.  [startup_event] binds the module-level
    [model] to that outcome: it starts without a model when there is none
    and fails when the newest file cannot be unpickled. *)
Theorem get_active_model_newest models_dir w :
  match models_dir with
  | Some entries =>
    match glob_pkl entries with
    | [] => get_active_model models_dir w = (Ok None, w)
    | _ :: _ =>
      exists p,
        p ∈ entries /\ ends_with ".pkl" (mf_name p) = true
        /\ (forall q, q ∈ entries -> ends_with ".pkl" (mf_name q) = true ->
              (st_mtime q <= st_mtime p)%Q)
        /\ fst (get_active_model models_dir w)
           = match pickle_load p with
             | Ok m => Ok (Some m)
             | Raise e => Raise e
             end
    end
  | None => get_active_model models_dir w = (Ok None, w)
  end
  /\ fst (startup_event models_dir w) = fst (get_active_model models_dir w).
Proof.
  split.
  - destruct models_dir as [entries|]; [|reflexivity].
    unfold get_active_model. cbv zeta.
    pose proof (sort_desc_perm Qlt_bool st_mtime (glob_pkl entries)) as Hperm.
    destruct (sort_desc Qlt_bool st_mtime (glob_pkl entries))
      as [|latest rest] eqn:E.
    + apply Permutation_nil_l in Hperm. now rewrite <- Hperm.
    + destruct (sort_desc_newest _ _ _ _ E) as [Hin Hmax].
      destruct (glob_pkl entries) as [|p0 files] eqn:Eg; [inversion Hin|].
      rewrite <- Eg in Hin, Hmax. unfold glob_pkl in Hin, Hmax.
      apply list_elem_of_filter in Hin. destruct Hin as [Hpkl Hin].
      exists latest. split; [exact Hin|]. split; [exact Hpkl|]. split.
      * intros q Hq Hqpkl. apply Hmax. now apply list_elem_of_filter.
      * unfold bind, logger, load_model.
        now destruct (pickle_load latest).
  - rewrite (get_active_model_outcome models_dir w
               (add_log {| log_level := INFO;
                           log_message := "Loading model...";
                           log_exc := None |} w)).
    unfold startup_event, bind, logger at 1.
    now destruct (get_active_model models_dir _) as [[[m|]|e] w1].
Qed.

(** ** Row order *)


















Section Reordered.
Variable c : string.
Variable t : datetime.

Lemma reordered_frame w w' w1 w1' :
  reordered c t w w' ->
  db w1 = db w -> clock w1 = clock w ->
  db w1' = db w' -> clock w1' = clock w' ->
  reordered c t w1 w1'.
Proof.
  unfold reordered, clock_is. intros H D C D' C'.
  rewrite D, C, D', C'. exact H.
Qed.



Lemma agree_logger level message exc :
  agree (reordered c t) (logger level message exc).
Proof.
  intros w w' H. split; [reflexivity|].
  now apply (reordered_frame w w').
Qed.










End Reordered.

(** ** Determinism of the feature computation *)



(** The condition on the billing timestamps cannot be dropped: of two
    billing events with the same timestamp, [days_overdue] is read from the
    one that comes first. *)
Lemma billing_ties_follow_row_order :
  let w := example_world (tie_db [bill_a; bill_tie]) in
  let w' := example_world (tie_db [bill_tie; bill_a]) in
  same_rows (db w) (db w')
  /\ bill_timestamp bill_a = bill_timestamp bill_tie
  /\ feature_of (fst (_compute_features "C1" w)) "days_overdue"
     = Some (VInt 12)
  /\ feature_of (fst (_compute_features "C1" w')) "days_overdue"
     = Some (VInt 0).
Proof.
  intros w w'. split; [|split; [|split]].
  - repeat split; try reflexivity. apply perm_swap.
  - reflexivity.
  - vm_compute. reflexivity.
  - vm_compute. reflexivity.
Qed.
